(** * r2-file-manager: the reconciliation engine over a flat object store

    A shallow embedding of [src/services/cloudflare-r2.ts] (the object-store
    service: [isValidFile], [listFiles], [uploadFile], [uploadFolder],
    [deleteFile], [deleteFolder]) and of the derivation logic of
    [src/app/page.tsx] ([buildFolderStructure], [filteredFiles],
    [handleDeleteFolder], the plain-file branch of [onDrop]).

    JavaScript strings are modelled by [string]; the only character the code
    inspects is the slash.  Byte sizes are [Z].  The remote bucket is an
    explicit state threaded through every adapter call. *)

From Stdlib Require Import ZArith Lia Bool Ascii.
From stdpp Require Import base list strings gmap sorting.

Open Scope string_scope.
Open Scope list_scope.
Open Scope Z_scope.
Set Warnings "-register-all".

(* stdpp freezes [String.append] for [simpl]; the proofs below compute with it. *)
#[local] Arguments String.append !s1 s2 : simpl nomatch.

(** ** JavaScript string primitives used by the sources *)

Module Js.

Definition slash : ascii := "/"%char.

(** [s.startsWith('/')] *)
Definition startsWithSlash (s : string) : bool :=
  match s with
  | String c _ => Ascii.eqb c slash
  | EmptyString => false
  end.

(** [s.endsWith('/')] *)
Fixpoint endsWithSlash (s : string) : bool :=
  match s with
  | EmptyString => false
  | String c EmptyString => Ascii.eqb c slash
  | String _ r => endsWithSlash r
  end.

(** [s.slice(1)] *)
Definition slice1 (s : string) : string :=
  match s with
  | String _ r => r
  | EmptyString => EmptyString
  end.

(** [s.includes('/')] *)
Fixpoint includesSlash (s : string) : bool :=
  match s with
  | EmptyString => false
  | String c r => Ascii.eqb c slash || includesSlash r
  end.

(** Truthiness of a string: the empty string is the only falsy one. *)
Definition truthy (s : string) : bool :=
  match s with
  | EmptyString => false
  | String _ _ => true
  end.

(** [s.split('/')]: never empty, [''.split('/')] is [['']]. *)
Fixpoint split (s : string) : list string :=
  match s with
  | EmptyString => [EmptyString]
  | String c r =>
      if Ascii.eqb c slash then EmptyString :: split r
      else match split r with
           | h :: t => String c h :: t
           | [] => [String c EmptyString]
           end
  end.

(** [parts.join('/')] *)
Fixpoint join (parts : list string) : string :=
  match parts with
  | [] => EmptyString
  | [p] => p
  | p :: rest => p +:+ "/" +:+ join rest
  end.

(** [parts.slice(0, -1)] *)
Definition init {A} (l : list A) : list A := removelast l.

(** [parts.filter(Boolean)] on an array of strings *)
Definition filterBoolean (parts : list string) : list string :=
  List.filter truthy parts.

(** [s.substring(0, s.lastIndexOf('/'))] for a string that includes a
    slash: everything before the last slash. *)
Fixpoint beforeLastSlash (s : string) : string :=
  match s with
  | EmptyString => EmptyString
  | String c r =>
      if includesSlash r then String c (beforeLastSlash r)
      else EmptyString
  end.

End Js.

(** ** Data model of the service *)

(** The presigned URL is an opaque, expiring token: it is kept symbolic. *)
Inductive Url :=
| NoUrl                                   (* url: '' *)
| Presigned (key : string) (expiresIn : Z). (* getSignedUrl(GetObject key) *)

Module FileMetadata.
Record t := mk {
  name : string;
  url : Url;
  publicUrl : string;
  size : Z;
  uploadDate : string;
  folderPath : string;
  fileKey : string;
  isFolder : bool  (* optional in the source; absent reads as false *)
}.
End FileMetadata.

(** The browser [File] handed to the service. *)
Module File.
Record t := mk {
  name : string;
  size : Z;
  type : string
}.
End File.

Definition FILE_SIZE_LIMIT : Z := 10 * 1024 * 1024.

Definition MARKER : string := ".keep".

Definition PUBLIC_HOST : string := "https://files.careerweb.org".

(** [isValidFile(filename, fileSize = 0)] *)
Definition isValidFile (filename : string) (fileSize : Z) : bool :=
  if String.eqb filename MARKER then false
  else if (0 <? fileSize) && (FILE_SIZE_LIMIT <? fileSize) then false
  else true.

(** ** Key codec

    The source has no named codec; the two directions are the expressions
    of [uploadFile] (path to key) and of [listFiles] and
    [buildFolderStructure] (key to path). *)

(** [folderPath === '/' ? '' : (folderPath.startsWith('/') ? folderPath.slice(1) : folderPath)] *)
Definition formattedPath (folderPath : string) : string :=
  if String.eqb folderPath "/" then ""
  else if Js.startsWithSlash folderPath then Js.slice1 folderPath
  else folderPath.

(** ['/' + key] *)
Definition toPath (key : string) : string := "/" +:+ key.

(** [formattedPath ? `${formattedPath}/${file.name}` : file.name] *)
Definition fileKeyOf (folderPath fileName : string) : string :=
  let fp := formattedPath folderPath in
  if Js.truthy fp then fp +:+ "/" +:+ fileName else fileName.

(** [fileKey.includes('/') ? fileKey.substring(0, fileKey.lastIndexOf('/')) : ''] *)
Definition dirKey (fileKey : string) : string :=
  if Js.includesSlash fileKey then Js.beforeLastSlash fileKey else "".

(** The [folderPath] field that [listFiles] derives from a key. *)
Definition folderPathOfKey (fileKey : string) : string := toPath (dirKey fileKey).

(** ** The remote store and the adapter *)

(** One stored object. *)
Record Stored := mkStored {
  okey : string;
  osize : Z;
  omodified : string
}.

(** Commands sent through [s3Client.send]. *)
Inductive Call :=
| ListObjectsV2 (Prefix : string)
| PutObject (Key : string) (ContentType : string) (BodySize : Z)
| DeleteObject (Key : string).

(** The bucket, the log of every command sent (oldest first), and the
    environment: which sends fail (decided by the number of earlier sends and
    the command), how many keys one listing returns at most, and the date. *)
Record World := mkWorld {
  objects : list Stored;
  calls : list Call;
  fails : nat -> Call -> bool;
  maxKeys : nat;
  today : string
}.

Inductive Error :=
| FileTooLarge (size : Z)     (* the [Error] thrown by the size check *)
| StoreError (c : Call).      (* a rejected [send] *)

Inductive Result (A : Type) :=
| Ok (a : A)
| Err (e : Error).
Arguments Ok {A} a.
Arguments Err {A} e.

(** Asynchronous service code, run to completion: state and exceptions. *)
Definition M (A : Type) : Type := World -> Result A * World.

Definition ret {A} (a : A) : M A := fun w => (Ok a, w).
Definition throw {A} (e : Error) : M A := fun w => (Err e, w).
Definition bind {A B} (m : M A) (k : A -> M B) : M B :=
  fun w => match m w with
           | (Ok a, w') => k a w'
           | (Err e, w') => (Err e, w')
           end.
(** [try { m } catch (error) { h }] *)
Definition try_catch {A} (m : M A) (h : Error -> M A) : M A :=
  fun w => match m w with
           | (Ok a, w') => (Ok a, w')
           | (Err e, w') => h e w'
           end.

Notation "x <- m ;; k" := (bind m (fun x => k))
  (at level 90, m at level 89, right associativity).
Notation "m ;;; k" := (bind m (fun _ => k))
  (at level 90, right associativity).

Definition withCalls (w : World) (cs : list Call) : World :=
  mkWorld (objects w) cs (fails w) (maxKeys w) (today w).
Definition withObjects (w : World) (os : list Stored) : World :=
  mkWorld os (calls w) (fails w) (maxKeys w) (today w).

(** Every send is logged, whether it succeeds or not. *)
Definition logged (c : Call) (w : World) : World := withCalls w (calls w ++ [c]).

Definition rejected (c : Call) (w : World) : bool := fails w (length (calls w)) c.

Fixpoint hasPrefix (p s : string) : bool :=
  match p, s with
  | EmptyString, _ => true
  | String a p', String b s' => Ascii.eqb a b && hasPrefix p' s'
  | String _ _, EmptyString => false
  end.

(** An entry of [Contents] in a listing response; the SDK types every field
    as optional. *)
Record S3Object := mkS3Object {
  Key : option string;
  Size : option Z;
  LastModified : option string
}.

Definition describe (o : Stored) : S3Object :=
  mkS3Object (Some (okey o)) (Some (osize o)) (Some (omodified o)).

(** One page of a delimiter-less listing: the keys under the prefix, at most
    [maxKeys] of them; [Contents] is absent when nothing matches. *)
Definition page (prefix : string) (w : World) : list Stored :=
  take (maxKeys w) (List.filter (fun o => hasPrefix prefix (okey o)) (objects w)).

Definition sendList (prefix : string) : M (option (list S3Object)) :=
  fun w =>
    let c := ListObjectsV2 prefix in
    if rejected c w then (Err (StoreError c), logged c w)
    else match page prefix w with
         | [] => (Ok None, logged c w)
         | os => (Ok (Some (map describe os)), logged c w)
         end.

(** A put replaces the object under the key or adds it. *)
Fixpoint store (o : Stored) (os : list Stored) : list Stored :=
  match os with
  | [] => [o]
  | x :: r => if String.eqb (okey x) (okey o) then o :: r else x :: store o r
  end.

Definition sendPut (key contentType : string) (bodySize : Z) : M unit :=
  fun w =>
    let c := PutObject key contentType bodySize in
    if rejected c w then (Err (StoreError c), logged c w)
    else (Ok tt, withObjects (logged c w)
                   (store (mkStored key bodySize (today w)) (objects w))).

(** A delete removes the key; deleting an absent key is not an error. *)
Definition sendDelete (key : string) : M unit :=
  fun w =>
    let c := DeleteObject key in
    if rejected c w then (Err (StoreError c), logged c w)
    else (Ok tt, withObjects (logged c w)
                   (List.filter (fun o => negb (String.eqb (okey o) key)) (objects w))).

Definition getToday : M string := fun w => (Ok (today w), w).

(** ** [uploadFile(file, folderPath)] *)
Definition uploadFile (file : File.t) (folderPath : string) : M FileMetadata.t :=
  let isFolderMarker := String.eqb (File.name file) MARKER in
  if negb isFolderMarker && (FILE_SIZE_LIMIT <? File.size file) then
    throw (FileTooLarge (File.size file))
  else
    let fileKey := fileKeyOf folderPath (File.name file) in
    sendPut fileKey (File.type file) (File.size file) ;;;
    d <- getToday ;;
    ret {| FileMetadata.name := File.name file;
           FileMetadata.url := Presigned fileKey 3600;
           FileMetadata.publicUrl := PUBLIC_HOST +:+ "/" +:+ fileKey;
           FileMetadata.size := File.size file;
           FileMetadata.uploadDate := d;
           FileMetadata.folderPath := folderPath;
           FileMetadata.fileKey := fileKey;
           FileMetadata.isFolder := false |}.

(** ** [deleteFile(fileKey)] *)
Definition deleteFile (fileKey : string) : M unit := sendDelete fileKey.

(** [!item.Key] *)
Definition keyMissing (o : S3Object) : bool :=
  match Key o with
  | Some k => negb (Js.truthy k)
  | None => true
  end.

(** [item.Key || ''] *)
Definition keyOr (o : S3Object) : string := default "" (Key o).

(** The prefix [deleteFolder] lists under. *)
Definition deletePrefix (folderPath : string) : string :=
  let normalizedPath :=
    if Js.endsWithSlash folderPath then folderPath else folderPath +:+ "/" in
  if Js.startsWithSlash normalizedPath then Js.slice1 normalizedPath
  else normalizedPath.

(** [for (const item of Contents) { if (!item.Key) continue; await deleteFile(item.Key) }] *)
Fixpoint deleteEach (items : list S3Object) : M unit :=
  match items with
  | [] => ret tt
  | item :: rest =>
      if keyMissing item then deleteEach rest
      else deleteFile (keyOr item) ;;; deleteEach rest
  end.

(** ** [deleteFolder(folderPath)] *)
Definition deleteFolder (folderPath : string) : M unit :=
  let prefix := deletePrefix folderPath in
  contents <- sendList prefix ;;
  match contents with
  | None => ret tt
  | Some [] => ret tt
  | Some items => deleteEach items
  end.

(** ** [uploadFolder(folderEntry, baseFolderPath)] *)

(** A dropped [FileSystemEntry]: a file entry (with the [File] it yields) or
    a directory entry (with the entries its reader yields, all batches
    together).  Reading an entry is taken to succeed. *)
Inductive Entry :=
| FileEntry (file : File.t)
| DirectoryEntry (name : string) (entries : list Entry).

(** [new File([new Blob([''])], '.keep', { type: 'text/plain' })] *)
Definition markerFile : File.t := File.mk MARKER 0 "text/plain".

(** [try { const m = await uploadFile(file, path); results.push(m) } catch (error) { console.error(...) }] *)
Definition tryUpload (file : File.t) (path : string)
    (results : list FileMetadata.t) : M (list FileMetadata.t) :=
  try_catch (m <- uploadFile file path ;; ret (results ++ [m]))
            (fun _ => ret results).

(** The first loop of [processDirectoryEntries]: the file entries. *)
Fixpoint uploadFileEntries (entries : list Entry) (currentPath : string)
    (results : list FileMetadata.t) : M (list FileMetadata.t) :=
  match entries with
  | [] => ret results
  | FileEntry file :: rest =>
      if (File.size file <=? FILE_SIZE_LIMIT) || String.eqb (File.name file) MARKER
      then results' <- tryUpload file currentPath results ;;
           uploadFileEntries rest currentPath results'
      else uploadFileEntries rest currentPath results
  | DirectoryEntry _ _ :: rest => uploadFileEntries rest currentPath results
  end.

(** The marker loop over [pathParts], carrying [buildPath]. *)
Fixpoint ensureIntermediate (pathParts : list string) (buildPath : string)
    (results : list FileMetadata.t) : M (list FileMetadata.t) :=
  match pathParts with
  | [] => ret results
  | part :: rest =>
      let buildPath' :=
        if Js.truthy buildPath then buildPath +:+ "/" +:+ part else "/" +:+ part in
      results' <- tryUpload markerFile buildPath' results ;;
      ensureIntermediate rest buildPath' results'
  end.

(** [processDirectoryEntries(dirEntry, currentPath)], with the [results]
    array of the enclosing [uploadFolder] passed along. *)
Fixpoint processDirectoryEntries (dirEntry : Entry) (currentPath : string)
    (results : list FileMetadata.t) {struct dirEntry} : M (list FileMetadata.t) :=
  match dirEntry with
  | FileEntry _ => ret results
  | DirectoryEntry _ entries =>
      results1 <- uploadFileEntries entries currentPath results ;;
      (fix subdirectories (es : list Entry) (results : list FileMetadata.t)
         : M (list FileMetadata.t) :=
         match es with
         | [] => ret results
         | FileEntry _ :: rest => subdirectories rest results
         | (DirectoryEntry subFolderName _ as subDirEntry) :: rest =>
             let subFolderPath := currentPath +:+ "/" +:+ subFolderName in
             let pathParts := Js.filterBoolean (Js.split subFolderPath) in
             results2 <- ensureIntermediate pathParts "" results ;;
             results3 <- processDirectoryEntries subDirEntry subFolderPath results2 ;;
             subdirectories rest results3
         end) entries results1
  end.

Definition entryName (e : Entry) : string :=
  match e with
  | FileEntry file => File.name file
  | DirectoryEntry name _ => name
  end.

Definition mainFolderPathOf (baseFolderPath folderName : string) : string :=
  if String.eqb baseFolderPath "/" then "/" +:+ folderName
  else baseFolderPath +:+ "/" +:+ folderName.

Definition uploadFolder (folderEntry : Entry) (baseFolderPath : string)
    : M (list FileMetadata.t) :=
  let mainFolderPath := mainFolderPathOf baseFolderPath (entryName folderEntry) in
  results <- tryUpload markerFile mainFolderPath [] ;;
  processDirectoryEntries folderEntry mainFolderPath results.

(** ** [listFiles('/')]: from the two listing responses to the file list *)

(** The successive values of the running path in the parent loops of
    [listFiles] and [buildFolderStructure], over the parts already cut to
    [parts.length - 1]. *)
Fixpoint parentPaths (parts : list string) (path : string) : list string :=
  match parts with
  | [] => []
  | part :: rest =>
      if Js.truthy part then
        let path' := if Js.truthy path then path +:+ "/" +:+ part else part in
        path' :: parentPaths rest path'
      else parentPaths rest path
  end.

(** [set.add(x)] on a [Set], which keeps insertion order. *)
Definition setAdd (x : string) (s : list string) : list string :=
  if decide (x ∈ s) then s else s ++ [x].

Definition setAddAll (xs : list string) (s : list string) : list string :=
  foldl (fun acc x => setAdd x acc) s xs.

(** [item.Key.split('/').pop() || fileKey] *)
Definition baseName (fileKey : string) : string :=
  let popped := default "" (last (Js.split fileKey)) in
  if Js.truthy popped then popped else fileKey.

(** The [folderPaths] set of [listFiles]: every parent folder of every key,
    as [/path/]. *)
Definition detectedFolders (contents : list S3Object) : list string :=
  foldl (fun folderPaths item =>
           let parts := Js.split (keyOr item) in
           setAddAll (map (fun p => "/" +:+ p +:+ "/") (parentPaths (Js.init parts) ""))
                     folderPaths)
        [] contents.

Definition folderObject (date folderPath : string) : FileMetadata.t :=
  let pathParts := Js.filterBoolean (Js.split folderPath) in
  {| FileMetadata.name := default "" (last pathParts);
     FileMetadata.url := NoUrl;
     FileMetadata.publicUrl := PUBLIC_HOST +:+ folderPath;
     FileMetadata.size := 0;
     FileMetadata.uploadDate := date;
     FileMetadata.folderPath := "/" +:+ Js.join (Js.init pathParts);
     FileMetadata.fileKey := folderPath;
     FileMetadata.isFolder := true |}.

(** One entry of [recursiveResponse.Contents]; [None] is the skipped marker. *)
Definition processItem (date : string) (item : S3Object) : option FileMetadata.t :=
  let fileKey := keyOr item in
  let name := baseName fileKey in
  if String.eqb name MARKER then None
  else Some {| FileMetadata.name := name;
               FileMetadata.url := Presigned fileKey 3600;
               FileMetadata.publicUrl := PUBLIC_HOST +:+ "/" +:+ fileKey;
               FileMetadata.size := default 0 (Size item);
               FileMetadata.uploadDate := default date (LastModified item);
               FileMetadata.folderPath := folderPathOfKey fileKey;
               FileMetadata.fileKey := fileKey;
               FileMetadata.isFolder := false |}.

(** One entry of [folderResponse.CommonPrefixes]. *)
Definition folderPlaceholder (date : string) (prefix : option string)
    : option FileMetadata.t :=
  let folderKey := default "" prefix in
  if Js.endsWithSlash folderKey then
    Some {| FileMetadata.name :=
              default "" (last (Js.filterBoolean (Js.split folderKey)));
            FileMetadata.url := NoUrl;
            FileMetadata.publicUrl := PUBLIC_HOST +:+ "/" +:+ folderKey;
            FileMetadata.size := 0;
            FileMetadata.uploadDate := date;
            FileMetadata.folderPath := "/";
            FileMetadata.fileKey := folderKey;
            FileMetadata.isFolder := true |}
  else None.

(** The root branch of [listFiles], after its two sends: [commonPrefixes] is
    [folderResponse.CommonPrefixes], [contents] is
    [recursiveResponse.Contents]. *)
Definition listFilesRoot (date : string)
    (commonPrefixes : option (list (option string)))
    (contents : option (list S3Object)) : list FileMetadata.t :=
  let allObjects :=
    match contents with
    | Some items =>
        map (folderObject date) (detectedFolders items)
        ++ omap (processItem date) items
    | None => []
    end in
  match commonPrefixes with
  | Some prefixes => omap (folderPlaceholder date) prefixes ++ allObjects
  | None => allObjects
  end.

(** ** The page: [filteredFiles] *)

Definition inSelectedFolder (selectedFolder : string) (file : FileMetadata.t) : bool :=
  if FileMetadata.isFolder file then false
  else if String.eqb selectedFolder "/" then
    negb (Js.includesSlash (FileMetadata.fileKey file))
  else
    let normalizedFolder :=
      if Js.startsWithSlash selectedFolder then Js.slice1 selectedFolder
      else selectedFolder in
    let filePathParts := Js.split (FileMetadata.fileKey file) in
    let filePathWithoutName := Js.join (Js.init filePathParts) in
    String.eqb filePathWithoutName normalizedFolder.

Definition filteredFiles (files : list FileMetadata.t) (selectedFolder : string)
    : list FileMetadata.t :=
  List.filter (inSelectedFolder selectedFolder) files.

(** The files shown for a folder, from what the store listed: the page
    keeps in [files] the result of [listFiles('/')] and filters it. *)
Definition directFiles (date : string)
    (commonPrefixes : option (list (option string)))
    (contents : option (list S3Object)) (selectedFolder : string)
    : list FileMetadata.t :=
  filteredFiles (listFilesRoot date commonPrefixes contents) selectedFolder.

(** ** The page: [buildFolderStructure]

    [Folder] objects are mutable and shared: [folderMap] and the [children]
    arrays hold references to the same objects, and a child is attached by
    pushing onto the array of the object found in the map.  The objects live
    in a heap (a reference is an index), [children] holds references. *)

Module Folder.
Record t := mk {
  name : string;
  path : string;
  children : list nat
}.
End Folder.

Record Builder := mkBuilder {
  heap : list Folder.t;
  folderMap : gmap string nat
}.

(** [a.split('/').length] *)
Definition depth (p : string) : nat := length (Js.split p).

(** [Array.prototype.sort] is stable; the comparator orders by [depth]. *)
Fixpoint insertByDepth (p : string) (sorted : list string) : list string :=
  match sorted with
  | [] => [p]
  | q :: rest =>
      if (depth p <=? depth q)%nat then p :: q :: rest
      else q :: insertByDepth p rest
  end.

Definition sortByDepth (paths : list string) : list string :=
  foldr insertByDepth [] paths.

(** First pass: [allPaths], in insertion order. *)
Definition allPaths (files : list FileMetadata.t) : list string :=
  foldl (fun acc file =>
           let parts := Js.split (FileMetadata.fileKey file) in
           setAddAll (map (fun p => "/" +:+ p) (parentPaths (Js.init parts) "")) acc)
        ["/"] files.

(** [parentFolder.children.find(child => child.path === path)] *)
Definition hasChildWithPath (h : list Folder.t) (parent : Folder.t) (path : string) : bool :=
  existsb (fun ref => match h !! ref with
                      | Some child => String.eqb (Folder.path child) path
                      | None => false
                      end) (Folder.children parent).

(** [parentFolder.children.push(newFolder)] *)
Definition pushChild (ref : nat) (parent : Folder.t) : Folder.t :=
  Folder.mk (Folder.name parent) (Folder.path parent) (Folder.children parent ++ [ref]).

(** Second pass, one path.  [pathParts] is never empty for a path of
    [allPaths] other than the root, so [folderName] is always defined. *)
Definition createFolder (path : string) (b : Builder) : Builder :=
  if String.eqb path "/" then b
  else
    let pathParts := Js.filterBoolean (Js.split path) in
    let folderName := default "" (last pathParts) in
    let parentPathParts := Js.init pathParts in
    let parentPath :=
      if (length parentPathParts =? 0)%nat then "/" else "/" +:+ Js.join parentPathParts in
    match folderMap b !! path with
    | Some _ => b
    | None =>
        let ref := length (heap b) in
        let heap1 := heap b ++ [Folder.mk folderName path []] in
        let map1 := <[path := ref]> (folderMap b) in
        match map1 !! parentPath with
        | Some pref =>
            match heap1 !! pref with
            | Some parentFolder =>
                if hasChildWithPath heap1 parentFolder path then mkBuilder heap1 map1
                else mkBuilder (<[pref := pushChild ref parentFolder]> heap1) map1
            | None => mkBuilder heap1 map1
            end
        | None => mkBuilder heap1 map1  (* console.warn: parent not found *)
        end
    end.

Definition initialBuilder : Builder :=
  mkBuilder [Folder.mk "Root" "/" []] {[ "/" := 0%nat ]}.

(** The object graph at the end of [buildFolderStructure]; the function
    returns the array [[root]], and [root] is the object at reference 0. *)
Definition buildFolderGraph (files : list FileMetadata.t) : Builder :=
  foldl (fun b path => createFolder path b) initialBuilder (sortByDepth (allPaths files)).

(** What a reader of the returned value sees: the tree under a reference. *)
Inductive FolderTree :=
| FolderNode (name path : string) (children : list FolderTree).

Fixpoint readFolder (fuel : nat) (h : list Folder.t) (ref : nat) : option FolderTree :=
  match fuel with
  | O => None
  | S fuel' =>
      match h !! ref with
      | None => None
      | Some f =>
          match mapM (readFolder fuel' h) (Folder.children f) with
          | Some cs => Some (FolderNode (Folder.name f) (Folder.path f) cs)
          | None => None
          end
      end
  end.

(** [buildFolderStructure(files)]: the returned [[root]], read as trees. *)
Definition buildFolderStructure (files : list FileMetadata.t) : option (list FolderTree) :=
  let b := buildFolderGraph files in
  mapM (readFolder (length (heap b)) (heap b)) [0%nat].

Definition treePath (t : FolderTree) : string :=
  match t with FolderNode _ p _ => p end.

(** Number of nodes of a tree that carry a given path. *)
Fixpoint countPath (p : string) (t : FolderTree) : nat :=
  match t with
  | FolderNode _ q cs =>
      ((if String.eqb q p then 1 else 0) + sum_list_with (countPath p) cs)%nat
  end.

(** No node of the tree has two children with the same path. *)
Fixpoint siblingsDistinct (t : FolderTree) : Prop :=
  match t with
  | FolderNode _ _ cs =>
      NoDup (map treePath cs)
      /\ (fix all (l : list FolderTree) : Prop :=
            match l with
            | [] => True
            | c :: r => siblingsDistinct c /\ all r
            end) cs
  end.

(** The tree after a new leaf is pushed onto the children of the folder of
    path [q]. *)
Fixpoint graft (q : string) (leaf : FolderTree) (t : FolderTree) : FolderTree :=
  match t with
  | FolderNode n p cs =>
      FolderNode n p (map (graft q leaf) cs ++ (if String.eqb p q then [leaf] else []))
  end.

(** The non-empty prefixes of a list, shortest first. *)
Fixpoint nonemptyPrefixes {A} (l : list A) : list (list A) :=
  match l with
  | [] => []
  | x :: r => [x] :: map (cons x) (nonemptyPrefixes r)
  end.

(** The folder segments of a key: the parts before the last one, empty
    parts dropped. *)
Definition folderSegments (fileKey : string) : list string :=
  Js.filterBoolean (Js.init (Js.split fileKey)).

(** The parent chain of a key as [buildFolderStructure] computes it,
    root first. *)
Definition keyChain (fileKey : string) : list string :=
  "/" :: map (fun p => "/" +:+ p) (parentPaths (Js.init (Js.split fileKey)) "").

(** ** The page: state, [handleDeleteFolder], the plain-file branch of [onDrop] *)

Inductive Toast :=
| CannotDeleteRoot            (* error: Cannot delete the root folder *)
| FolderDeleted (name : string) (* success: Folder "..." deleted successfully! *)
| FailedToDeleteFolder        (* error: Failed to delete folder *)
| AllFilesTooLarge            (* error: All files exceed the maximum size limit of 10MB *)
| FilesSkipped (n : nat)      (* warning: n files exceeding 10MB were skipped *)
| FilesUploaded (n : nat)     (* success: n files uploaded successfully! *)
| UploadFailed                (* error: Upload failed. Please try again. *)
| NothingToUpload.            (* error: No valid files or folders were found to upload *)

Record Page := mkPage {
  files : list FileMetadata.t;
  folders : list FolderTree;
  selectedFolder : string;
  toasts : list Toast;
  refreshTrigger : nat
}.

Definition toast (t : Toast) (pg : Page) : Page :=
  mkPage (files pg) (folders pg) (selectedFolder pg) (toasts pg ++ [t]) (refreshTrigger pg).

(** [updateFolders] of [handleDeleteFolder]: drop the folder everywhere. *)
Fixpoint dropFolder (path : string) (t : FolderTree) : FolderTree :=
  match t with
  | FolderNode n p cs =>
      FolderNode n p
        ((fix go (l : list FolderTree) : list FolderTree :=
            match l with
            | [] => []
            | c :: r =>
                if negb (String.eqb (treePath c) path) then dropFolder path c :: go r
                else go r
            end) cs)
  end.

Definition updateFolders (path : string) (fs : list FolderTree) : list FolderTree :=
  map (dropFolder path) (List.filter (fun f => negb (String.eqb (treePath f) path)) fs).

Definition parentPathOf (path : string) : string :=
  let parentPathParts := Js.init (Js.filterBoolean (Js.split path)) in
  if (length parentPathParts =? 0)%nat then "/" else "/" +:+ Js.join parentPathParts.

(** [handleDeleteFolder(folder)]; [confirmed] is the answer to [confirm(...)]. *)
Definition handleDeleteFolder (confirmed : bool) (folderName folderPath : string)
    (pg : Page) (w : World) : Page * World :=
  if String.eqb folderPath "/" then (toast CannotDeleteRoot pg, w)
  else if negb confirmed then (pg, w)
  else
    match deleteFolder folderPath w with
    | (Ok _, w') =>
        let selected :=
          if String.eqb (selectedFolder pg) folderPath then parentPathOf folderPath
          else selectedFolder pg in
        (mkPage (files pg) (updateFolders folderPath (folders pg)) selected
                (toasts pg ++ [FolderDeleted folderName]) (S (refreshTrigger pg)), w')
    | (Err _, w') => (toast FailedToDeleteFolder pg, w')
    end.




(** ** Derived descriptions used to state the properties *)

(** One call of [uploadFile] made by [uploadFolder]: for a folder marker or
    for a file entry. *)
Inductive Unit :=
| MarkerAt (path : string)
| FileAt (file : File.t) (path : string).

Definition unitFile (u : Unit) : File.t :=
  match u with
  | MarkerAt _ => markerFile
  | FileAt file _ => file
  end.

Definition unitPath (u : Unit) : string :=
  match u with
  | MarkerAt path => path
  | FileAt _ path => path
  end.

(** The command [uploadFile] sends for a file and a folder. *)
Definition putCall (file : File.t) (folderPath : string) : Call :=
  PutObject (fileKeyOf folderPath (File.name file)) (File.type file) (File.size file).

(** The metadata [uploadFile] returns when the put is accepted. *)
Definition uploaded (date : string) (file : File.t) (folderPath : string) : FileMetadata.t :=
  let fileKey := fileKeyOf folderPath (File.name file) in
  {| FileMetadata.name := File.name file;
     FileMetadata.url := Presigned fileKey 3600;
     FileMetadata.publicUrl := PUBLIC_HOST +:+ "/" +:+ fileKey;
     FileMetadata.size := File.size file;
     FileMetadata.uploadDate := date;
     FileMetadata.folderPath := folderPath;
     FileMetadata.fileKey := fileKey;
     FileMetadata.isFolder := false |}.

(** The size gate of [uploadFile]. *)
Definition passesGate (file : File.t) : bool :=
  String.eqb (File.name file) MARKER || (File.size file <=? FILE_SIZE_LIMIT).

(** How a sequence of gated uploads settles when the first of them is the
    [n]-th send: each put is accepted or rejected on its own. *)
Fixpoint outcomes (rejects : nat -> Call -> bool) (n : nat) (date : string)
    (units : list (File.t * string)) : list (Result FileMetadata.t) :=
  match units with
  | [] => []
  | (file, path) :: rest =>
      (if rejects n (putCall file path) then Err (StoreError (putCall file path))
       else Ok (uploaded date file path))
      :: outcomes rejects (S n) date rest
  end.

Definition fulfilled {A} (settled : list (Result A)) : list A :=
  omap (fun r => match r with Ok a => Some a | Err _ => None end) settled.

(** The calls of [uploadFile] that [uploadFolder] makes, in order. *)
Fixpoint planFiles (entries : list Entry) (currentPath : string) : list Unit :=
  match entries with
  | [] => []
  | FileEntry file :: rest =>
      if (File.size file <=? FILE_SIZE_LIMIT) || String.eqb (File.name file) MARKER
      then FileAt file currentPath :: planFiles rest currentPath
      else planFiles rest currentPath
  | DirectoryEntry _ _ :: rest => planFiles rest currentPath
  end.

Fixpoint planMarkers (pathParts : list string) (buildPath : string) : list Unit :=
  match pathParts with
  | [] => []
  | part :: rest =>
      let buildPath' :=
        if Js.truthy buildPath then buildPath +:+ "/" +:+ part else "/" +:+ part in
      MarkerAt buildPath' :: planMarkers rest buildPath'
  end.

Fixpoint planDirectory (dirEntry : Entry) (currentPath : string) {struct dirEntry}
    : list Unit :=
  match dirEntry with
  | FileEntry _ => []
  | DirectoryEntry _ entries =>
      planFiles entries currentPath
      ++ (fix subdirectories (es : list Entry) : list Unit :=
            match es with
            | [] => []
            | FileEntry _ :: rest => subdirectories rest
            | (DirectoryEntry subFolderName _ as subDirEntry) :: rest =>
                let subFolderPath := currentPath +:+ "/" +:+ subFolderName in
                planMarkers (Js.filterBoolean (Js.split subFolderPath)) ""
                ++ planDirectory subDirEntry subFolderPath
                ++ subdirectories rest
            end) entries
  end.

Definition uploadPlan (folderEntry : Entry) (baseFolderPath : string) : list Unit :=
  let mainFolderPath := mainFolderPathOf baseFolderPath (entryName folderEntry) in
  MarkerAt mainFolderPath :: planDirectory folderEntry mainFolderPath.

(** A path segment: not empty, no slash. *)
Definition segment (s : string) : Prop :=
  Js.truthy s = true /\ Js.includesSlash s = false.

(** The logical path with the given segments; no segments is the root. *)
Definition renderPath (segs : list string) : string := "/" +:+ Js.join segs.

(** Every directory below the entry is named by a segment. *)
Fixpoint wellNamed (e : Entry) : Prop :=
  match e with
  | FileEntry _ => True
  | DirectoryEntry _ entries =>
      (fix all (es : list Entry) : Prop :=
         match es with
         | [] => True
         | x :: r => match x with
                     | FileEntry _ => True
                     | DirectoryEntry n _ => segment n
                     end /\ wellNamed x /\ all r
         end) entries
  end.

Definition isMarkerKey (o : Stored) : bool := String.eqb (baseName (okey o)) MARKER.

(** The file record [listFiles] makes of a listed object. *)
Definition fileRecord (date : string) (item : S3Object) : FileMetadata.t :=
  let fileKey := keyOr item in
  {| FileMetadata.name := baseName fileKey;
     FileMetadata.url := Presigned fileKey 3600;
     FileMetadata.publicUrl := PUBLIC_HOST +:+ "/" +:+ fileKey;
     FileMetadata.size := default 0 (Size item);
     FileMetadata.uploadDate := default date (LastModified item);
     FileMetadata.folderPath := folderPathOfKey fileKey;
     FileMetadata.fileKey := fileKey;
     FileMetadata.isFolder := false |}.

(** A listed object belongs directly to the folder: its key with the
    file name stripped is the folder's key; at the root, its key has no
    slash. *)
Definition belongsTo (selectedFolder : string) (item : S3Object) : bool :=
  if String.eqb selectedFolder "/" then negb (Js.includesSlash (keyOr item))
  else String.eqb (dirKey (keyOr item))
         (if Js.startsWithSlash selectedFolder then Js.slice1 selectedFolder
          else selectedFolder).

Definition unitPair (u : Unit) : File.t * string := (unitFile u, unitPath u).

Definition putCallOf (u : File.t * string) : Call := putCall (fst u) (snd u).

(** A sequence of uploads, each in its own [try]/[catch]. *)
Fixpoint attemptAll (units : list (File.t * string)) (results : list FileMetadata.t)
    : M (list FileMetadata.t) :=
  match units with
  | [] => ret results
  | (file, path) :: rest =>
      results' <- tryUpload file path results ;;
      attemptAll rest results'
  end.

(** The directory of the scenario: one file at the top, one file one level
    down. *)
Definition twoLevels : Entry :=
  DirectoryEntry "top"
    [FileEntry (File.mk "f1.png" 3 "image/png");
     DirectoryEntry "sub" [FileEntry (File.mk "f2.png" 4 "image/png")]].

Definition emptyBucket : World := mkWorld [] [] (fun _ _ => false) 1000 "2024-01-02".





(** In a plan, every unit is preceded by what [Q] asks for. *)
Definition eachPreceded (Q : list Unit -> Unit -> Prop) (plan : list Unit) : Prop :=
  forall pre u post, plan = pre ++ u :: post -> Q pre u.

(** For the upload of a file into a directory below the folder of segments
    [segs]: every level from just below that folder down to the directory of
    the file has its marker among the earlier units. *)
Definition levelsMarked (segs : list string) (pre : list Unit) (u : Unit) : Prop :=
  match u with
  | MarkerAt _ => True
  | FileAt _ D =>
      exists ns, D = renderPath (segs ++ ns)
                 /\ forall ns', ns' `prefix_of` ns -> ns' <> [] ->
                                In (MarkerAt (renderPath (segs ++ ns'))) pre
  end.

(** The folder's key as [filteredFiles] normalizes it. *)
Definition normalizedFolderOf (selectedFolder : string) : string :=
  if Js.startsWithSlash selectedFolder then Js.slice1 selectedFolder else selectedFolder.

(** The listed objects shown for a folder: not a marker, and directly in
    the folder. *)
Definition shownIn (selectedFolder : string) (item : S3Object) : bool :=
  negb (String.eqb (baseName (keyOr item)) MARKER) && belongsTo selectedFolder item.

(** Is a path registered in [folderMap]? *)
Definition registered (b : Builder) (p : string) : bool :=
  match folderMap b !! p with Some _ => true | None => false end.

(** The object graph is consistent: the map and the heap agree, the root is
    the first object, references stay inside the heap, and the tree read
    from the root has each registered path once and nothing else. *)
Record wellBuilt (b : Builder) : Prop := mkWellBuilt {
  wb_root : folderMap b !! "/" = Some 0%nat;
  wb_map : forall p l, folderMap b !! p = Some l ->
                       exists f, heap b !! l = Some f /\ Folder.path f = p;
  wb_heap : forall l f, heap b !! l = Some f -> folderMap b !! Folder.path f = Some l;
  wb_children : forall l f c, heap b !! l = Some f -> c ∈ Folder.children f ->
                              (c < length (heap b))%nat;
  wb_tree : exists T, readFolder (length (heap b)) (heap b) 0 = Some T
                      /\ forall p, countPath p T = if registered b p then 1%nat else 0%nat
}.

(** A candidate: the root, or a non-empty prefix of the folder segments of
    a key. *)
Definition candidate (files : list FileMetadata.t) (segs : list string) : Prop :=
  segs = [] \/ exists file, file ∈ files
                 /\ segs <> [] /\ segs `prefix_of` folderSegments (FileMetadata.fileKey file).

(** A bucket with 1001 objects under [a/], listed 1000 keys at a time. *)
Definition digit (d : nat) : string := String (ascii_of_nat (48 + d)) "".

Definition numbered (i : nat) : string :=
  "a/" +:+ digit (i / 1000) +:+ digit (i / 100 mod 10) +:+ digit (i / 10 mod 10)
       +:+ digit (i mod 10) +:+ ".png".

Definition largeFolder : World :=
  mkWorld (map (fun i => mkStored (numbered i) 1 "2024-01-01") (seq 0 1001))
          [] (fun _ _ => false) 1000 "2024-01-02".

Definition isDelete (c : Call) : bool :=
  match c with DeleteObject _ => true | _ => false end.

(** ** More of the page: sub-folders, breadcrumbs, folder creation *)

Definition treeName (t : FolderTree) : string :=
  match t with FolderNode n _ _ => n end.

Definition treeChildren (t : FolderTree) : list FolderTree :=
  match t with FolderNode _ _ cs => cs end.

(** [findFolder] of [getSubFolders], below one folder: the folder itself
    when its path matches, else the first match among its children, depth
    first. *)
Fixpoint findBelow (path : string) (folder : FolderTree) : option FolderTree :=
  match folder with
  | FolderNode _ p cs =>
      if String.eqb p path then Some folder
      else (fix firstFound (l : list FolderTree) : option FolderTree :=
              match l with
              | [] => None
              | c :: r =>
                  match findBelow path c with
                  | Some found => Some found
                  | None => firstFound r
                  end
              end) cs
  end.

(** [findFolder(folders, path)] *)
Fixpoint findFolder (folders : list FolderTree) (path : string) : option FolderTree :=
  match folders with
  | [] => None
  | folder :: rest =>
      match findBelow path folder with
      | Some found => Some found
      | None => findFolder rest path
      end
  end.

(** [getSubFolders(currentPath)] over the [folders] of the page *)
Definition getSubFolders (folders : list FolderTree) (currentPath : string)
    : list FolderTree :=
  match findFolder folders currentPath with
  | Some currentFolder => treeChildren currentFolder
  | None => []
  end.

(** The breadcrumb links: for each segment of [selectedFolder], the segment
    and ['/' + array.slice(0, index + 1).join('/')]; none at the root. *)
Definition breadcrumbs (selectedFolder : string) : list (string * string) :=
  if String.eqb selectedFolder "/" then []
  else
    let array := Js.filterBoolean (Js.split selectedFolder) in
    imap (fun index segment => (segment, "/" +:+ Js.join (take (S index) array))) array.

(** The characters of the class in the regular expression of
    [handleCreateFolder]: slash, backslash, colon, star, question mark,
    double quote, less than, greater than, bar. *)
Definition hostile (c : ascii) : bool :=
  existsb (Ascii.eqb c)
    ["/"%char; "\"%char; ":"%char; "*"%char; "?"%char; ascii_of_nat 34;
     "<"%char; ">"%char; "|"%char].

(** [name.replace(/[...]/g, '_')]: every hostile character becomes an
    underscore. *)
Fixpoint sanitizeFolderName (name : string) : string :=
  match name with
  | EmptyString => EmptyString
  | String c r => String (if hostile c then "_"%char else c) (sanitizeFolderName r)
  end.

(** [updateFolders] of [handleCreateFolder]: the new folder is appended to
    the children of a folder whose path is the selected one; below another
    folder the update goes on. *)
Fixpoint addFolder (selected : string) (newFolder : FolderTree) (t : FolderTree)
    : FolderTree :=
  match t with
  | FolderNode n p cs =>
      if String.eqb p selected then FolderNode n p (cs ++ [newFolder])
      else FolderNode n p (map (addFolder selected newFolder) cs)
  end.

Inductive CreateToast :=
| FolderNameEmpty               (* error: Folder name cannot be empty *)
| FolderCreated (name : string) (* success: Folder "..." created *)
| FailedToCreateFolder.         (* error: Failed to create folder. Please try again. *)

(** [handleCreateFolder()]; [trimmed] is [newFolderName.trim()].  The toast
    shown is returned beside the page. *)
Definition handleCreateFolder (trimmed : string) (pg : Page) (w : World)
    : CreateToast * Page * World :=
  if String.eqb trimmed "" then (FolderNameEmpty, pg, w)
  else
    let sanitizedFolderName := sanitizeFolderName trimmed in
    let newFolderPath := mainFolderPathOf (selectedFolder pg) sanitizedFolderName in
    match uploadFile markerFile newFolderPath w with
    | (Ok _, w') =>
        let newFolder := FolderNode sanitizedFolderName newFolderPath [] in
        (FolderCreated sanitizedFolderName,
         mkPage (files pg) (map (addFolder (selectedFolder pg) newFolder) (folders pg))
                (selectedFolder pg) (toasts pg) (S (refreshTrigger pg)),
         w')
    | (Err _, w') => (FailedToCreateFolder, pg, w')
    end.

Inductive DeleteFileToast :=
| FileDeleted (name : string)   (* success: ... deleted successfully! *)
| FailedToDeleteFile.           (* error: Failed to delete file *)

(** [handleDeleteFile(file)]; [confirmed] is the answer to [confirm(...)]. *)
Definition handleDeleteFile (confirmed : bool) (file : FileMetadata.t)
    (pg : Page) (w : World) : option DeleteFileToast * Page * World :=
  if negb confirmed then (None, pg, w)
  else
    match deleteFile (FileMetadata.fileKey file) w with
    | (Ok _, w') =>
        (Some (FileDeleted (FileMetadata.name file)),
         mkPage (List.filter (fun f => negb (String.eqb (FileMetadata.fileKey f)
                                                       (FileMetadata.fileKey file)))
                             (files pg))
                (folders pg) (selectedFolder pg) (toasts pg) (refreshTrigger pg),
         w')
    | (Err _, w') => (Some FailedToDeleteFile, pg, w')
    end.

(** ** [onDrop] for plain files *)



(** ** [listFiles(folderPath)] for a folder other than the root *)

(** [s.slice(0, -1)] on a string *)
Fixpoint dropLastChar (s : string) : string :=
  match s with
  | EmptyString => EmptyString
  | String _ EmptyString => EmptyString
  | String c r => String c (dropLastChar r)
  end.

(** One entry of [folderResponse.CommonPrefixes] in the non-root branch. *)
Definition prefixPlaceholder (date : string) (prefix : option string) : FileMetadata.t :=
  let folderKey := default "" prefix in
  let folderPathClean :=
    if Js.endsWithSlash folderKey then dropLastChar folderKey else folderKey in
  let folderName := default "" (last (Js.filterBoolean (Js.split folderPathClean))) in
  let folderKeyWithSlash :=
    if Js.endsWithSlash folderKey then folderKey else folderKey +:+ "/" in
  let pathParts := Js.filterBoolean (Js.split folderPathClean) in
  let parentPathParts := Js.init pathParts in
  let parentPath :=
    "/" +:+ (if (0 <? length parentPathParts)%nat then Js.join parentPathParts else "") in
  {| FileMetadata.name := folderName;
     FileMetadata.url := NoUrl;
     FileMetadata.publicUrl := PUBLIC_HOST +:+ "/" +:+ folderKeyWithSlash;
     FileMetadata.size := 0;
     FileMetadata.uploadDate := date;
     FileMetadata.folderPath := parentPath;
     FileMetadata.fileKey := folderKeyWithSlash;
     FileMetadata.isFolder := true |}.

(** The non-root branch of [listFiles], after its send. *)
Definition listFilesFolder (date : string)
    (commonPrefixes : option (list (option string)))
    (contents : option (list S3Object)) : list FileMetadata.t :=
  let folderPlaceholders :=
    match commonPrefixes with
    | Some prefixes => map (prefixPlaceholder date) prefixes
    | None => []
    end in
  match contents with
  | None => folderPlaceholders
  | Some items => folderPlaceholders ++ omap (processItem date) items
  end.

(** ** More derived descriptions *)

(** Every child hangs under its parent path and is named by the last
    segment of its path. *)
Fixpoint linked (t : FolderTree) : Prop :=
  match t with
  | FolderNode _ p cs =>
      (fix all (l : list FolderTree) : Prop :=
         match l with
         | [] => True
         | c :: r =>
             (parentPathOf (treePath c) = p
              /\ treeName c = default "" (last (Js.filterBoolean (Js.split (treePath c)))))
             /\ linked c /\ all r
         end) cs
  end.

(** A node of a tree: the tree itself or a node of one of its children. *)
Fixpoint nodeOf (u t : FolderTree) : Prop :=
  u = t \/
  match t with
  | FolderNode _ _ cs =>
      (fix any (l : list FolderTree) : Prop :=
         match l with
         | [] => False
         | c :: r => nodeOf u c \/ any r
         end) cs
  end.

(** The raw running paths of all keys, in insertion order. *)
Definition rawFolders (acc : list string) (keys : list string) : list string :=
  foldl (fun acc key => setAddAll (parentPaths (Js.init (Js.split key)) "") acc) acc keys.

(** The files of a dropped directory, in the order [uploadFolder] meets
    them: the files of a directory before those of its sub-directories. *)
Fixpoint filesOf (e : Entry) : list File.t :=
  match e with
  | FileEntry _ => []
  | DirectoryEntry _ entries =>
      (fix direct (es : list Entry) : list File.t :=
         match es with
         | [] => []
         | FileEntry file :: rest => file :: direct rest
         | DirectoryEntry _ _ :: rest => direct rest
         end) entries
      ++ (fix below (es : list Entry) : list File.t :=
            match es with
            | [] => []
            | x :: rest => filesOf x ++ below rest
            end) entries
  end.

(** The file of a unit that is not a marker put by the code. *)
Definition fileOfUnit (u : Unit) : option File.t :=
  match u with
  | MarkerAt _ => None
  | FileAt file _ => Some file
  end.

(** [entry.isDirectory] *)
Definition isDirectory (e : Entry) : bool :=
  match e with
  | DirectoryEntry _ _ => true
  | FileEntry _ => false
  end.

(** The uploaded directory has a sub-directory among its entries. *)
Definition hasSubdirectory (e : Entry) : bool :=
  match e with
  | FileEntry _ => false
  | DirectoryEntry _ entries => existsb isDirectory entries
  end.

(** The puts of a marker made by [uploadFolder] itself. *)
Definition isMarkerUnit (u : Unit) : bool :=
  match u with
  | MarkerAt _ => true
  | FileAt _ _ => false
  end.

(** A path written from at least one segment. *)
Definition segmentPath (p : string) : Prop :=
  exists ss, ss <> [] /\ Forall segment ss /\ p = renderPath ss.

(** * Properties *)

(** ** Strings *)

Section StringFacts.

Lemma eqb_slash_true c : Ascii.eqb c Js.slash = true -> c = Js.slash.
Proof. apply Ascii.eqb_eq. Qed.

Lemma append_assoc (a b c : string) : (a +:+ b) +:+ c = a +:+ (b +:+ c).
Proof. induction a as [|x a IH]; simpl; [reflexivity | now rewrite IH]. Qed.

Lemma truthy_true s : Js.truthy s = true <-> s <> "".
Proof. destruct s; simpl; split; congruence. Qed.

Lemma includesSlash_app a b :
  Js.includesSlash (a +:+ b) = Js.includesSlash a || Js.includesSlash b.
Proof.
  induction a as [|x a IH]; simpl; [reflexivity |].
  rewrite IH. now rewrite orb_assoc.
Qed.

Lemma beforeLastSlash_joined (d n : string) :
  Js.includesSlash n = false ->
  Js.beforeLastSlash (d +:+ "/" +:+ n) = d.
Proof.
  intros Hn. induction d as [|x d IH]; simpl in *.
  - now rewrite Hn.
  - rewrite includesSlash_app. simpl. rewrite orb_true_r. now rewrite IH.
Qed.

Lemma dirKey_joined (d n : string) :
  Js.includesSlash n = false -> dirKey (d +:+ "/" +:+ n) = d.
Proof.
  intros Hn. unfold dirKey. rewrite includesSlash_app. simpl.
  rewrite orb_true_r. now apply beforeLastSlash_joined.
Qed.

Lemma dirKey_plain (n : string) : Js.includesSlash n = false -> dirKey n = "".
Proof. intros Hn. unfold dirKey. now rewrite Hn. Qed.

Lemma formattedPath_slash (r : string) :
  r <> "" -> formattedPath (String Js.slash r) = r.
Proof.
  intros Hr. unfold formattedPath. destruct r as [|c r]; [congruence |].
  reflexivity.
Qed.

Lemma startsWithSlash_inv p :
  Js.startsWithSlash p = true -> exists r, p = String Js.slash r.
Proof.
  destruct p as [|c r]; simpl; [discriminate |].
  intros H. apply eqb_slash_true in H. subst. eauto.
Qed.

End StringFacts.

(** ** Key codec *)

(** C8. Round trip of the codec: prefixing a key with a slash and
    formatting the path back gives the key, for every key; formatting a
    logical path (one that starts with a slash) and prefixing the slash gives
    the path; the root and the empty key map to each other; and a file
    uploaded under a logical path is listed back under that same path. *)
Theorem key_path_round_trip (k p n : string) :
  Js.startsWithSlash p = true ->
  Js.includesSlash n = false ->
  formattedPath (toPath k) = k
  /\ toPath (formattedPath p) = p
  /\ formattedPath "/" = "" /\ toPath "" = "/"
  /\ folderPathOfKey (fileKeyOf p n) = p.
Proof.
  intros Hp Hn. apply startsWithSlash_inv in Hp as [r ->].
  split; [| split; [| split; [| split]]]; try reflexivity.
  - destruct k; reflexivity.
  - destruct r; reflexivity.
  - unfold folderPathOfKey, fileKeyOf. destruct r as [|c r].
    + simpl. now rewrite dirKey_plain.
    + rewrite formattedPath_slash by discriminate.
      cbn [Js.truthy]. now rewrite dirKey_joined.
Qed.

Lemma key_path_round_trip_witness :
  formattedPath (toPath "a/b/c.png") = "a/b/c.png"
  /\ toPath (formattedPath "/a/b") = "/a/b"
  /\ formattedPath "/" = "" /\ toPath "" = "/"
  /\ folderPathOfKey (fileKeyOf "/a/b" "c.png") = "/a/b".
Proof. apply (key_path_round_trip "a/b/c.png" "/a/b" "c.png"); reflexivity. Defined.

(** ** The size ceiling *)

Lemma name_is_marker (name : string) :
  name <> MARKER -> String.eqb name MARKER = false.
Proof. intros H. now apply String.eqb_neq. Qed.

Lemma uploadFile_gated (file : File.t) (folder : string) (w : World) :
  passesGate file = true ->
  uploadFile file folder w =
  (if rejected (putCall file folder) w
   then Err (StoreError (putCall file folder))
   else Ok (uploaded (today w) file folder),
   if rejected (putCall file folder) w
   then logged (putCall file folder) w
   else withObjects (logged (putCall file folder) w)
          (store (mkStored (fileKeyOf folder (File.name file)) (File.size file) (today w))
                 (objects w))).
Proof.
  unfold passesGate, uploadFile. intros Hg.
  assert (negb (String.eqb (File.name file) MARKER)
          && (FILE_SIZE_LIMIT <? File.size file) = false) as ->.
  { destruct (String.eqb (File.name file) MARKER); simpl in *; [reflexivity |].
    apply Z.ltb_ge. now apply Z.leb_le. }
  unfold bind, sendPut, getToday, ret, putCall.
  destruct (rejected _ w); reflexivity.
Qed.

(** C10. The ceiling is inclusive.  For a file that is not a marker,
    [isValidFile] accepts exactly the sizes up to 10,485,760 and
    [uploadFile] throws the size error exactly for the sizes above it: a
    file of exactly the ceiling is put, and size 0 passes both checks. *)
Theorem size_ceiling_is_inclusive (file : File.t) (folder : string) (w : World) :
  File.name file <> MARKER ->
  FILE_SIZE_LIMIT = 10485760
  /\ (isValidFile (File.name file) (File.size file) = true
      <-> File.size file <= FILE_SIZE_LIMIT)
  /\ (fst (uploadFile file folder w) = Err (FileTooLarge (File.size file))
      <-> FILE_SIZE_LIMIT < File.size file)
  /\ (File.size file <= FILE_SIZE_LIMIT ->
      calls (snd (uploadFile file folder w)) = calls w ++ [putCall file folder])
  /\ isValidFile (File.name file) FILE_SIZE_LIMIT = true
  /\ isValidFile (File.name file) 0 = true.
Proof.
  intros Hname. pose proof (name_is_marker _ Hname) as Hm.
  split; [reflexivity |]. split; [| split; [| split; [| split]]].
  - unfold isValidFile. rewrite Hm.
    destruct (0 <? File.size file) eqn:H0, (FILE_SIZE_LIMIT <? File.size file) eqn:H1;
      simpl; split; intros H; try reflexivity; try discriminate.
    + apply Z.ltb_lt in H1. lia.
    + apply Z.ltb_ge in H1. lia.
    + apply Z.ltb_ge in H0. unfold FILE_SIZE_LIMIT. lia.
    + apply Z.ltb_ge in H1. lia.
  - destruct (FILE_SIZE_LIMIT <? File.size file) eqn:H1.
    + unfold uploadFile. rewrite Hm, H1. simpl.
      apply Z.ltb_lt in H1. split; [intros _; exact H1 | reflexivity].
    + apply Z.ltb_ge in H1. rewrite uploadFile_gated.
      2:{ unfold passesGate. apply orb_true_iff. right. now apply Z.leb_le. }
      split; [| lia]. simpl. destruct (rejected _ w); discriminate.
  - intros Hle. rewrite uploadFile_gated.
    2:{ unfold passesGate. apply orb_true_iff. right. now apply Z.leb_le. }
    simpl. destruct (rejected _ w); reflexivity.
  - unfold isValidFile. now rewrite Hm.
  - unfold isValidFile. now rewrite Hm.
Qed.

Lemma size_ceiling_is_inclusive_witness :
  let file := File.mk "photo.png" 10485760 "image/png" in
  let w := mkWorld [] [] (fun _ _ => false) 1000 "2024-01-01" in
  isValidFile "photo.png" 10485760 = true
  /\ calls (snd (uploadFile file "/a" w)) = [PutObject "a/photo.png" "image/png" 10485760].
Proof.
  intros file w.
  destruct (size_ceiling_is_inclusive file "/a" w) as (_ & H1 & _ & H3 & _).
  - discriminate.
  - split.
    + apply H1. vm_compute. discriminate.
    + apply H3. vm_compute. discriminate.
Defined.



(** ** Deleting a folder *)

Section DeleteFolder.

Lemma filter_filter_and {A} (f g : A -> bool) (l : list A) :
  List.filter f (List.filter g l) = List.filter (fun x => g x && f x) l.
Proof.
  induction l as [|x l IH]; simpl; [reflexivity |].
  destruct (g x); simpl; [destruct (f x) |]; now rewrite IH.
Qed.

Lemma keyMissing_describe o : keyMissing (describe o) = negb (Js.truthy (okey o)).
Proof. reflexivity. Qed.

Lemma sendDelete_accepted key w :
  rejected (DeleteObject key) w = false ->
  sendDelete key w =
  (Ok tt, withObjects (logged (DeleteObject key) w)
            (List.filter (fun o => negb (String.eqb (okey o) key)) (objects w))).
Proof. intros H. unfold sendDelete. now rewrite H. Qed.

(** Whatever fails, [deleteEach] sends deletes only for keys it was given,
    and leaves every object with another key where it was. *)
Lemma deleteEach_frame (P : string -> bool) (items : list S3Object) :
  (forall item, In item items -> keyMissing item = false -> P (keyOr item) = true) ->
  forall w,
    List.filter (fun o => negb (P (okey o))) (objects (snd (deleteEach items w)))
    = List.filter (fun o => negb (P (okey o))) (objects w)
    /\ exists ks, calls (snd (deleteEach items w)) = calls w ++ map DeleteObject ks
                  /\ Forall (fun k => P k = true) ks.
Proof.
  induction items as [|item items IH]; intros HP w; simpl.
  - split; [reflexivity |]. exists []. split; [now rewrite app_nil_r | constructor].
  - assert (HP' : forall i, In i items -> keyMissing i = false -> P (keyOr i) = true)
      by (intros i Hi; apply HP; now right).
    destruct (keyMissing item) eqn:Hmiss; [now apply IH |].
    assert (Hk : P (keyOr item) = true) by (apply HP; [now left | assumption]).
    unfold bind, deleteFile, sendDelete.
    destruct (rejected (DeleteObject (keyOr item)) w) eqn:Hrej; simpl.
    + split; [reflexivity |]. exists [keyOr item]. split; [reflexivity |].
      now constructor.
    + destruct (IH HP' (withObjects (logged (DeleteObject (keyOr item)) w)
                  (List.filter (fun o => negb (String.eqb (okey o) (keyOr item)))
                     (objects w)))) as [Hobj (ks & Hcalls & Hks)].
      split.
      * rewrite Hobj. simpl. rewrite filter_filter_and.
        apply List.filter_ext_in. intros o _.
        destruct (String.eqb_spec (okey o) (keyOr item)) as [-> | _]; simpl;
          [now rewrite Hk | reflexivity].
      * exists (keyOr item :: ks). split; [| now constructor].
        rewrite Hcalls. simpl. now rewrite <- app_assoc.
Qed.

Lemma filter_none_listed (l : list Stored) :
  List.filter (fun o => negb (bool_decide (okey o ∈ @nil string))) l = l.
Proof.
  induction l as [|x l IH]; [reflexivity |].
  cbn [List.filter]. rewrite bool_decide_eq_false_2 by apply not_elem_of_nil.
  cbn [negb]. now rewrite IH.
Qed.

(** With an adapter that rejects nothing, one delete per listed object. *)
Lemma deleteEach_all (os : list Stored) :
  Forall (fun o => okey o <> "") os ->
  forall w,
    (forall n c, fails w n c = false) ->
    fst (deleteEach (map describe os) w) = Ok tt
    /\ calls (snd (deleteEach (map describe os) w))
       = calls w ++ map (fun o => DeleteObject (okey o)) os
    /\ objects (snd (deleteEach (map describe os) w))
       = List.filter (fun o => negb (bool_decide (okey o ∈ map okey os))) (objects w).
Proof.
  induction os as [|o os IH]; intros Hne w Hok; cbn [map deleteEach].
  - split; [reflexivity |]. split; [cbn; now rewrite app_nil_r |].
    cbn [ret snd]. now rewrite filter_none_listed.
  - inversion Hne as [|? ? Hk Hne']; subst.
    rewrite keyMissing_describe. apply truthy_true in Hk. rewrite Hk. simpl.
    unfold bind, deleteFile. rewrite sendDelete_accepted by apply Hok.
    change (keyOr (describe o)) with (okey o).
    destruct (IH Hne' (withObjects (logged (DeleteObject (okey o)) w)
                (List.filter (fun x => negb (String.eqb (okey x) (okey o))) (objects w)))
                Hok) as (Hr & Hc & Hobj).
    destruct (deleteEach (map describe os) _) as [r w'] eqn:E. simpl in *. subst r.
    split; [reflexivity |]. split.
    + rewrite Hc. now rewrite <- app_assoc.
    + rewrite Hobj. rewrite filter_filter_and. apply List.filter_ext_in.
      intros x _. destruct (String.eqb_spec (okey x) (okey o)) as [E' | E']; simpl.
      * rewrite bool_decide_eq_true_2; [reflexivity |]. rewrite E'. apply elem_of_cons. now left.
      * apply f_equal. apply bool_decide_ext. rewrite elem_of_cons. tauto.
Qed.

Lemma page_under_prefix prefix w o :
  In o (page prefix w) -> hasPrefix prefix (okey o) = true /\ In o (objects w).
Proof.
  unfold page. intros H. apply list_elem_of_In in H.
  apply (subseteq_take (maxKeys w)) in H. apply list_elem_of_In in H.
  apply List.filter_In in H. tauto.
Qed.

Lemma endsWithSlash_snoc s : Js.endsWithSlash (s +:+ "/") = true.
Proof.
  induction s as [|c s IH]; [reflexivity |].
  simpl in *. destruct (s +:+ "/") eqn:E; [destruct s; discriminate | exact IH].
Qed.

Lemma deletePrefix_of_folder (folderKey : string) :
  Js.endsWithSlash ("/" +:+ folderKey) = false ->
  deletePrefix ("/" +:+ folderKey) = folderKey +:+ "/".
Proof. intros H. unfold deletePrefix. rewrite H. reflexivity. Qed.

(** What [deleteFolder] does in general: one listing, then [deleteEach]
    on the page it returned. *)
Lemma deleteFolder_unfold folderPath w :
  rejected (ListObjectsV2 (deletePrefix folderPath)) w = false ->
  deleteFolder folderPath w
  = deleteEach (map describe (page (deletePrefix folderPath) w))
      (logged (ListObjectsV2 (deletePrefix folderPath)) w).
Proof.
  intros Hrej. unfold deleteFolder, bind, sendList. rewrite Hrej.
  destruct (page (deletePrefix folderPath) w) as [|o os]; reflexivity.
Qed.

End DeleteFolder.

(** C1 (as the code has it). The root is protected by the page, not by the
    service: [handleDeleteFolder] on the folder of path [/] reports an error
    and returns before [deleteFolder] is called, so nothing is sent to the
    store and no object is deleted. *)
Theorem handleDeleteFolder_root_refused
    (confirmed : bool) (folderName : string) (pg : Page) (w : World) :
  handleDeleteFolder confirmed folderName "/" pg w = (toast CannotDeleteRoot pg, w)
  /\ calls (snd (handleDeleteFolder confirmed folderName "/" pg w)) = calls w
  /\ objects (snd (handleDeleteFolder confirmed folderName "/" pg w)) = objects w.
Proof. repeat split. Qed.

(** C1 (as stated) fails: [deleteFolder('/')] itself lists with the empty
    prefix and deletes what is listed. *)
Lemma deleteFolder_root_not_refused :
  let w := mkWorld [mkStored "x.png" 7 "2024-01-01"] [] (fun _ _ => false) 1000 "2024-01-02" in
  fst (deleteFolder "/" w) = Ok tt
  /\ calls (snd (deleteFolder "/" w)) = [ListObjectsV2 ""; DeleteObject "x.png"]
  /\ objects (snd (deleteFolder "/" w)) = [].
Proof. repeat split. Qed.

(** What [deleteFolder] does for a folder path other than the root, with an
    adapter that rejects nothing and a bucket without empty keys: it sends
    one listing for the prefix (the path with a
    trailing slash added if missing and the leading slash removed) and then
    one delete per object of the page returned, in order; the objects left
    are those whose key was not on the page.  An empty page means no
    delete.  When the page holds every key under the prefix, none of them
    remains. *)
Theorem deleteFolder_deletes_listed_page (folderPath : string) (w : World) :
  folderPath <> "/" ->
  (forall n c, fails w n c = false) ->
  Forall (fun o => okey o <> "") (objects w) ->
  let prefix := deletePrefix folderPath in
  let listed := page prefix w in
  let w' := snd (deleteFolder folderPath w) in
  fst (deleteFolder folderPath w) = Ok tt
  /\ calls w' = calls w ++ ListObjectsV2 prefix :: map (fun o => DeleteObject (okey o)) listed
  /\ objects w'
     = List.filter (fun o => negb (bool_decide (okey o ∈ map okey listed))) (objects w)
  /\ (listed = [] -> calls w' = calls w ++ [ListObjectsV2 prefix] /\ objects w' = objects w)
  /\ ((length (List.filter (fun o => hasPrefix prefix (okey o)) (objects w)) <= maxKeys w)%nat ->
      forall o, In o (objects w') -> hasPrefix prefix (okey o) = false)
  /\ (forall folderKey, folderPath = "/" +:+ folderKey ->
      Js.endsWithSlash folderPath = false -> prefix = folderKey +:+ "/").
Proof.
  intros _ Hok Hkeys prefix listed w'.
  assert (Hlisted : Forall (fun o => okey o <> "") listed).
  { apply Forall_forall. intros o Ho. apply list_elem_of_In, page_under_prefix in Ho as [_ Ho].
    rewrite Forall_forall in Hkeys. apply Hkeys. now apply list_elem_of_In. }
  destruct (deleteEach_all listed Hlisted (logged (ListObjectsV2 prefix) w) Hok)
    as (Hr & Hc & Hobj).
  subst w'. rewrite deleteFolder_unfold by apply Hok. fold prefix listed.
  split; [exact Hr |]. split; [| split; [| split; [| split]]].
  - rewrite Hc. simpl. now rewrite <- app_assoc.
  - exact Hobj.
  - intros E. rewrite Hc, Hobj, E. cbn [map]. split; [cbn; now rewrite <- app_assoc |].
    apply filter_none_listed.
  - intros Hfit o Ho. rewrite Hobj in Ho. simpl in Ho.
    apply List.filter_In in Ho as [Ho Hout].
    destruct (hasPrefix prefix (okey o)) eqn:Hp; [| reflexivity].
    exfalso. apply negb_true_iff, bool_decide_eq_false in Hout. apply Hout.
    apply list_elem_of_fmap. exists o. split; [reflexivity |].
    unfold listed, page. rewrite take_ge by exact Hfit.
    apply list_elem_of_In, List.filter_In. now split.
  - intros folderKey -> Hends. now apply deletePrefix_of_folder.
Qed.

Lemma deleteFolder_deletes_listed_page_witness :
  let w := mkWorld [mkStored "a/b/x.png" 9 "2024-01-01"; mkStored "a/.keep" 0 "2024-01-01";
                    mkStored "a/b/.keep" 0 "2024-01-01"]
                   [] (fun _ _ => false) 1000 "2024-01-02" in
  fst (deleteFolder "/a" w) = Ok tt
  /\ calls (snd (deleteFolder "/a" w))
     = [ListObjectsV2 "a/"; DeleteObject "a/b/x.png"; DeleteObject "a/.keep";
        DeleteObject "a/b/.keep"]
  /\ forall o, In o (objects (snd (deleteFolder "/a" w))) -> hasPrefix "a/" (okey o) = false.
Proof.
  intros w.
  destruct (deleteFolder_deletes_listed_page "/a" w) as (H1 & H2 & _ & _ & H5 & _).
  - discriminate.
  - reflexivity.
  - repeat constructor; discriminate.
  - split; [exact H1 |]. split; [exact H2 |]. apply H5. vm_compute. lia.
Defined.

(** Nothing asks for the next page of a truncated listing.  With pages of
    two keys, the three keys under [a/] get two deletes and one key stays. *)
Lemma deleteFolder_does_not_paginate :
  let w := mkWorld [mkStored "a/b/x.png" 9 "2024-01-01"; mkStored "a/.keep" 0 "2024-01-01";
                    mkStored "a/b/.keep" 0 "2024-01-01"]
                   [] (fun _ _ => false) 2 "2024-01-02" in
  fst (deleteFolder "/a" w) = Ok tt
  /\ calls (snd (deleteFolder "/a" w))
     = [ListObjectsV2 "a/"; DeleteObject "a/b/x.png"; DeleteObject "a/.keep"]
  /\ objects (snd (deleteFolder "/a" w)) = [mkStored "a/b/.keep" 0 "2024-01-01"].
Proof. repeat split. Qed.

(** C5. [deleteFolder] does not delete a whole folder when the store
    truncates the listing.  On a bucket with 1001 objects under [a/] and
    listings of at most 1000 keys, [deleteFolder('/a')] sends one listing and
    1000 deletes, reports success, and the last object is still there. *)
Theorem deleteFolder_leaves_second_page :
  fst (deleteFolder "/a" largeFolder) = Ok tt
  /\ length (objects largeFolder) = 1001%nat
  /\ List.filter (fun c => negb (isDelete c)) (calls (snd (deleteFolder "/a" largeFolder)))
     = [ListObjectsV2 "a/"]
  /\ length (List.filter isDelete (calls (snd (deleteFolder "/a" largeFolder)))) = 1000%nat
  /\ objects (snd (deleteFolder "/a" largeFolder)) = [mkStored "a/1000.png" 1 "2024-01-01"].
Proof. vm_compute. repeat split. Qed.

(** C9. [deleteFolder] touches nothing outside its prefix, whatever the
    adapter rejects: the objects whose key does not start with the prefix
    are the same before and after, and every delete it sends is for a key
    that starts with the prefix.  For a folder [/k] the prefix is [k/], so
    the keys under [ab/] are out of reach of a delete of [/a]. *)
Theorem deleteFolder_frame (folderPath : string) (w : World) :
  folderPath <> "/" ->
  let prefix := deletePrefix folderPath in
  let w' := snd (deleteFolder folderPath w) in
  List.filter (fun o => negb (hasPrefix prefix (okey o))) (objects w')
  = List.filter (fun o => negb (hasPrefix prefix (okey o))) (objects w)
  /\ (forall o, In o (objects w) -> hasPrefix prefix (okey o) = false -> In o (objects w'))
  /\ (exists ks, calls w' = calls w ++ ListObjectsV2 prefix :: map DeleteObject ks
                 /\ Forall (fun k => hasPrefix prefix k = true) ks)
  /\ (forall folderKey, folderPath = "/" +:+ folderKey ->
      Js.endsWithSlash folderPath = false -> prefix = folderKey +:+ "/")
  /\ hasPrefix (deletePrefix "/a") "ab/x.png" = false.
Proof.
  intros _ prefix w'.
  assert (Hmain :
    List.filter (fun o => negb (hasPrefix prefix (okey o))) (objects w')
    = List.filter (fun o => negb (hasPrefix prefix (okey o))) (objects w)
    /\ exists ks, calls w' = calls w ++ ListObjectsV2 prefix :: map DeleteObject ks
                  /\ Forall (fun k => hasPrefix prefix k = true) ks).
  { subst w'. destruct (rejected (ListObjectsV2 prefix) w) eqn:Hrej.
    - unfold deleteFolder, bind, sendList. fold prefix. rewrite Hrej. simpl.
      split; [reflexivity |]. exists []. split; [reflexivity | constructor].
    - rewrite deleteFolder_unfold by exact Hrej. fold prefix.
      destruct (deleteEach_frame (hasPrefix prefix) (map describe (page prefix w)))
        with (w := logged (ListObjectsV2 prefix) w) as [Hobj (ks & Hc & Hks)].
      + intros item Hin _. apply in_map_iff in Hin as (o & <- & Ho).
        now apply page_under_prefix in Ho.
      + split; [exact Hobj |]. exists ks. split; [| exact Hks].
        rewrite Hc. simpl. now rewrite <- app_assoc. }
  destruct Hmain as [Hobj Hcalls].
  split; [exact Hobj |]. split; [| split; [exact Hcalls | split]].
  - intros o Ho Hp.
    assert (In o (List.filter (fun o => negb (hasPrefix prefix (okey o))) (objects w'))) as H.
    { rewrite Hobj. apply List.filter_In. split; [exact Ho | now rewrite Hp]. }
    now apply List.filter_In in H.
  - intros folderKey -> Hends. now apply deletePrefix_of_folder.
  - reflexivity.
Qed.

Lemma deleteFolder_frame_witness :
  let w := mkWorld [mkStored "a/x.png" 9 "2024-01-01"; mkStored "ab/y.png" 5 "2024-01-01"]
                   [] (fun _ _ => false) 1000 "2024-01-02" in
  In (mkStored "ab/y.png" 5 "2024-01-01") (objects (snd (deleteFolder "/a" w))).
Proof.
  intros w.
  destruct (deleteFolder_frame "/a" w) as (_ & H & _).
  - discriminate.
  - apply H; [right; left; reflexivity | reflexivity].
Defined.

(** ** Uploads in sequence *)

Section Attempts.

Lemma tryUpload_gated file path results w :
  passesGate file = true ->
  tryUpload file path results w
  = (Ok (results ++ fulfilled (outcomes (fails w) (length (calls w)) (today w) [(file, path)])),
     snd (uploadFile file path w)).
Proof.
  intros Hg. unfold tryUpload, try_catch, bind, ret.
  rewrite uploadFile_gated by exact Hg. cbn [outcomes fulfilled]. unfold rejected.
  destruct (fails w (length (calls w)) (putCall file path)); cbn.
  - now rewrite app_nil_r.
  - reflexivity.
Qed.

Lemma uploadFile_gated_world file path w :
  passesGate file = true ->
  calls (snd (uploadFile file path w)) = calls w ++ [putCall file path]
  /\ fails (snd (uploadFile file path w)) = fails w
  /\ today (snd (uploadFile file path w)) = today w
  /\ maxKeys (snd (uploadFile file path w)) = maxKeys w.
Proof.
  intros Hg. rewrite uploadFile_gated by exact Hg. cbn [snd].
  destruct (rejected _ w); repeat split.
Qed.

Lemma outcomes_app rejects n date us vs :
  outcomes rejects n date (us ++ vs)
  = outcomes rejects n date us ++ outcomes rejects (n + length us) date vs.
Proof.
  revert n. induction us as [|[f p] us IH]; intros n; cbn [outcomes app length].
  - now rewrite Nat.add_0_r.
  - rewrite IH. now rewrite Nat.add_succ_r.
Qed.

Lemma fulfilled_app {A} (xs ys : list (Result A)) :
  fulfilled (xs ++ ys) = fulfilled xs ++ fulfilled ys.
Proof. unfold fulfilled. apply omap_app. Qed.

(** Every unit is attempted, and the results are those of the units whose
    put was accepted. *)
Lemma attemptAll_spec (units : list (File.t * string)) :
  Forall (fun u => passesGate (fst u) = true) units ->
  forall results w,
    fst (attemptAll units results w)
    = Ok (results ++ fulfilled (outcomes (fails w) (length (calls w)) (today w) units))
    /\ calls (snd (attemptAll units results w)) = calls w ++ map putCallOf units
    /\ fails (snd (attemptAll units results w)) = fails w
    /\ today (snd (attemptAll units results w)) = today w.
Proof.
  induction 1 as [|[file path] units Hg _ IH]; intros results w.
  - cbn. now rewrite !app_nil_r.
  - cbn [attemptAll]. unfold bind. cbn [fst] in Hg.
    rewrite tryUpload_gated by exact Hg.
    destruct (uploadFile_gated_world file path w Hg) as (Hc & Hf & Ht & _).
    specialize (IH (results ++ fulfilled (outcomes (fails w) (length (calls w)) (today w)
                                            [(file, path)]))
                   (snd (uploadFile file path w))).
    destruct IH as (Hr & Hc' & Hf' & Ht').
    rewrite Hr, Hc', Hf', Ht', Hc, Hf, Ht. repeat split.
    + rewrite length_app. cbn [length]. rewrite <- app_assoc, <- fulfilled_app.
      change ((file, path) :: units) with ([(file, path)] ++ units).
      rewrite outcomes_app. reflexivity.
    + now rewrite <- app_assoc.
Qed.

Lemma attemptAll_app us vs results w :
  attemptAll (us ++ vs) results w
  = (results' <- attemptAll us results ;; attemptAll vs results') w.
Proof.
  revert results w. induction us as [|[f p] us IH]; intros results w.
  - reflexivity.
  - cbn [app attemptAll]. unfold bind.
    destruct (tryUpload f p results w) as [[r | e] w1]; [| reflexivity].
    rewrite IH. reflexivity.
Qed.

Lemma uploadFileEntries_plan entries currentPath results w :
  uploadFileEntries entries currentPath results w
  = attemptAll (map unitPair (planFiles entries currentPath)) results w.
Proof.
  revert results w. induction entries as [|[file | n es] rest IH]; intros results w.
  - reflexivity.
  - cbn [uploadFileEntries planFiles].
    destruct ((File.size file <=? FILE_SIZE_LIMIT) || String.eqb (File.name file) MARKER).
    + cbn [map unitPair attemptAll unitFile unitPath]. unfold bind.
      destruct (tryUpload file currentPath results w) as [[r | e] w1]; [apply IH | reflexivity].
    + apply IH.
  - cbn [uploadFileEntries planFiles]. apply IH.
Qed.

Lemma ensureIntermediate_plan pathParts buildPath results w :
  ensureIntermediate pathParts buildPath results w
  = attemptAll (map unitPair (planMarkers pathParts buildPath)) results w.
Proof.
  revert buildPath results w.
  induction pathParts as [|part rest IH]; intros buildPath results w.
  - reflexivity.
  - cbn [ensureIntermediate planMarkers map unitPair attemptAll unitFile unitPath].
    unfold bind. destruct (tryUpload markerFile _ results w) as [[r | e] w1];
      [apply IH | reflexivity].
Qed.

Lemma Entry_forall_ind (P : Entry -> Prop) :
  (forall file, P (FileEntry file)) ->
  (forall name entries, Forall P entries -> P (DirectoryEntry name entries)) ->
  forall e, P e.
Proof.
  intros Hf Hd. fix IH 1. intros [file | name entries].
  - apply Hf.
  - apply Hd. induction entries as [|x r IHr]; constructor; [apply IH | exact IHr].
Qed.

Lemma processDirectoryEntries_plan (e : Entry) :
  forall currentPath results w,
    processDirectoryEntries e currentPath results w
    = attemptAll (map unitPair (planDirectory e currentPath)) results w.
Proof.
  induction e as [file | name entries IH] using Entry_forall_ind;
    intros currentPath results w.
  - reflexivity.
  - cbn [processDirectoryEntries planDirectory].
    rewrite map_app, attemptAll_app. unfold bind.
    rewrite uploadFileEntries_plan.
    destruct (attemptAll (map unitPair (planFiles entries currentPath)) results w)
      as [[results1 | err] w1]; [| reflexivity].
    clear results w. revert results1 w1.
    induction IH as [|x rest Hx _ IHrest]; intros results w.
    + reflexivity.
    + destruct x as [file | subName subEntries].
      * apply IHrest.
      * rewrite !map_app, !attemptAll_app. unfold bind.
        rewrite ensureIntermediate_plan.
        destruct (attemptAll (map unitPair (planMarkers _ "")) results w)
          as [[results2 | err] w2]; [| reflexivity].
        rewrite attemptAll_app. unfold bind. rewrite Hx.
        destruct (attemptAll (map unitPair (planDirectory _ _)) results2 w2)
          as [[results3 | err] w3]; [| reflexivity].
        apply IHrest.
Qed.

Lemma uploadFolder_plan e base w :
  uploadFolder e base w = attemptAll (map unitPair (uploadPlan e base)) [] w.
Proof.
  unfold uploadFolder, uploadPlan.
  cbn [map unitPair attemptAll unitFile unitPath]. unfold bind.
  destruct (tryUpload markerFile _ [] w) as [[r | err] w1]; [| reflexivity].
  apply processDirectoryEntries_plan.
Qed.

Lemma planFiles_gated entries currentPath :
  Forall (fun u => passesGate (fst (unitPair u)) = true) (planFiles entries currentPath).
Proof.
  induction entries as [|[file | n es] rest IH]; cbn [planFiles]; [constructor | | exact IH].
  destruct ((File.size file <=? FILE_SIZE_LIMIT) || String.eqb (File.name file) MARKER) eqn:E;
    [| exact IH].
  constructor; [| exact IH]. cbn. unfold passesGate. now rewrite orb_comm.
Qed.

Lemma planMarkers_gated pathParts buildPath :
  Forall (fun u => passesGate (fst (unitPair u)) = true) (planMarkers pathParts buildPath).
Proof.
  revert buildPath. induction pathParts as [|part rest IH]; intros buildPath;
    cbn [planMarkers]; constructor; [reflexivity | apply IH].
Qed.

Lemma planDirectory_gated (e : Entry) :
  forall currentPath,
    Forall (fun u => passesGate (fst (unitPair u)) = true) (planDirectory e currentPath).
Proof.
  induction e as [file | name entries IH] using Entry_forall_ind; intros currentPath.
  - constructor.
  - cbn [planDirectory]. apply Forall_app. split; [apply planFiles_gated |].
    induction IH as [|x rest Hx _ IHrest]; [constructor |].
    destruct x as [file | subName subEntries]; [exact IHrest |].
    apply Forall_app. split; [apply planMarkers_gated |].
    apply Forall_app. split; [apply Hx | exact IHrest].
Qed.

Lemma uploadPlan_gated e base :
  Forall (fun u => passesGate (fst u) = true) (map unitPair (uploadPlan e base)).
Proof.
  apply Forall_map. unfold uploadPlan. constructor; [reflexivity |].
  apply planDirectory_gated.
Qed.


End Attempts.

(** ** Batches *)






(** ** Splitting and joining paths *)

Section Segments.

Lemma split_plain s : Js.includesSlash s = false -> Js.split s = [s].
Proof.
  induction s as [|c s IH]; cbn [Js.includesSlash Js.split]; [reflexivity |].
  intros H. apply orb_false_iff in H as [Hc Hs]. rewrite Hc, (IH Hs). reflexivity.
Qed.

Lemma split_app_slash s t :
  Js.includesSlash s = false -> Js.split (s +:+ "/" +:+ t) = s :: Js.split t.
Proof.
  induction s as [|c s IH]; intros H.
  - reflexivity.
  - cbn [Js.includesSlash] in H. apply orb_false_iff in H as [Hc Hs].
    specialize (IH Hs). cbn [String.append Js.split] in IH |- *.
    rewrite Hc, IH. reflexivity.
Qed.

Lemma split_join segs :
  segs <> [] -> Forall segment segs -> Js.split (Js.join segs) = segs.
Proof.
  induction segs as [|a [|b rest] IH]; intros Hne Hall; [congruence | |].
  - inversion Hall as [|? ? [_ Ha] _]; subst. now apply split_plain.
  - inversion Hall as [|? ? [_ Ha] Hrest]; subst.
    change (Js.join (a :: b :: rest)) with (a +:+ "/" +:+ Js.join (b :: rest)).
    rewrite split_app_slash by exact Ha. f_equal. apply IH; [discriminate | exact Hrest].
Qed.

Lemma filterBoolean_segments segs : Forall segment segs -> Js.filterBoolean segs = segs.
Proof.
  induction 1 as [|a rest [Ha _] _ IH]; [reflexivity |].
  unfold Js.filterBoolean in *. cbn [List.filter]. rewrite Ha. now f_equal.
Qed.

Lemma parts_of_renderPath segs :
  Forall segment segs -> Js.filterBoolean (Js.split (renderPath segs)) = segs.
Proof.
  intros Hall. unfold renderPath. destruct segs as [|a rest]; [reflexivity |].
  change ("/" +:+ Js.join (a :: rest)) with (String Js.slash (Js.join (a :: rest))).
  cbn [Js.split]. rewrite Ascii.eqb_refl.
  rewrite split_join by (discriminate || exact Hall).
  unfold Js.filterBoolean. cbn [List.filter Js.truthy].
  now apply (filterBoolean_segments (a :: rest)).
Qed.

Lemma join_snoc segs n :
  segs <> [] -> Js.join (segs ++ [n]) = Js.join segs +:+ "/" +:+ n.
Proof.
  induction segs as [|a [|b rest] IH]; intros Hne; [congruence | reflexivity |].
  change (Js.join ((a :: b :: rest) ++ [n]))
    with (a +:+ "/" +:+ Js.join ((b :: rest) ++ [n])).
  rewrite IH by discriminate.
  change (Js.join (a :: b :: rest)) with (a +:+ "/" +:+ Js.join (b :: rest)).
  now rewrite !append_assoc.
Qed.

Lemma renderPath_snoc segs n :
  segs <> [] -> renderPath (segs ++ [n]) = renderPath segs +:+ "/" +:+ n.
Proof.
  intros Hne. unfold renderPath. rewrite join_snoc by exact Hne.
  now rewrite append_assoc.
Qed.

Lemma renderPath_truthy segs : Js.truthy (renderPath segs) = true.
Proof. reflexivity. Qed.

Lemma join_segments_truthy segs :
  segs <> [] -> Forall segment segs -> Js.truthy (Js.join segs) = true.
Proof.
  intros Hne Hall. destruct segs as [|a rest]; [congruence |].
  inversion Hall as [|? ? [Ha _] _]; subst.
  destruct a; [discriminate |]. destruct rest; reflexivity.
Qed.

Lemma mainFolderPathOf_render bsegs n :
  Forall segment bsegs ->
  mainFolderPathOf (renderPath bsegs) n = renderPath (bsegs ++ [n]).
Proof.
  intros Hall. unfold mainFolderPathOf. destruct bsegs as [|a rest]; [reflexivity |].
  assert (String.eqb (renderPath (a :: rest)) "/" = false) as ->.
  { apply String.eqb_neq. unfold renderPath.
    pose proof (join_segments_truthy (a :: rest) ltac:(discriminate) Hall) as H.
    destruct (Js.join (a :: rest)); [discriminate | cbn; congruence]. }
  symmetry. apply renderPath_snoc. discriminate.
Qed.

End Segments.

(** ** Markers before files *)

Section MarkersFirst.

Lemma eachPreceded_app Q l1 l2 :
  eachPreceded Q l1 ->
  eachPreceded (fun pre u => Q (l1 ++ pre) u) l2 ->
  eachPreceded Q (l1 ++ l2).
Proof.
  unfold eachPreceded. intros H1 H2 pre u post E.
  apply app_eq_app in E as [l [[E1 E2] | [E1 E2]]].
  - destruct l as [|x l].
    + rewrite app_nil_r in E1. cbn in E2. subst pre.
      specialize (H2 [] u post (eq_sym E2)). cbn beta in H2. now rewrite app_nil_r in H2.
    + cbn in E2. injection E2 as Eu El. subst x. apply (H1 pre u l). exact E1.
  - subst pre. apply (H2 l u post). exact E2.
Qed.

Lemma eachPreceded_all Q l :
  Forall (fun u => forall pre, Q pre u) l -> eachPreceded Q l.
Proof.
  unfold eachPreceded. intros H pre u post E. rewrite Forall_forall in H. apply H.
  rewrite E. apply list_elem_of_In, in_elt.
Qed.

Lemma eachPreceded_mono (Q Q' : list Unit -> Unit -> Prop) l :
  (forall pre u, Q pre u -> Q' pre u) -> eachPreceded Q l -> eachPreceded Q' l.
Proof. unfold eachPreceded. intros HQ H pre u post E. apply HQ. eapply H. exact E. Qed.

Lemma levelsMarked_mono segs pre pre' u :
  (forall x, In x pre -> In x pre') -> levelsMarked segs pre u -> levelsMarked segs pre' u.
Proof.
  intros Hsub. destruct u as [p | f D]; [trivial |].
  intros (ns & HD & Hm). exists ns. split; [exact HD |]. intros ns' Hp Hne.
  apply Hsub. now apply Hm.
Qed.

Lemma planFiles_levels segs entries :
  Forall (fun u => forall pre, levelsMarked segs pre u) (planFiles entries (renderPath segs)).
Proof.
  induction entries as [|[file | n es] rest IH]; cbn [planFiles]; [constructor | | exact IH].
  destruct (_ || _); [| exact IH]. constructor; [| exact IH].
  intros pre. exists []. split; [now rewrite app_nil_r |].
  intros ns' Hp Hne. apply prefix_nil_inv in Hp. congruence.
Qed.

Lemma planMarkers_levels segs pathParts buildPath :
  Forall (fun u => forall pre, levelsMarked segs pre u) (planMarkers pathParts buildPath).
Proof.
  revert buildPath. induction pathParts as [|part rest IH]; intros buildPath;
    cbn [planMarkers]; constructor; [intros pre; exact I | apply IH].
Qed.

(** The marker loop reaches the full path. *)
Lemma planMarkers_last done rest buildPath :
  (done = [] /\ buildPath = "" \/ done <> [] /\ buildPath = renderPath done) ->
  rest <> [] ->
  In (MarkerAt (renderPath (done ++ rest))) (planMarkers rest buildPath).
Proof.
  revert done buildPath. induction rest as [|part rest IH]; intros done buildPath Hb Hne;
    [congruence |].
  cbn [planMarkers].
  assert (Hstep : (if Js.truthy buildPath then buildPath +:+ "/" +:+ part else "/" +:+ part)
                  = renderPath (done ++ [part])).
  { destruct Hb as [[-> ->] | [Hd ->]]; [reflexivity |].
    rewrite renderPath_truthy. symmetry. now apply renderPath_snoc. }
  rewrite Hstep. destruct rest as [|part' rest'].
  - left. reflexivity.
  - right. replace (done ++ part :: part' :: rest') with ((done ++ [part]) ++ part' :: rest')
      by now rewrite <- app_assoc.
    apply IH; [| discriminate]. right. split; [| reflexivity].
    destruct done; discriminate.
Qed.

Lemma planDirectory_levels (e : Entry) :
  forall segs,
    segs <> [] -> Forall segment segs -> wellNamed e ->
    eachPreceded (levelsMarked segs) (planDirectory e (renderPath segs)).
Proof.
  induction e as [file | name entries IH] using Entry_forall_ind; intros segs Hne Hsegs Hwell.
  - intros pre u post E. destruct pre; discriminate.
  - cbn [planDirectory]. apply eachPreceded_app.
    { apply eachPreceded_all, planFiles_levels. }
    generalize (planFiles entries (renderPath segs)). cbn [wellNamed] in Hwell.
    induction IH as [|x rest Hx _ IHrest]; intros front.
    + intros pre u post E. destruct pre; discriminate.
    + destruct Hwell as (Hname & Hwx & Hwrest).
      destruct x as [file | n es]; [now apply IHrest |].
      assert (Hsub : renderPath segs +:+ "/" +:+ n = renderPath (segs ++ [n]))
        by (symmetry; now apply renderPath_snoc).
      assert (Hsegs' : Forall segment (segs ++ [n])).
      { apply Forall_app. split; [exact Hsegs | now constructor]. }
      rewrite Hsub, parts_of_renderPath by exact Hsegs'.
      apply eachPreceded_app.
      { apply eachPreceded_all. eapply Forall_impl; [apply (planMarkers_levels segs) |].
        intros u H pre. apply H. }
      cbn beta. apply eachPreceded_app; cbn beta.
      * eapply eachPreceded_mono; [| apply (Hx (segs ++ [n]));
          [destruct segs; discriminate | exact Hsegs' | exact Hwx]].
        intros pre [p | f D]; [trivial |]. intros (ns & HD & Hm).
        exists (n :: ns). split; [now rewrite HD, <- app_assoc |].
        intros ns' Hp Hne'. destruct ns' as [|n' ns0]; [congruence |].
        apply prefix_cons_inv_1 in Hp as Hn. apply prefix_cons_inv_2 in Hp as Hp0. subst n'.
        apply in_or_app. right. apply in_or_app.
        destruct ns0 as [|m ns1].
        -- left. pose proof (planMarkers_last [] (segs ++ [n]) "") as Hlast.
           cbn [app] in Hlast. apply Hlast; [now left | destruct segs; discriminate].
        -- right. replace (segs ++ n :: m :: ns1) with ((segs ++ [n]) ++ m :: ns1)
             by now rewrite <- app_assoc.
           apply Hm; [exact Hp0 | discriminate].
      * eapply eachPreceded_mono; [| apply (IHrest Hwrest
            (front ++ planMarkers (segs ++ [n]) ""
             ++ planDirectory (DirectoryEntry n es) (renderPath (segs ++ [n]))))].
        intros pre u HQ. eapply levelsMarked_mono; [| exact HQ].
        intros y Hy. rewrite <- !app_assoc in Hy. exact Hy.
Qed.

End MarkersFirst.

Section TargetLevels.

(** The marker loop puts a marker at every level of the path it is given. *)
Lemma planMarkers_prefixes done rest buildPath :
  (done = [] /\ buildPath = "" \/ done <> [] /\ buildPath = renderPath done) ->
  forall pre, pre <> [] -> pre `prefix_of` rest ->
    In (MarkerAt (renderPath (done ++ pre))) (planMarkers rest buildPath).
Proof.
  revert done buildPath. induction rest as [|part rest IH]; intros done buildPath Hb pre Hne Hp.
  - apply prefix_nil_inv in Hp. congruence.
  - cbn [planMarkers].
    assert (Hstep : (if Js.truthy buildPath then buildPath +:+ "/" +:+ part else "/" +:+ part)
                    = renderPath (done ++ [part])).
    { destruct Hb as [[-> ->] | [Hd ->]]; [reflexivity |].
      rewrite renderPath_truthy. symmetry. now apply renderPath_snoc. }
    rewrite Hstep. destruct pre as [|a pre0]; [congruence |].
    apply prefix_cons_inv_1 in Hp as Ha. apply prefix_cons_inv_2 in Hp as Hp0. subst a.
    destruct pre0 as [|b pre1].
    + left. reflexivity.
    + right. replace (done ++ part :: b :: pre1) with ((done ++ [part]) ++ b :: pre1)
        by now rewrite <- app_assoc.
      apply IH; [| discriminate | exact Hp0]. right. split; [| reflexivity].
      destruct done; discriminate.
Qed.

Lemma planFiles_no_marker entries currentPath :
  List.filter isMarkerUnit (planFiles entries currentPath) = [].
Proof.
  induction entries as [|[file | n es] rest IH]; cbn [planFiles]; [reflexivity | | exact IH].
  destruct (_ || _); [cbn [List.filter isMarkerUnit] |]; exact IH.
Qed.

(** A directory with a sub-directory: the marker loop of the first of them
    covers every level of the path of the directory. *)
Lemma planDirectory_target_markers (e : Entry) (segs : list string) :
  segs <> [] -> Forall segment segs -> wellNamed e -> hasSubdirectory e = true ->
  forall pre, pre <> [] -> pre `prefix_of` segs ->
    In (MarkerAt (renderPath pre)) (planDirectory e (renderPath segs)).
Proof.
  intros Hne Hsegs Hwell Hsub pre Hpre Hp. destruct e as [file | name entries]; [discriminate |].
  cbn [planDirectory]. apply in_or_app. right.
  cbn [hasSubdirectory] in Hsub. cbn [wellNamed] in Hwell.
  induction entries as [|x rest IH]; [discriminate |].
  destruct Hwell as (Hname & _ & Hwrest).
  destruct x as [file | n es].
  - cbn [existsb isDirectory orb] in Hsub. now apply IH.
  - apply in_or_app. left.
    assert (Hrender : renderPath segs +:+ "/" +:+ n = renderPath (segs ++ [n]))
      by (symmetry; now apply renderPath_snoc).
    assert (Hsegs' : Forall segment (segs ++ [n])).
    { apply Forall_app. split; [exact Hsegs | now constructor]. }
    rewrite Hrender, parts_of_renderPath by exact Hsegs'.
    apply (planMarkers_prefixes [] (segs ++ [n]) ""); [now left | exact Hpre |].
    now apply prefix_app_r.
Qed.

(** A directory without sub-directories: no marker loop runs. *)
Lemma planDirectory_flat (e : Entry) (currentPath : string) :
  hasSubdirectory e = false ->
  List.filter isMarkerUnit (planDirectory e currentPath) = [].
Proof.
  destruct e as [file | name entries]; [reflexivity |]. cbn [hasSubdirectory planDirectory].
  intros Hsub. rewrite List.filter_app, planFiles_no_marker. cbn [app].
  induction entries as [|x rest IH]; [reflexivity |].
  destruct x as [file | n es]; [now apply IH | discriminate].
Qed.

End TargetLevels.

(** C7 (as the code has it). In a folder upload by [uploadFolder] into a
    logical path, with directories named by segments, the puts sent are
    those of the plan, in order, and every file put is preceded by the
    marker put of every level from the uploaded folder down to the
    directory of the file.  Uploaded
    into the root of an empty bucket, a directory with one file at the top
    and one file one level down leaves exactly two markers (top folder and
    nested folder) and the two files, the nested marker being put before
    the nested file.  When the uploaded directory has a sub-directory, a
    marker is put at every level of the path from the root down to the
    uploaded folder, the levels of the target folder included; when it has
    none, the marker of the uploaded folder is the only marker put. *)
Theorem uploadFolder_markers_first (folderEntry : Entry) (bsegs : list string) (w : World) :
  Forall segment bsegs ->
  segment (entryName folderEntry) ->
  wellNamed folderEntry ->
  let base := renderPath bsegs in
  let plan := uploadPlan folderEntry base in
  let top := bsegs ++ [entryName folderEntry] in
  calls (snd (uploadFolder folderEntry base w))
  = calls w ++ map (fun u => putCallOf (unitPair u)) plan
  /\ (forall pre file D post,
       plan = pre ++ FileAt file D :: post ->
       exists ns, D = renderPath (top ++ ns)
                  /\ forall ns', ns' `prefix_of` ns ->
                                 In (MarkerAt (renderPath (top ++ ns'))) pre)
  /\ map okey (objects (snd (uploadFolder twoLevels "/" emptyBucket)))
     = ["top/.keep"; "top/f1.png"; "top/sub/.keep"; "top/sub/f2.png"]
  /\ calls (snd (uploadFolder twoLevels "/" emptyBucket))
     = [PutObject "top/.keep" "text/plain" 0; PutObject "top/f1.png" "image/png" 3;
        PutObject "top/.keep" "text/plain" 0; PutObject "top/sub/.keep" "text/plain" 0;
        PutObject "top/sub/f2.png" "image/png" 4]
  /\ (hasSubdirectory folderEntry = true ->
      forall pre, pre <> [] -> pre `prefix_of` top -> In (MarkerAt (renderPath pre)) plan)
  /\ (hasSubdirectory folderEntry = false ->
      List.filter isMarkerUnit plan = [MarkerAt (renderPath top)]).
Proof.
  intros Hb Hn Hwell base plan top.
  assert (Hplan : plan = MarkerAt (renderPath top) :: planDirectory folderEntry (renderPath top)).
  { unfold plan, uploadPlan, base. now rewrite mainFolderPathOf_render by exact Hb. }
  assert (Htop' : top <> []) by (unfold top; destruct bsegs; discriminate).
  assert (Hsegs' : Forall segment top).
  { apply Forall_app. split; [exact Hb | now constructor]. }
  split; [| split; [| split; [reflexivity | split; [reflexivity | split]]]];
    [| | intros Hsub pre Hpre Hp; rewrite Hplan; right;
         now apply planDirectory_target_markers
       | intros Hsub; rewrite Hplan; cbn [List.filter isMarkerUnit];
         now rewrite planDirectory_flat].
  - rewrite uploadFolder_plan. fold plan.
    destruct (attemptAll_spec (map unitPair plan) (uploadPlan_gated _ _) [] w) as (_ & Hc & _).
    rewrite Hc. now rewrite map_map.
  - intros pre file D post E. unfold plan, uploadPlan, base in E.
    rewrite mainFolderPathOf_render in E by exact Hb. fold top in E.
    destruct pre as [|m pre']; [discriminate |]. cbn [app] in E. injection E as <- E.
    assert (Htop : top <> []) by (unfold top; destruct bsegs; discriminate).
    assert (Hsegs : Forall segment top).
    { apply Forall_app. split; [exact Hb | now constructor]. }
    pose proof (planDirectory_levels folderEntry top Htop Hsegs Hwell pre' _ post E) as H.
    cbn [levelsMarked] in H. destruct H as (ns & HD & Hm).
    exists ns. split; [exact HD |]. intros ns' Hp.
    destruct ns' as [|a ns0].
    + left. now rewrite app_nil_r.
    + right. apply Hm; [exact Hp | discriminate].
Qed.

Lemma uploadFolder_markers_first_witness :
  exists ns, "/x/top/sub" = renderPath (["x"] ++ ["top"] ++ ns)
             /\ In (MarkerAt (renderPath (["x"] ++ ["top"] ++ ns)))
                   [MarkerAt "/x/top"; FileAt (File.mk "f1.png" 3 "image/png") "/x/top";
                    MarkerAt "/x"; MarkerAt "/x/top"; MarkerAt "/x/top/sub"]
             /\ In (MarkerAt "/x") (uploadPlan twoLevels "/x").
Proof.
  assert (Hseg : forall s, Js.truthy s = true -> Js.includesSlash s = false -> segment s)
    by (intros s H1 H2; split; assumption).
  destruct (uploadFolder_markers_first twoLevels ["x"] emptyBucket)
    as (_ & H & _ & _ & Ht & _).
  - repeat constructor.
  - now apply Hseg.
  - cbn. repeat split.
  - destruct (H [MarkerAt "/x/top"; FileAt (File.mk "f1.png" 3 "image/png") "/x/top";
                 MarkerAt "/x"; MarkerAt "/x/top"; MarkerAt "/x/top/sub"]
                (File.mk "f2.png" 4 "image/png") "/x/top/sub" [] eq_refl) as (ns & HD & Hm).
    exists ns. split; [exact HD |]. split; [apply Hm; reflexivity |].
    apply (Ht eq_refl ["x"]); [discriminate | now exists ["top"]].
Defined.

(** C7 (as stated) fails for a target other than the root: the marker loop
    runs over every segment of the sub-folder path, the segments of the
    target included, so the same directory uploaded into [/x] leaves three
    markers. *)
Lemma uploadFolder_marks_target_levels :
  map okey (List.filter isMarkerKey (objects (snd (uploadFolder twoLevels "/x" emptyBucket))))
  = ["x/top/.keep"; "x/.keep"; "x/top/sub/.keep"]
  /\ map okey (objects (snd (uploadFolder twoLevels "/x" emptyBucket)))
     = ["x/top/.keep"; "x/top/f1.png"; "x/.keep"; "x/top/sub/.keep"; "x/top/sub/f2.png"].
Proof. split; reflexivity. Qed.

(** ** The files of a folder *)

Section DirectFiles.

Lemma join_cons_char c h l : Js.join (String c h :: l) = String c (Js.join (h :: l)).
Proof. destruct l; reflexivity. Qed.

(** A key without a slash is one part; otherwise the parts but the last,
    joined, are the text before the last slash. *)
Lemma split_shape k :
  (Js.includesSlash k = false /\ Js.split k = [k])
  \/ (Js.includesSlash k = true
      /\ exists h t, Js.split k = h :: t /\ t <> []
                     /\ Js.join (Js.init (h :: t)) = Js.beforeLastSlash k).
Proof.
  induction k as [|c r IH].
  - left. split; reflexivity.
  - cbn [Js.includesSlash Js.split Js.beforeLastSlash].
    destruct (Ascii.eqb c Js.slash) eqn:Hc.
    + right. split; [reflexivity |]. apply eqb_slash_true in Hc. subst c.
      exists "", (Js.split r). split; [reflexivity |].
      destruct IH as [[Hs Hsp] | [Hs (h & t & Hsp & Ht & Hj)]]; rewrite Hs, Hsp.
      * split; [discriminate | reflexivity].
      * split; [discriminate |]. rewrite <- Hj.
        destruct t as [|b t']; [congruence |]. reflexivity.
    + cbn [orb]. destruct IH as [[Hs Hsp] | [Hs (h & t & Hsp & Ht & Hj)]]; rewrite Hs, Hsp.
      * left. split; reflexivity.
      * right. split; [reflexivity |]. exists (String c h), t.
        split; [reflexivity |]. split; [exact Ht |]. rewrite <- Hj.
        destruct t as [|b t']; [congruence |]. apply join_cons_char.
Qed.

Lemma join_init_split k : Js.join (Js.init (Js.split k)) = dirKey k.
Proof.
  unfold dirKey. destruct (split_shape k) as [[Hs Hsp] | [Hs (h & t & Hsp & _ & Hj)]];
    rewrite Hs, Hsp; [reflexivity | exact Hj].
Qed.

Lemma beforeLastSlash_split k :
  Js.includesSlash k = true ->
  exists n, k = Js.beforeLastSlash k +:+ "/" +:+ n /\ Js.includesSlash n = false.
Proof.
  induction k as [|c r IH]; cbn [Js.includesSlash Js.beforeLastSlash]; [discriminate |].
  intros H. destruct (Js.includesSlash r) eqn:Hr.
  - destruct (IH eq_refl) as (n & Hk & Hn). exists n. split; [| exact Hn].
    cbn [String.append] in Hk |- *. now rewrite <- Hk.
  - rewrite orb_false_r in H. apply eqb_slash_true in H. subst c.
    exists r. split; [reflexivity | exact Hr].
Qed.

Lemma append_inj_l (a x y : string) : a +:+ x = a +:+ y -> x = y.
Proof. induction a as [|c a IH]; cbn; intros H; [exact H | injection H as H; auto]. Qed.

Lemma inSelectedFolder_record date sel item :
  inSelectedFolder sel (fileRecord date item) = belongsTo sel item.
Proof.
  unfold inSelectedFolder, belongsTo. cbn [FileMetadata.isFolder FileMetadata.fileKey fileRecord].
  destruct (String.eqb sel "/"); [reflexivity |]. now rewrite join_init_split.
Qed.

Lemma filteredFiles_folders sel (fs : list FileMetadata.t) :
  Forall (fun f => FileMetadata.isFolder f = true) fs -> filteredFiles fs sel = [].
Proof.
  induction 1 as [|f fs Hf _ IH]; [reflexivity |].
  unfold filteredFiles in *. cbn [List.filter]. unfold inSelectedFolder at 1.
  now rewrite Hf.
Qed.

Lemma folderPlaceholders_folders date prefixes :
  Forall (fun f => FileMetadata.isFolder f = true) (omap (folderPlaceholder date) prefixes).
Proof.
  apply Forall_forall. intros f Hf. apply list_elem_of_omap in Hf as (p & _ & Hp).
  unfold folderPlaceholder in Hp. destruct (Js.endsWithSlash _); [| discriminate].
  injection Hp as <-. reflexivity.
Qed.

Lemma folderObjects_folders date paths :
  Forall (fun f => FileMetadata.isFolder f = true) (map (folderObject date) paths).
Proof. apply Forall_forall. intros f Hf. apply list_elem_of_fmap in Hf as (p & -> & _). reflexivity. Qed.

Lemma filteredFiles_app fs gs sel :
  filteredFiles (fs ++ gs) sel = filteredFiles fs sel ++ filteredFiles gs sel.
Proof. unfold filteredFiles. apply List.filter_app. Qed.

Lemma filteredFiles_processed date sel items :
  filteredFiles (omap (processItem date) items) sel
  = map (fileRecord date) (List.filter (shownIn sel) items).
Proof.
  induction items as [|item items IH]; [reflexivity |].
  change (omap (processItem date) (item :: items))
    with (match processItem date item with
          | Some y => y :: omap (processItem date) items
          | None => omap (processItem date) items
          end).
  cbn [List.filter]. unfold processItem at 1, shownIn at 1.
  fold (fileRecord date item).
  destruct (String.eqb (baseName (keyOr item)) MARKER); cbn [negb andb]; [exact IH |].
  change (filteredFiles (fileRecord date item :: omap (processItem date) items) sel)
    with (List.filter (inSelectedFolder sel) (fileRecord date item :: omap (processItem date) items)).
  cbn [List.filter]. rewrite inSelectedFolder_record.
  destruct (belongsTo sel item); cbn [map]; [f_equal |]; exact IH.
Qed.

End DirectFiles.

(** C4. The files shown for a folder are exactly the listed objects that
    are not markers and whose key, with the file name stripped, is the
    folder's key (at the root: whose key has no slash), in listing order.
    No marker is shown, and no object from a folder below the current one is
    shown. *)
Theorem directFiles_exact (date : string) (commonPrefixes : option (list (option string)))
    (contents : list S3Object) (selectedFolder : string) :
  let shown := directFiles date commonPrefixes (Some contents) selectedFolder in
  shown = map (fileRecord date) (List.filter (shownIn selectedFolder) contents)
  /\ (forall item, belongsTo selectedFolder item
                   = if String.eqb selectedFolder "/"
                     then negb (Js.includesSlash (keyOr item))
                     else String.eqb (Js.join (Js.init (Js.split (keyOr item))))
                                     (normalizedFolderOf selectedFolder))
  /\ (forall f, In f shown ->
        FileMetadata.name f <> MARKER /\ baseName (FileMetadata.fileKey f) <> MARKER)
  /\ (forall f n rest, In f shown ->
        FileMetadata.fileKey f
        <> (if String.eqb selectedFolder "/" then n +:+ "/" +:+ rest
            else normalizedFolderOf selectedFolder +:+ "/" +:+ n +:+ "/" +:+ rest)).
Proof.
  intros shown.
  assert (Hshown : shown = map (fileRecord date) (List.filter (shownIn selectedFolder) contents)).
  { unfold shown, directFiles, listFilesRoot.
    destruct commonPrefixes as [prefixes |]; rewrite !filteredFiles_app.
    - rewrite (filteredFiles_folders _ _ (folderPlaceholders_folders date prefixes)).
      rewrite (filteredFiles_folders _ _ (folderObjects_folders date _)).
      apply filteredFiles_processed.
    - rewrite (filteredFiles_folders _ _ (folderObjects_folders date _)).
      apply filteredFiles_processed. }
  split; [exact Hshown |]. split; [| split].
  - intros item. unfold belongsTo. now rewrite join_init_split.
  - intros f Hf. rewrite Hshown in Hf. apply in_map_iff in Hf as (item & <- & Hitem).
    apply List.filter_In in Hitem as [_ Hitem]. unfold shownIn in Hitem.
    apply andb_true_iff in Hitem as [Hm _]. apply negb_true_iff, String.eqb_neq in Hm.
    split; exact Hm.
  - intros f n rest Hf. rewrite Hshown in Hf. apply in_map_iff in Hf as (item & <- & Hitem).
    apply List.filter_In in Hitem as [_ Hitem]. unfold shownIn in Hitem.
    apply andb_true_iff in Hitem as [_ Hb]. unfold belongsTo in Hb.
    cbn [FileMetadata.fileKey fileRecord]. fold (normalizedFolderOf selectedFolder) in Hb.
    destruct (String.eqb selectedFolder "/").
    + intros E. rewrite E, includesSlash_app in Hb. cbn in Hb.
      rewrite orb_true_r in Hb. discriminate.
    + apply String.eqb_eq in Hb. intros E.
      assert (Hs : Js.includesSlash (keyOr item) = true).
      { rewrite E, includesSlash_app. cbn. apply orb_true_r. }
      unfold dirKey in Hb. rewrite Hs in Hb.
      destruct (beforeLastSlash_split _ Hs) as (m & Hk & Hm).
      rewrite Hb in Hk. rewrite E in Hk at 1. apply append_inj_l in Hk.
      cbn [String.append] in Hk. injection Hk as Hk.
      rewrite <- Hk, includesSlash_app in Hm. cbn in Hm.
      rewrite orb_true_r in Hm. discriminate.
Qed.

Lemma directFiles_exact_witness :
  let contents := [mkS3Object (Some "a/b/x.png") (Some 5) (Some "2024-01-01");
                   mkS3Object (Some "a/b/.keep") (Some 0) (Some "2024-01-01");
                   mkS3Object (Some "a/b/c/y.png") (Some 6) (Some "2024-01-01");
                   mkS3Object (Some "d.png") (Some 7) (Some "2024-01-01")] in
  map FileMetadata.fileKey (directFiles "2024-01-02" (Some [Some "a/"]) (Some contents) "/a/b")
  = ["a/b/x.png"]
  /\ FileMetadata.name (fileRecord "2024-01-02" (mkS3Object (Some "a/b/x.png") (Some 5)
                                                 (Some "2024-01-01"))) <> MARKER.
Proof.
  intros contents.
  destruct (directFiles_exact "2024-01-02" (Some [Some "a/"]) contents "/a/b")
    as (H1 & _ & H3 & _).
  split.
  - rewrite H1. reflexivity.
  - apply H3. rewrite H1. left. reflexivity.
Defined.

(** The scenario of the specification: the direct files of the root, of
    [/a/b] and of [/a/b/c]. *)
Example directFiles_scenario :
  let contents := Some [mkS3Object (Some "a/b/x.png") (Some 5) (Some "2024-01-01");
                        mkS3Object (Some "a/b/c/y.png") (Some 6) (Some "2024-01-01");
                        mkS3Object (Some "d.png") (Some 7) (Some "2024-01-01")] in
  let shown folder :=
    map FileMetadata.name (directFiles "2024-01-02" (Some [Some "a/"]) contents folder) in
  shown "/" = ["d.png"] /\ shown "/a/b" = ["x.png"] /\ shown "/a/b/c" = ["y.png"]
  /\ shown "/a" = [].
Proof. repeat split. Qed.

(** ** The folder tree: one step of the second pass *)

Lemma FolderTree_forall_ind (P : FolderTree -> Prop) :
  (forall n p cs, Forall P cs -> P (FolderNode n p cs)) ->
  forall t, P t.
Proof.
  intros H. fix IH 1. intros [n p cs]. apply H.
  induction cs as [|c r IHr]; constructor; [apply IH | exact IHr].
Qed.

Section Graft.

Variables (h : list Folder.t) (pref : nat) (parent : Folder.t).
Variables (newName p : string).

Hypothesis Hpref : h !! pref = Some parent.
Hypothesis Hinj : forall l f, h !! l = Some f -> Folder.path f = Folder.path parent -> l = pref.

Let q := Folder.path parent.
Let leaf := FolderNode newName p [].
Let h' := <[pref := pushChild (length h) parent]> (h ++ [Folder.mk newName p []]).

Lemma pref_in_heap : (pref < length h)%nat.
Proof. eapply lookup_lt_Some. exact Hpref. Qed.

Lemma read_leaf n : readFolder (S n) h' (length h) = Some leaf.
Proof.
  cbn [readFolder]. unfold h'.
  rewrite list_lookup_insert_ne by (pose proof pref_in_heap; lia).
  rewrite lookup_app_r by lia. rewrite Nat.sub_diag. reflexivity.
Qed.

Lemma read_graft fuel :
  forall l T, readFolder fuel h l = Some T ->
              readFolder (S fuel) h' l = Some (graft q leaf T).
Proof.
  induction fuel as [|n IH]; intros l T H; [discriminate |].
  cbn [readFolder] in H. destruct (h !! l) as [f |] eqn:Hl; [| discriminate].
  destruct (mapM (readFolder n h) (Folder.children f)) as [cs |] eqn:Hcs; [| discriminate].
  injection H as <-. apply mapM_Some_1 in Hcs.
  assert (Hkids : Forall2 (fun x y => readFolder (S n) h' x = Some y)
                    (Folder.children f) (map (graft q leaf) cs)).
  { apply Forall2_fmap_r. eapply Forall2_impl; [exact Hcs |]. intros x y Hxy. now apply IH. }
  assert (Hlt : (l < length h)%nat) by (eapply lookup_lt_Some; exact Hl).
  change (readFolder (S (S n)) h' l)
    with (match h' !! l with
          | None => None
          | Some f' =>
              match mapM (readFolder (S n) h') (Folder.children f') with
              | Some cs' => Some (FolderNode (Folder.name f') (Folder.path f') cs')
              | None => None
              end
          end).
  destruct (decide (l = pref)) as [-> | Hne].
  - rewrite Hpref in Hl. injection Hl as <-.
    unfold h'. rewrite list_lookup_insert_eq by (rewrite length_app; cbn; lia).
    cbn [pushChild Folder.children Folder.name Folder.path].
    rewrite (mapM_Some_2 _ _ (map (graft q leaf) cs ++ [leaf])).
    + cbn [graft]. fold q. now rewrite String.eqb_refl.
    + apply Forall2_app; [exact Hkids |]. constructor; [apply read_leaf | constructor].
  - unfold h'. rewrite list_lookup_insert_ne by congruence.
    rewrite lookup_app_l by exact Hlt. rewrite Hl.
    rewrite (mapM_Some_2 _ _ (map (graft q leaf) cs)) by exact Hkids.
    cbn [graft].
    assert (String.eqb (Folder.path f) q = false) as ->.
    { apply String.eqb_neq. intros E. apply Hne. eapply Hinj; eauto. }
    now rewrite app_nil_r.
Qed.

Lemma count_leaf x : countPath x leaf = if String.eqb p x then 1%nat else 0%nat.
Proof. cbn. lia. Qed.

Lemma count_graft T :
  forall x, countPath x (graft q leaf T)
            = (countPath x T + if String.eqb p x then countPath q T else 0)%nat.
Proof.
  induction T as [n pth cs IH] using FolderTree_forall_ind. intros x.
  cbn [graft countPath]. rewrite sum_list_with_app.
  assert (Hsum : sum_list_with (countPath x) (map (graft q leaf) cs)
                 = (sum_list_with (countPath x) cs
                    + if String.eqb p x then sum_list_with (countPath q) cs else 0)%nat).
  { induction IH as [|c r Hc _ IHr]; cbn [map sum_list_with].
    - destruct (String.eqb p x); reflexivity.
    - rewrite Hc, IHr. destruct (String.eqb p x); lia. }
  rewrite Hsum. destruct (String.eqb pth q) eqn:Hq.
  - cbn [sum_list_with]. rewrite count_leaf. destruct (String.eqb p x); lia.
  - cbn [sum_list_with]. destruct (String.eqb p x); lia.
Qed.

End Graft.

Section Step.

Lemma registered_spec b x : registered b x = true <-> is_Some (folderMap b !! x).
Proof.
  unfold registered. destruct (folderMap b !! x); split; intros H;
    try reflexivity; try discriminate; [eauto | now destruct H].
Qed.

Lemma createFolder_skip b p :
  p = "/" \/ registered b p = true -> createFolder p b = b.
Proof.
  unfold createFolder, registered. intros [-> | H]; [reflexivity |].
  destruct (String.eqb p "/"); [reflexivity |].
  destruct (folderMap b !! p); [reflexivity | discriminate].
Qed.

Lemma grown_lookup (h : list Folder.t) (pref : nat) (f' new : Folder.t) (l : nat) :
  (pref < length h)%nat ->
  <[pref := f']> (h ++ [new]) !! l
  = if decide (l = pref) then Some f'
    else if decide (l = length h) then Some new else h !! l.
Proof.
  intros Hlt. destruct (decide (l = pref)) as [-> | Hne].
  - apply list_lookup_insert_eq. rewrite length_app. cbn. lia.
  - rewrite list_lookup_insert_ne by congruence.
    destruct (decide (l = length h)) as [-> | Hne'].
    + rewrite lookup_app_r by lia. now rewrite Nat.sub_diag.
    + destruct (decide (l < length h)%nat) as [Hl | Hl].
      * now rewrite lookup_app_l.
      * rewrite !lookup_ge_None_2; [reflexivity | lia |]. rewrite length_app. cbn. lia.
Qed.

(** A path that is new, and whose parent is registered, gets one object,
    pushed once onto its parent's children. *)
Lemma createFolder_step b p pref :
  wellBuilt b ->
  p <> "/" ->
  folderMap b !! p = None ->
  folderMap b !! parentPathOf p = Some pref ->
  wellBuilt (createFolder p b)
  /\ forall x, registered (createFolder p b) x
               = if String.eqb p x then true else registered b x.
Proof.
  intros [Hroot Hmap Hheap Hkids (T & Hread & Hcount)] Hp Hnew Hparent.
  destruct (Hmap _ _ Hparent) as (parent & Hpref & Hq).
  assert (Hlt : (pref < length (heap b))%nat) by (eapply lookup_lt_Some; exact Hpref).
  assert (Hpq : p <> parentPathOf p) by (intros E; rewrite <- E in Hparent; congruence).
  set (name := default "" (last (Js.filterBoolean (Js.split p)))).
  set (new := Folder.mk name p []).
  set (h' := <[pref := pushChild (length (heap b)) parent]> (heap b ++ [new])).
  set (map1 := <[p := length (heap b)]> (folderMap b)).
  assert (Hcreate : createFolder p b = mkBuilder h' map1).
  { unfold createFolder. rewrite (proj2 (String.eqb_neq _ _) Hp).
    fold (parentPathOf p). rewrite Hnew. fold name new map1.
    unfold map1 at 1. rewrite lookup_insert_ne by exact Hpq. rewrite Hparent.
    rewrite lookup_app_l by exact Hlt. rewrite Hpref.
    assert (hasChildWithPath (heap b ++ [new]) parent p = false) as ->; [| reflexivity].
    unfold hasChildWithPath. apply not_true_iff_false. intros Hex.
    apply existsb_exists in Hex as (c & Hc & Hcp).
    assert (Hclt : (c < length (heap b))%nat).
    { eapply Hkids; [exact Hpref | now apply list_elem_of_In]. }
    rewrite lookup_app_l in Hcp by exact Hclt.
    destruct (heap b !! c) as [child |] eqn:Hchild; [| discriminate].
    apply String.eqb_eq in Hcp. apply Hheap in Hchild. congruence. }
  assert (Hlook : forall l, h' !! l
            = if decide (l = pref) then Some (pushChild (length (heap b)) parent)
              else if decide (l = length (heap b)) then Some new else heap b !! l)
    by (intros l; now apply grown_lookup).
  assert (Hlen : length h' = S (length (heap b))).
  { unfold h'. rewrite length_insert, length_app. cbn. lia. }
  assert (Hinj : forall l f, heap b !! l = Some f ->
                             Folder.path f = Folder.path parent -> l = pref).
  { intros l f Hl E. apply Hheap in Hl. rewrite E, Hq, Hparent in Hl. congruence. }
  assert (Hreg : forall x, registered (mkBuilder h' map1) x
                           = if String.eqb p x then true else registered b x).
  { intros x. unfold registered. cbn [folderMap]. unfold map1.
    destruct (String.eqb_spec p x) as [-> | Hne].
    - now rewrite lookup_insert_eq.
    - now rewrite lookup_insert_ne. }
  rewrite Hcreate. split; [| exact Hreg]. constructor; cbn [heap folderMap].
  - unfold map1. rewrite lookup_insert_ne by exact Hp. exact Hroot.
  - intros x l Hx. unfold map1 in Hx. rewrite Hlook.
    destruct (decide (x = p)) as [-> | Hne].
    + rewrite lookup_insert_eq in Hx. injection Hx as <-.
      destruct (decide (length (heap b) = pref)); [lia |].
      rewrite decide_True by reflexivity. eauto.
    + rewrite lookup_insert_ne in Hx by congruence.
      destruct (Hmap _ _ Hx) as (f & Hl & Hf).
      destruct (decide (l = pref)) as [-> | Hlp].
      * rewrite Hpref in Hl. injection Hl as <-. eauto.
      * assert (l < length (heap b))%nat by (eapply lookup_lt_Some; exact Hl).
        rewrite decide_False by lia. eauto.
  - intros l f Hl. rewrite Hlook in Hl. unfold map1.
    destruct (decide (l = pref)) as [-> | Hlp].
    + injection Hl as <-. cbn [pushChild Folder.path]. rewrite Hq.
      rewrite lookup_insert_ne by exact Hpq. exact Hparent.
    + destruct (decide (l = length (heap b))) as [-> | Hll].
      * injection Hl as <-. cbn. apply lookup_insert_eq.
      * apply Hheap in Hl as Hf. rewrite lookup_insert_ne; [exact Hf |]. congruence.
  - intros l f c Hl Hc. rewrite Hlen. rewrite Hlook in Hl.
    destruct (decide (l = pref)) as [-> | Hlp].
    + injection Hl as <-. cbn [pushChild Folder.children] in Hc.
      apply elem_of_app in Hc as [Hc | Hc].
      * specialize (Hkids _ _ _ Hpref Hc). lia.
      * apply list_elem_of_singleton in Hc. lia.
    + destruct (decide (l = length (heap b))) as [-> | Hll].
      * injection Hl as <-. cbn in Hc. now apply elem_of_nil in Hc.
      * specialize (Hkids _ _ _ Hl Hc). lia.
  - exists (graft (Folder.path parent) (FolderNode name p []) T). split.
    + rewrite Hlen. now apply read_graft.
    + intros x. rewrite count_graft, Hcount, Hcount, Hreg.
      unfold registered at 2. rewrite Hq, Hparent.
      unfold registered. destruct (String.eqb_spec p x) as [<- | Hne].
      * now rewrite Hnew.
      * lia.
Qed.

Lemma initialBuilder_wellBuilt : wellBuilt initialBuilder.
Proof.
  constructor; cbn [initialBuilder heap folderMap].
  - reflexivity.
  - intros p l H. apply lookup_singleton_Some in H as [<- <-]. eauto.
  - intros [|l] f H; [injection H as <-; reflexivity | discriminate].
  - intros [|l] f c H Hc; [injection H as <- | discriminate]. now apply elem_of_nil in Hc.
  - exists (FolderNode "Root" "/" []). split; [reflexivity |].
    intros p. unfold registered. cbn [folderMap countPath sum_list_with].
    destruct (String.eqb_spec "/" p) as [<- | Hne].
    + reflexivity.
    + change (folderMap initialBuilder) with ({[ "/" := 0%nat ]} : gmap string nat).
      now rewrite lookup_singleton_ne.
Qed.

End Step.

(** ** The folder tree: the candidate paths *)

Section Candidates.

Lemma setAdd_elem x y s : y ∈ setAdd x s <-> y = x \/ y ∈ s.
Proof.
  unfold setAdd. destruct (decide (x ∈ s)) as [Hin | Hout].
  - split; [now right | intros [-> | H]; assumption].
  - rewrite elem_of_app, list_elem_of_singleton. tauto.
Qed.

Lemma setAdd_NoDup x s : NoDup s -> NoDup (setAdd x s).
Proof.
  unfold setAdd. intros H. destruct (decide (x ∈ s)) as [Hin | Hout]; [exact H |].
  apply NoDup_app. split; [exact H |]. split; [| apply NoDup_singleton].
  intros y Hy Hy'. apply list_elem_of_singleton in Hy'. now subst.
Qed.

Lemma setAddAll_elem xs : forall s y, y ∈ setAddAll xs s <-> y ∈ s \/ y ∈ xs.
Proof.
  unfold setAddAll. induction xs as [|x xs IH]; intros s y; cbn [foldl].
  - rewrite elem_of_nil. tauto.
  - rewrite IH, setAdd_elem, elem_of_cons. tauto.
Qed.

Lemma setAddAll_NoDup xs : forall s, NoDup s -> NoDup (setAddAll xs s).
Proof.
  unfold setAddAll. induction xs as [|x xs IH]; intros s H; cbn [foldl]; [exact H |].
  apply IH. now apply setAdd_NoDup.
Qed.

Lemma allPaths_from acc files y :
  y ∈ foldl (fun acc file =>
               setAddAll (map (fun p => "/" +:+ p)
                            (parentPaths (Js.init (Js.split (FileMetadata.fileKey file))) ""))
                         acc) acc files
  <-> y ∈ acc \/ exists file, file ∈ files
        /\ y ∈ map (fun p => "/" +:+ p)
                 (parentPaths (Js.init (Js.split (FileMetadata.fileKey file))) "").
Proof.
  revert acc. induction files as [|f files IH]; intros acc; cbn [foldl].
  - split; [now left | intros [H | (file & Hf & _)]; [exact H | now apply elem_of_nil in Hf]].
  - rewrite IH, setAddAll_elem. split.
    + intros [[H | H] | (file & Hf & H)]; [now left | right | right].
      * exists f. split; [apply elem_of_cons; now left | exact H].
      * exists file. split; [apply elem_of_cons; now right | exact H].
    + intros [H | (file & Hf & H)]; [left; now left |].
      apply elem_of_cons in Hf as [-> | Hf]; [left; now right | right; eauto].
Qed.

Lemma allPaths_elem files y :
  y ∈ allPaths files
  <-> exists k, (k = "" \/ exists file, file ∈ files /\ k = FileMetadata.fileKey file)
                /\ y ∈ keyChain k.
Proof.
  unfold allPaths. rewrite allPaths_from, list_elem_of_singleton. unfold keyChain. split.
  - intros [-> | (file & Hf & H)].
    + exists "". split; [now left | apply elem_of_cons; now left].
    + exists (FileMetadata.fileKey file). split; [right; eauto | apply elem_of_cons; now right].
  - intros (k & Hk & H). apply elem_of_cons in H as [-> | H]; [now left |].
    destruct Hk as [-> | (file & Hf & ->)].
    + cbn in H. now apply elem_of_nil in H.
    + right. eauto.
Qed.

Lemma allPaths_NoDup files : NoDup (allPaths files).
Proof.
  unfold allPaths. generalize (NoDup_singleton "/"). generalize ["/"].
  induction files as [|f files IH]; intros acc Hacc; cbn [foldl]; [exact Hacc |].
  apply IH. now apply setAddAll_NoDup.
Qed.

(** The running path of the parent loop is the join of the segments seen
    so far. *)
Lemma parentPaths_prefixes parts :
  forall done, Forall (fun s => Js.truthy s = true) done ->
    parentPaths parts (Js.join done)
    = map (fun pre => Js.join (done ++ pre)) (nonemptyPrefixes (Js.filterBoolean parts)).
Proof.
  induction parts as [|part rest IH]; intros done Hd; [reflexivity |].
  cbn [parentPaths]. unfold Js.filterBoolean in *. cbn [List.filter].
  destruct (Js.truthy part) eqn:Hp; [| now apply IH].
  assert (Hstep : (if Js.truthy (Js.join done) then Js.join done +:+ "/" +:+ part else part)
                  = Js.join (done ++ [part])).
  { destruct done as [|d done']; [reflexivity |].
    rewrite join_snoc by discriminate.
    assert (Js.truthy (Js.join (d :: done')) = true) as ->; [| reflexivity].
    inversion Hd as [|? ? Hd1 _]; subst. destruct d; [discriminate |].
    destruct done'; reflexivity. }
  rewrite Hstep. cbn [nonemptyPrefixes map]. f_equal.
  rewrite IH by (apply Forall_app; split; [exact Hd | now constructor]).
  rewrite map_map. apply map_ext. intros pre. now rewrite <- app_assoc.
Qed.

Lemma keyChain_prefixes k :
  keyChain k = map renderPath ([] :: nonemptyPrefixes (folderSegments k)).
Proof.
  unfold keyChain, folderSegments. cbn [map]. f_equal.
  rewrite (parentPaths_prefixes _ [] (List.Forall_nil _)). rewrite map_map. reflexivity.
Qed.

Lemma nonemptyPrefixes_elem {A} (l pre : list A) :
  pre ∈ nonemptyPrefixes l <-> pre <> [] /\ pre `prefix_of` l.
Proof.
  revert pre. induction l as [|x l IH]; intros pre; cbn [nonemptyPrefixes].
  - rewrite elem_of_nil. split; [tauto |]. intros [Hne Hp].
    apply prefix_nil_inv in Hp. congruence.
  - rewrite elem_of_cons, list_elem_of_fmap. split.
    + intros [-> | (pre' & -> & Hpre')].
      * split; [discriminate |]. exists l. reflexivity.
      * apply IH in Hpre' as [_ Hp]. split; [discriminate |]. now apply prefix_cons.
    + intros [Hne Hp]. destruct pre as [|y pre']; [congruence |].
      apply prefix_cons_inv_1 in Hp as Hy. apply prefix_cons_inv_2 in Hp as Hp'. subst y.
      destruct pre' as [|z pre'']; [now left |]. right.
      exists (z :: pre''). split; [reflexivity |]. apply IH. split; [discriminate | exact Hp'].
Qed.

Lemma split_no_slash k : Forall (fun s => Js.includesSlash s = false) (Js.split k).
Proof.
  induction k as [|c r IH]; cbn [Js.split]; [repeat constructor |].
  destruct (Ascii.eqb c Js.slash) eqn:Hc; [constructor; [reflexivity | exact IH] |].
  destruct (Js.split r) as [|h t]; inversion IH; subst; constructor;
    cbn [Js.includesSlash]; rewrite ?Hc; auto.
Qed.

Lemma removelast_Forall {A} (P : A -> Prop) (l : list A) :
  Forall P l -> Forall P (removelast l).
Proof.
  induction 1 as [|x l Hx Hl IH]; [constructor |].
  cbn [removelast]. destruct l; [constructor | constructor; assumption].
Qed.

Lemma folderSegments_segments k : Forall segment (folderSegments k).
Proof.
  unfold folderSegments, Js.filterBoolean, Js.init.
  pose proof (removelast_Forall _ _ (split_no_slash k)) as H.
  induction H as [|x l Hx _ IH]; cbn [List.filter]; [constructor |].
  destruct (Js.truthy x) eqn:Ht; [constructor; [split; assumption | exact IH] | exact IH].
Qed.

Lemma allPaths_candidates files y :
  y ∈ allPaths files <-> exists segs, candidate files segs /\ y = renderPath segs.
Proof.
  rewrite allPaths_elem. split.
  - intros (k & Hk & Hy). rewrite keyChain_prefixes in Hy.
    apply list_elem_of_fmap in Hy as (segs & -> & Hsegs). exists segs. split; [| reflexivity].
    apply elem_of_cons in Hsegs as [-> | Hsegs]; [now left |].
    apply nonemptyPrefixes_elem in Hsegs as [Hne Hp].
    destruct Hk as [-> | (file & Hf & ->)].
    + cbn in Hp. apply prefix_nil_inv in Hp. congruence.
    + right. eauto.
  - intros (segs & [-> | (file & Hf & Hne & Hp)] & ->).
    + exists "". split; [now left | apply elem_of_cons; now left].
    + exists (FileMetadata.fileKey file). split; [right; eauto |].
      rewrite keyChain_prefixes. apply list_elem_of_fmap. exists segs. split; [reflexivity |].
      apply elem_of_cons. right. now apply nonemptyPrefixes_elem.
Qed.

Lemma candidate_segments files segs : candidate files segs -> Forall segment segs.
Proof.
  intros [-> | (file & _ & _ & [rest Hrest])]; [constructor |].
  pose proof (folderSegments_segments (FileMetadata.fileKey file)) as H.
  rewrite Hrest in H. now apply Forall_app in H as [H _].
Qed.

Lemma candidate_parent files segs s : candidate files (segs ++ [s]) -> candidate files segs.
Proof.
  intros [H | (file & Hf & _ & Hp)]; [destruct segs; discriminate |].
  destruct segs as [|a segs']; [now left |]. right. exists file.
  split; [exact Hf |]. split; [discriminate |].
  etransitivity; [| exact Hp]. now apply prefix_app_r.
Qed.

End Candidates.

(** ** The folder tree: sorting by depth *)

Section Sorting.

Let shallower (a b : string) : Prop := (depth a <= depth b)%nat.

Lemma insertByDepth_perm p l : insertByDepth p l ≡ₚ p :: l.
Proof.
  induction l as [|q r IH]; cbn [insertByDepth]; [reflexivity |].
  destruct (depth p <=? depth q)%nat; [reflexivity |].
  rewrite IH. apply Permutation_swap.
Qed.

Lemma sortByDepth_perm l : sortByDepth l ≡ₚ l.
Proof.
  unfold sortByDepth. induction l as [|p l IH]; cbn [foldr]; [reflexivity |].
  rewrite insertByDepth_perm. now rewrite IH.
Qed.

Lemma insertByDepth_sorted p l :
  StronglySorted shallower l -> StronglySorted shallower (insertByDepth p l).
Proof.
  induction 1 as [|q r Hr IH Hq]; cbn [insertByDepth]; [repeat constructor |].
  destruct (depth p <=? depth q)%nat eqn:E.
  - apply Nat.leb_le in E. constructor; [now constructor |].
    constructor; [exact E |]. eapply Forall_impl; [exact Hq |].
    intros x Hx. unfold shallower in *. lia.
  - apply Nat.leb_gt in E. constructor; [exact IH |].
    rewrite insertByDepth_perm. constructor; [unfold shallower; lia | exact Hq].
Qed.

Lemma sortByDepth_sorted l : StronglySorted shallower (sortByDepth l).
Proof.
  unfold sortByDepth. induction l as [|p l IH]; cbn [foldr]; [constructor |].
  now apply insertByDepth_sorted.
Qed.

(** In the sorted array, what comes after a path is not shallower. *)
Lemma sortByDepth_later l before p after q :
  sortByDepth l = before ++ p :: after -> q ∈ after -> (depth p <= depth q)%nat.
Proof.
  intros E Hq. pose proof (sortByDepth_sorted l) as H. rewrite E in H.
  apply StronglySorted_app_1_r in H. apply StronglySorted_inv in H as [_ H].
  rewrite Forall_forall in H. now apply H.
Qed.

Lemma depth_renderPath segs :
  segs <> [] -> Forall segment segs -> depth (renderPath segs) = S (length segs).
Proof.
  intros Hne Hall. unfold depth, renderPath.
  change ("/" +:+ Js.join segs) with (String Js.slash (Js.join segs)).
  cbn [Js.split]. rewrite Ascii.eqb_refl. now rewrite split_join.
Qed.

Lemma parentPathOf_renderPath segs s :
  Forall segment (segs ++ [s]) -> parentPathOf (renderPath (segs ++ [s])) = renderPath segs.
Proof.
  intros Hall. unfold parentPathOf. rewrite parts_of_renderPath by exact Hall.
  unfold Js.init. rewrite removelast_last. destruct segs; reflexivity.
Qed.

Lemma renderPath_inj a b :
  Forall segment a -> Forall segment b -> renderPath a = renderPath b -> a = b.
Proof.
  intros Ha Hb E. rewrite <- (parts_of_renderPath a Ha), <- (parts_of_renderPath b Hb).
  now rewrite E.
Qed.

End Sorting.

(** ** The folder tree: the second pass as a whole *)

Section SecondPass.

Variable files : list FileMetadata.t.

Lemma second_pass before after :
  sortByDepth (allPaths files) = before ++ after ->
  wellBuilt (foldl (fun b path => createFolder path b) initialBuilder before)
  /\ forall x, registered (foldl (fun b path => createFolder path b) initialBuilder before) x
               = true <-> x = "/" \/ x ∈ before.
Proof.
  revert after. induction before as [|p before IH] using rev_ind; intros after E.
  - cbn [foldl]. split; [apply initialBuilder_wellBuilt |].
    intros x. rewrite elem_of_nil. unfold registered. cbn [initialBuilder folderMap].
    destruct (decide (x = "/")) as [-> | Hne].
    + rewrite lookup_singleton_eq. tauto.
    + rewrite lookup_singleton_ne by congruence. split; [discriminate | tauto].
  - rewrite <- app_assoc in E. cbn [app] in E.
    destruct (IH _ E) as [Hwb Hreg]. rewrite foldl_app. cbn [foldl].
    set (b := foldl (fun b path => createFolder path b) initialBuilder before) in *.
    assert (Hsorted : sortByDepth (allPaths files) ≡ₚ allPaths files)
      by apply sortByDepth_perm.
    assert (Hnodup : NoDup (before ++ p :: after)).
    { rewrite <- E, Hsorted. apply allPaths_NoDup. }
    destruct (decide (p = "/")) as [-> | Hroot].
    { rewrite createFolder_skip by now left. split; [exact Hwb |].
      intros x. rewrite Hreg, elem_of_app, list_elem_of_singleton. tauto. }
    assert (Hnew : folderMap b !! p = None).
    { destruct (folderMap b !! p) as [l |] eqn:Hl; [| reflexivity]. exfalso.
      assert (Hr : registered b p = true) by (unfold registered; now rewrite Hl).
      apply Hreg in Hr as [-> | Hin]; [congruence |].
      apply NoDup_app in Hnodup as (_ & Hdisj & _). apply (Hdisj p Hin).
      apply elem_of_cons. now left. }
    assert (Hp : p ∈ allPaths files).
    { rewrite <- Hsorted, E. apply elem_of_app. right. apply elem_of_cons. now left. }
    apply allPaths_candidates in Hp as (segs & Hcand & ->).
    destruct segs as [|s0 segs0 _] using rev_ind; [now contradiction Hroot |].
    pose proof (candidate_segments _ _ Hcand) as Hsegs.
    pose proof (candidate_parent _ _ _ Hcand) as Hcand0.
    pose proof (candidate_segments _ _ Hcand0) as Hsegs0.
    assert (Hparent : registered b (renderPath segs0) = true).
    { apply Hreg. destruct segs0 as [|a rest]; [now left |]. right.
      assert (Hin : renderPath (a :: rest) ∈ before ++ renderPath ((a :: rest) ++ [s0]) :: after).
      { rewrite <- E, Hsorted. apply allPaths_candidates. eauto. }
      apply elem_of_app in Hin as [Hin | Hin]; [exact Hin |]. exfalso.
      apply elem_of_cons in Hin as [Hin | Hin].
      - apply renderPath_inj in Hin; [| assumption ..].
        apply (f_equal length) in Hin. rewrite length_app in Hin. cbn in Hin. lia.
      - pose proof (sortByDepth_later _ _ _ _ _ E Hin) as Hd.
        rewrite !depth_renderPath in Hd by (assumption || discriminate || (destruct rest; discriminate)).
        rewrite length_app in Hd. cbn in Hd. lia. }
    apply registered_spec in Hparent as [pref Hpref].
    rewrite <- (parentPathOf_renderPath segs0 s0 Hsegs) in Hpref.
    destruct (createFolder_step b _ pref Hwb Hroot Hnew Hpref) as [Hwb' Hreg'].
    split; [exact Hwb' |]. intros x. rewrite Hreg', elem_of_app, list_elem_of_singleton.
    destruct (String.eqb_spec (renderPath (segs0 ++ [s0])) x) as [<- | Hne].
    + split; [intros _; right; now right | reflexivity].
    + rewrite Hreg. split; [tauto |]. intros [H | [H | H]]; [now left | now right | congruence].
Qed.

Lemma buildFolderGraph_wellBuilt :
  wellBuilt (buildFolderGraph files)
  /\ forall x, registered (buildFolderGraph files) x = true <-> x ∈ allPaths files.
Proof.
  destruct (second_pass (sortByDepth (allPaths files)) [] (eq_sym (app_nil_r _)))
    as [Hwb Hreg].
  split; [exact Hwb |]. intros x. unfold buildFolderGraph. rewrite Hreg.
  rewrite sortByDepth_perm. split; [| tauto].
  intros [-> | H]; [| exact H]. apply allPaths_candidates. exists []. split; [now left | reflexivity].
Qed.

End SecondPass.

(** ** The folder tree *)

Section Tree.

Lemma siblingsDistinct_node n p cs :
  siblingsDistinct (FolderNode n p cs)
  <-> NoDup (map treePath cs) /\ Forall siblingsDistinct cs.
Proof.
  cbn [siblingsDistinct]. apply and_iff_compat_l.
  induction cs as [|c r IH]; [split; constructor |].
  rewrite Forall_cons, IH. reflexivity.
Qed.

Lemma count_root t : (1 <= countPath (treePath t) t)%nat.
Proof. destruct t as [n p cs]. cbn. rewrite String.eqb_refl. lia. Qed.

Lemma count_le_one_siblings t :
  (forall p, countPath p t <= 1)%nat -> siblingsDistinct t.
Proof.
  induction t as [n pth cs IH] using FolderTree_forall_ind. intros Hle.
  apply siblingsDistinct_node.
  assert (Hsum : forall p, (sum_list_with (countPath p) cs <= 1)%nat).
  { intros p. specialize (Hle p). cbn [countPath] in Hle. lia. }
  clear Hle. split.
  - induction cs as [|c r IHr]; cbn [map]; [constructor |].
    apply NoDup_cons. split.
    + intros Hin. apply list_elem_of_fmap in Hin as (c' & Hp & Hc').
      specialize (Hsum (treePath c)). cbn [sum_list_with] in Hsum.
      pose proof (count_root c) as H1. pose proof (count_root c') as H2.
      rewrite <- Hp in H2.
      pose proof (sum_list_with_in c' (countPath (treePath c)) r Hc') as H3. lia.
    + apply IHr; [now inversion IH |].
      intros p. specialize (Hsum p). cbn [sum_list_with] in Hsum. lia.
  - rewrite Forall_forall in IH |- *. intros c Hc. apply IH; [exact Hc |].
    intros p. pose proof (sum_list_with_in c (countPath p) cs Hc). specialize (Hsum p). lia.
Qed.

Lemma folderSegments_join segs :
  segs <> [] -> Forall segment segs -> folderSegments (Js.join segs) = Js.init segs.
Proof.
  intros Hne Hall. unfold folderSegments. rewrite split_join by assumption.
  apply filterBoolean_segments. now apply removelast_Forall.
Qed.

End Tree.

(** C2. [buildFolderStructure] returns one tree, rooted at [/].  A path
    is the path of exactly one node when it is a candidate (the root, or in
    the parent chain of some key) and of no node otherwise; in particular
    every path of the parent chain of every key is there once, and no node
    has two children with the same path.  For a key made of segments the
    chain is the root followed by the paths of the proper prefixes of its
    segments. *)
Theorem buildFolderStructure_single_tree (files : list FileMetadata.t) :
  exists root,
    buildFolderStructure files = Some [root]
    /\ treePath root = "/"
    /\ (forall p, countPath p root = if bool_decide (p ∈ allPaths files) then 1%nat else 0%nat)
    /\ (forall file p, In file files -> In p (keyChain (FileMetadata.fileKey file)) ->
                       countPath p root = 1%nat)
    /\ siblingsDistinct root
    /\ (forall segs, segs <> [] -> Forall segment segs ->
          keyChain (Js.join segs) = map renderPath ([] :: nonemptyPrefixes (Js.init segs))).
Proof.
  destruct (buildFolderGraph_wellBuilt files) as [[Hroot Hmap _ _ (T & Hread & Hcount)] Hreg].
  assert (Hall : forall p, countPath p T
                           = if bool_decide (p ∈ allPaths files) then 1%nat else 0%nat).
  { intros p. rewrite Hcount. destruct (registered (buildFolderGraph files) p) eqn:Hr.
    - apply Hreg in Hr. now rewrite bool_decide_eq_true_2.
    - rewrite bool_decide_eq_false_2; [reflexivity |]. intros Hin. apply Hreg in Hin. congruence. }
  exists T. split; [| split; [| split; [exact Hall | split; [| split]]]].
  - unfold buildFolderStructure. cbn [mapM]. rewrite Hread. reflexivity.
  - destruct (Hmap _ _ Hroot) as (f & Hf & Hpath).
    destruct (length (heap (buildFolderGraph files))) as [|n]; [discriminate |].
    cbn [readFolder] in Hread. rewrite Hf in Hread.
    destruct (mapM _ _); [| discriminate]. injection Hread as <-. exact Hpath.
  - intros file p Hfile Hp. rewrite Hall. rewrite bool_decide_eq_true_2; [reflexivity |].
    apply allPaths_elem. exists (FileMetadata.fileKey file). split.
    + right. exists file. split; [now apply list_elem_of_In | reflexivity].
    + now apply list_elem_of_In.
  - apply count_le_one_siblings. intros p. rewrite Hall. destruct (bool_decide _); lia.
  - intros segs Hne Hsegs. rewrite keyChain_prefixes. now rewrite folderSegments_join.
Qed.

Lemma buildFolderStructure_single_tree_witness :
  let mk k := FileMetadata.mk "" NoUrl "" 0 "" "" k false in
  exists root,
    buildFolderStructure [mk "a/b/x.png"; mk "a/b/c/y.png"; mk "d.png"] = Some [root]
    /\ countPath "/a/b" root = 1%nat
    /\ keyChain (Js.join ["a"; "b"; "c.png"]) = ["/"; "/a"; "/a/b"].
Proof.
  intros mk.
  destruct (buildFolderStructure_single_tree [mk "a/b/x.png"; mk "a/b/c/y.png"; mk "d.png"])
    as (root & Hb & _ & _ & Hc & _ & Hk).
  exists root. split; [exact Hb |]. split.
  - apply (Hc (mk "a/b/c/y.png")); [right; left; reflexivity | right; right; left; reflexivity].
  - rewrite Hk; [reflexivity | discriminate |].
    repeat constructor.
Defined.

(** The scenario of the specification. *)
Example buildFolderStructure_scenario :
  let mk k := FileMetadata.mk "" NoUrl "" 0 "" "" k false in
  buildFolderStructure [mk "a/b/x.png"; mk "a/b/c/y.png"; mk "d.png"]
  = Some [FolderNode "Root" "/"
            [FolderNode "a" "/a" [FolderNode "b" "/a/b" [FolderNode "c" "/a/b/c" []]]]].
Proof. vm_compute. reflexivity. Qed.

(** * Further properties of the service *)

(** ** [deleteFolder]: spellings of the path, rejected sends *)

Section DeleteFolderMore.

Lemma endsWithSlash_cons c k : k <> "" -> Js.endsWithSlash (String c k) = Js.endsWithSlash k.
Proof. destruct k; [congruence | reflexivity]. Qed.

Lemma endsWithSlash_app_slash k : Js.endsWithSlash (k +:+ "/") = true.
Proof. apply endsWithSlash_snoc. Qed.

Lemma startsWithSlash_app k x :
  k <> "" -> Js.startsWithSlash (k +:+ x) = Js.startsWithSlash k.
Proof. destruct k; [congruence | reflexivity]. Qed.

Lemma deleteFolder_by_prefix p p' w :
  deletePrefix p = deletePrefix p' -> deleteFolder p w = deleteFolder p' w.
Proof. unfold deleteFolder. now intros ->. Qed.

Lemma deletePrefix_plain k :
  k <> "" -> Js.startsWithSlash k = false -> Js.endsWithSlash k = false ->
  deletePrefix k = k +:+ "/".
Proof.
  intros Hk Hs He. unfold deletePrefix. rewrite He.
  now rewrite startsWithSlash_app, Hs.
Qed.

Lemma deletePrefix_slashed k :
  k <> "" -> Js.endsWithSlash k = false -> deletePrefix ("/" +:+ k) = k +:+ "/".
Proof.
  intros Hk He. apply deletePrefix_of_folder.
  change ("/" +:+ k) with (String Js.slash k). now rewrite endsWithSlash_cons.
Qed.

Lemma deletePrefix_trailing k :
  k <> "" -> Js.startsWithSlash k = false -> deletePrefix (k +:+ "/") = k +:+ "/".
Proof.
  intros Hk Hs. unfold deletePrefix. rewrite endsWithSlash_app_slash.
  now rewrite startsWithSlash_app, Hs.
Qed.

Lemma deletePrefix_both k :
  deletePrefix ("/" +:+ k +:+ "/") = k +:+ "/".
Proof.
  unfold deletePrefix. change ("/" +:+ k +:+ "/") with (String Js.slash (k +:+ "/")).
  destruct k as [|c k].
  - reflexivity.
  - rewrite endsWithSlash_cons by discriminate. now rewrite endsWithSlash_app_slash.
Qed.

Lemma deleteEach_until_rejection (done : list Stored) (o : Stored) (rest : list Stored) :
  Forall (fun x => okey x <> "") (done ++ [o]) ->
  forall w,
    (forall i x, done !! i = Some x ->
                 fails w (length (calls w) + i) (DeleteObject (okey x)) = false) ->
    fails w (length (calls w) + length done) (DeleteObject (okey o)) = true ->
    fst (deleteEach (map describe (done ++ o :: rest)) w)
    = Err (StoreError (DeleteObject (okey o)))
    /\ calls (snd (deleteEach (map describe (done ++ o :: rest)) w))
       = calls w ++ map (fun x => DeleteObject (okey x)) (done ++ [o])
    /\ objects (snd (deleteEach (map describe (done ++ o :: rest)) w))
       = List.filter (fun x => negb (bool_decide (okey x ∈ map okey done))) (objects w).
Proof.
  induction done as [|d done IH]; intros Hne w Hacc Hrej.
  - cbn [app map deleteEach]. rewrite keyMissing_describe.
    inversion Hne as [|? ? Hk _]; subst. apply truthy_true in Hk. rewrite Hk. cbn [negb].
    unfold bind, deleteFile, sendDelete, rejected.
    change (keyOr (describe o)) with (okey o).
    cbn [length] in Hrej. rewrite Nat.add_0_r in Hrej. rewrite Hrej. cbn [fst snd].
    split; [reflexivity |]. split; [reflexivity |]. cbn. now rewrite filter_none_listed.
  - cbn [app map deleteEach]. rewrite keyMissing_describe.
    inversion Hne as [|? ? Hk Hne']; subst. apply truthy_true in Hk. rewrite Hk. cbn [negb].
    unfold bind, deleteFile. change (keyOr (describe d)) with (okey d).
    rewrite sendDelete_accepted.
    2:{ unfold rejected. specialize (Hacc 0%nat d eq_refl). now rewrite Nat.add_0_r in Hacc. }
    set (w1 := withObjects (logged (DeleteObject (okey d)) w)
                 (List.filter (fun x => negb (String.eqb (okey x) (okey d))) (objects w))).
    assert (Hlen : length (calls w1) = S (length (calls w))).
    { cbn. rewrite length_app. cbn. lia. }
    destruct (IH Hne' w1) as (Hr & Hc & Hobj).
    + intros i x Hx. rewrite Hlen. specialize (Hacc (S i) x Hx).
      cbn [fails w1 withObjects logged withCalls]. now rewrite Nat.add_succ_r in Hacc.
    + rewrite Hlen. cbn [length] in Hrej. cbn [fails w1 withObjects logged withCalls].
      now rewrite Nat.add_succ_r in Hrej.
    + fold (map describe (done ++ o :: rest)).
      destruct (deleteEach (map describe (done ++ o :: rest)) w1) as [r w'] eqn:E.
      cbn [fst snd] in *. subst r. split; [reflexivity |]. split.
      * rewrite Hc. cbn. now rewrite <- app_assoc.
      * rewrite Hobj. cbn [w1 objects withObjects]. rewrite filter_filter_and.
        apply List.filter_ext_in. intros x _.
        destruct (String.eqb_spec (okey x) (okey d)) as [E' | E']; cbn [negb andb map].
        -- rewrite bool_decide_eq_true_2; [reflexivity |]. rewrite E'. apply elem_of_cons. now left.
        -- apply f_equal. apply bool_decide_ext. rewrite elem_of_cons. tauto.
Qed.

End DeleteFolderMore.

(** X1. The four spellings of a folder path — with or without the leading
    slash, with or without the trailing one — give the same listing prefix,
    so [deleteFolder] does the same with each. *)
Theorem deleteFolder_path_spellings (k : string) (w : World) :
  k <> "" -> Js.startsWithSlash k = false -> Js.endsWithSlash k = false ->
  deletePrefix k = k +:+ "/"
  /\ deleteFolder ("/" +:+ k) w = deleteFolder k w
  /\ deleteFolder (k +:+ "/") w = deleteFolder k w
  /\ deleteFolder ("/" +:+ k +:+ "/") w = deleteFolder k w.
Proof.
  intros Hk Hs He. pose proof (deletePrefix_plain k Hk Hs He) as Hp.
  split; [exact Hp |]. repeat split; apply deleteFolder_by_prefix; rewrite Hp.
  - now apply deletePrefix_slashed.
  - now apply deletePrefix_trailing.
  - apply deletePrefix_both.
Qed.

Lemma deleteFolder_path_spellings_witness :
  deleteFolder "/photos/2024" emptyBucket = deleteFolder "photos/2024" emptyBucket
  /\ deleteFolder "/photos/2024/" emptyBucket = deleteFolder "photos/2024" emptyBucket.
Proof.
  destruct (deleteFolder_path_spellings "photos/2024" emptyBucket) as (_ & H1 & _ & H3);
    [discriminate | reflexivity | reflexivity |]. split; [exact H1 | exact H3].
Defined.

(** X2. The listing prefix is empty, so that the whole bucket is listed,
    for exactly two folder paths: the empty string and [/].  For every other
    path the prefix ends with a slash. *)
Theorem deletePrefix_whole_bucket (folderPath : string) :
  (deletePrefix folderPath = "" <-> folderPath = "" \/ folderPath = "/")
  /\ (folderPath <> "" -> folderPath <> "/" ->
      Js.endsWithSlash (deletePrefix folderPath) = true).
Proof.
  assert (Hends : forall s, Js.endsWithSlash (if Js.endsWithSlash s then s else s +:+ "/") = true).
  { intros s. destruct (Js.endsWithSlash s) eqn:E; [exact E | apply endsWithSlash_snoc]. }
  split.
  - split.
    + unfold deletePrefix. intros H.
      destruct folderPath as [|c r]; [now left |]. right.
      specialize (Hends (String c r)).
      destruct (Js.endsWithSlash (String c r)) eqn:E.
      * cbn [Js.startsWithSlash Js.slice1] in H.
        destruct (Ascii.eqb c Js.slash) eqn:Hc; [| discriminate].
        apply eqb_slash_true in Hc. now subst.
      * cbn [String.append Js.startsWithSlash Js.slice1] in H.
        destruct (Ascii.eqb c Js.slash); [| discriminate].
        destruct r; discriminate.
    + intros [-> | ->]; reflexivity.
  - intros H1 H2. unfold deletePrefix.
    specialize (Hends folderPath).
    destruct (if Js.endsWithSlash folderPath then folderPath else folderPath +:+ "/")
      as [|c r] eqn:E; [discriminate |].
    cbn [Js.startsWithSlash Js.slice1]. destruct (Ascii.eqb c Js.slash) eqn:Hc; [| exact Hends].
    destruct r as [|c' r'].
    + exfalso. apply eqb_slash_true in Hc. subst c.
      destruct (Js.endsWithSlash folderPath) eqn:E'.
      * apply H2. exact E.
      * destruct folderPath as [|a [|b t]]; [congruence | discriminate | discriminate].
    + now rewrite endsWithSlash_cons in Hends by discriminate.
Qed.

Lemma deletePrefix_whole_bucket_witness :
  Js.endsWithSlash (deletePrefix "/a") = true.
Proof. apply (deletePrefix_whole_bucket "/a"); discriminate. Defined.

(** X3. [deleteFolder] stops at the first delete the store rejects: it
    throws that error, the objects listed before the rejected one are gone,
    and no delete is sent for the rejected object's successors, which stay
    in the bucket. *)
Theorem deleteFolder_stops_at_rejection
    (folderPath : string) (w : World) (done : list Stored) (o : Stored) (rest : list Stored) :
  page (deletePrefix folderPath) w = done ++ o :: rest ->
  Forall (fun x => okey x <> "") (done ++ [o]) ->
  rejected (ListObjectsV2 (deletePrefix folderPath)) w = false ->
  (forall i x, done !! i = Some x ->
               fails w (S (length (calls w)) + i) (DeleteObject (okey x)) = false) ->
  fails w (S (length (calls w)) + length done) (DeleteObject (okey o)) = true ->
  fst (deleteFolder folderPath w) = Err (StoreError (DeleteObject (okey o)))
  /\ calls (snd (deleteFolder folderPath w))
     = calls w ++ ListObjectsV2 (deletePrefix folderPath)
               :: map (fun x => DeleteObject (okey x)) (done ++ [o])
  /\ objects (snd (deleteFolder folderPath w))
     = List.filter (fun x => negb (bool_decide (okey x ∈ map okey done))) (objects w).
Proof.
  intros Hpage Hne Hlist Hacc Hrej. rewrite deleteFolder_unfold by exact Hlist.
  rewrite Hpage.
  destruct (deleteEach_until_rejection done o rest Hne
              (logged (ListObjectsV2 (deletePrefix folderPath)) w)) as (Hr & Hc & Hobj).
  - intros i x Hx. cbn. rewrite length_app. cbn.
    replace (length (calls w) + 1 + i)%nat with (S (length (calls w)) + i)%nat by lia.
    now apply Hacc.
  - cbn. rewrite length_app. cbn.
    replace (length (calls w) + 1 + length done)%nat
      with (S (length (calls w)) + length done)%nat by lia.
    exact Hrej.
  - split; [exact Hr |]. split; [| exact Hobj].
    rewrite Hc. cbn. now rewrite <- app_assoc.
Qed.

Lemma deleteFolder_stops_at_rejection_witness :
  let w := mkWorld [mkStored "a/1" 1 "d"; mkStored "a/2" 1 "d"; mkStored "a/3" 1 "d"]
                   [] (fun n _ => Nat.eqb n 2) 1000 "d" in
  fst (deleteFolder "/a" w) = Err (StoreError (DeleteObject "a/2"))
  /\ map okey (objects (snd (deleteFolder "/a" w))) = ["a/2"; "a/3"].
Proof.
  intros w.
  destruct (deleteFolder_stops_at_rejection "/a" w [mkStored "a/1" 1 "d"]
              (mkStored "a/2" 1 "d") [mkStored "a/3" 1 "d"]) as (H1 & _ & H3).
  - reflexivity.
  - repeat constructor; discriminate.
  - reflexivity.
  - intros [|i] x Hx; [reflexivity | discriminate].
  - reflexivity.
  - split; [exact H1 |]. rewrite H3. reflexivity.
Defined.

(** ** Keys of uploads, and what a folder upload sends *)

Section UploadMore.

Lemma renderPath_not_root segs :
  segs <> [] -> Forall segment segs -> String.eqb (renderPath segs) "/" = false.
Proof.
  intros Hne Hall. apply String.eqb_neq. unfold renderPath.
  pose proof (join_segments_truthy segs Hne Hall) as H.
  destruct (Js.join segs); [discriminate | cbn; congruence].
Qed.

Lemma formattedPath_renderPath segs :
  Forall segment segs -> formattedPath (renderPath segs) = Js.join segs.
Proof.
  intros Hall. destruct segs as [|a rest]; [reflexivity |].
  unfold formattedPath. rewrite renderPath_not_root by (discriminate || exact Hall).
  reflexivity.
Qed.

Lemma fileKeyOf_renderPath segs n :
  Forall segment segs -> fileKeyOf (renderPath segs) n = Js.join (segs ++ [n]).
Proof.
  intros Hall. unfold fileKeyOf. rewrite formattedPath_renderPath by exact Hall.
  destruct segs as [|a rest]; [reflexivity |].
  rewrite join_segments_truthy by (discriminate || exact Hall).
  symmetry. apply join_snoc. discriminate.
Qed.

Lemma omap_fileOfUnit_planFiles entries currentPath :
  omap fileOfUnit (planFiles entries currentPath)
  = List.filter (fun f => (File.size f <=? FILE_SIZE_LIMIT) || String.eqb (File.name f) MARKER)
      ((fix direct (es : list Entry) : list File.t :=
          match es with
          | [] => []
          | FileEntry file :: rest => file :: direct rest
          | DirectoryEntry _ _ :: rest => direct rest
          end) entries).
Proof.
  induction entries as [|[file | n es] rest IH]; [reflexivity | | exact IH].
  cbn [planFiles List.filter].
  destruct ((File.size file <=? FILE_SIZE_LIMIT) || String.eqb (File.name file) MARKER);
    [| exact IH].
  change (omap fileOfUnit (FileAt file currentPath :: planFiles rest currentPath))
    with (file :: omap fileOfUnit (planFiles rest currentPath)).
  now rewrite IH.
Qed.

Lemma omap_fileOfUnit_planMarkers pathParts buildPath :
  omap fileOfUnit (planMarkers pathParts buildPath) = [].
Proof.
  revert buildPath. induction pathParts as [|part rest IH]; intros buildPath; [reflexivity |].
  cbn [planMarkers]. apply IH.
Qed.

Lemma omap_fileOfUnit_planDirectory (e : Entry) :
  forall currentPath,
    omap fileOfUnit (planDirectory e currentPath)
    = List.filter (fun f => (File.size f <=? FILE_SIZE_LIMIT) || String.eqb (File.name f) MARKER)
        (filesOf e).
Proof.
  induction e as [file | name entries IH] using Entry_forall_ind; intros currentPath.
  - reflexivity.
  - cbn [planDirectory filesOf]. rewrite omap_app, List.filter_app.
    rewrite omap_fileOfUnit_planFiles. f_equal.
    induction IH as [|x rest Hx _ IHrest]; [reflexivity |].
    destruct x as [file | subName subEntries].
    + rewrite IHrest. reflexivity.
    + rewrite !omap_app, omap_fileOfUnit_planMarkers, Hx, IHrest.
      now rewrite List.filter_app.
Qed.

End UploadMore.

(** X4. Uploading into a logical path made of segments gives the key made
    of those segments and the file name, joined by slashes: no leading
    slash, and for a name without a slash no empty segment; the key's
    directory is the folder's key. *)
Theorem upload_key_is_joined_segments (segs : list string) (n : string) :
  Forall segment segs ->
  segment n ->
  fileKeyOf (renderPath segs) n = Js.join (segs ++ [n])
  /\ Js.split (fileKeyOf (renderPath segs) n) = segs ++ [n]
  /\ Js.startsWithSlash (fileKeyOf (renderPath segs) n) = false
  /\ folderPathOfKey (fileKeyOf (renderPath segs) n) = renderPath segs.
Proof.
  intros Hall Hn. rewrite fileKeyOf_renderPath by exact Hall.
  assert (Hsegs : Forall segment (segs ++ [n])).
  { apply Forall_app. split; [exact Hall | now constructor]. }
  split; [reflexivity |]. split; [| split].
  - apply split_join; [destruct segs; discriminate | exact Hsegs].
  - destruct segs as [|a rest].
    + destruct Hn as [Ht Hs]. destruct n as [|c n']; [discriminate |].
      cbn in *. now apply orb_false_iff in Hs as [-> _].
    + inversion Hall as [|? ? [Ht Hs] _]; subst. destruct a as [|c a']; [discriminate |].
      cbn [Js.includesSlash] in Hs. apply orb_false_iff in Hs as [Hc _].
      destruct rest; cbn; exact Hc.
  - unfold folderPathOfKey, renderPath, toPath. f_equal. destruct Hn as [_ Hs].
    destruct segs as [|a rest]; [now apply dirKey_plain |].
    rewrite join_snoc by discriminate. now apply dirKey_joined.
Qed.

Lemma upload_key_is_joined_segments_witness :
  fileKeyOf "/a/b" "c.png" = "a/b/c.png" /\ Js.split (fileKeyOf "/a/b" "c.png") = ["a"; "b"; "c.png"].
Proof.
  destruct (upload_key_is_joined_segments ["a"; "b"] "c.png") as (H1 & H2 & _).
  - repeat constructor.
  - split; reflexivity.
  - split; [exact H1 | exact H2].
Defined.

(** X5. A folder upload tries exactly the files of the dropped tree that
    are within the size limit or named [.keep], each once, the files of a
    directory before those of its sub-directories; a larger file is never
    sent.  The upload itself never throws, whatever the store rejects. *)
Theorem uploadFolder_sends_gated_files (folderEntry : Entry) (baseFolderPath : string)
    (w : World) :
  omap fileOfUnit (uploadPlan folderEntry baseFolderPath)
  = List.filter (fun f => (File.size f <=? FILE_SIZE_LIMIT) || String.eqb (File.name f) MARKER)
      (filesOf folderEntry)
  /\ calls (snd (uploadFolder folderEntry baseFolderPath w))
     = calls w ++ map (fun u => putCallOf (unitPair u)) (uploadPlan folderEntry baseFolderPath)
  /\ exists results, fst (uploadFolder folderEntry baseFolderPath w) = Ok results.
Proof.
  split; [| split].
  - unfold uploadPlan.
    change (omap fileOfUnit (MarkerAt ?p :: ?l)) with (omap fileOfUnit l).
    apply omap_fileOfUnit_planDirectory.
  - rewrite uploadFolder_plan.
    destruct (attemptAll_spec _ (uploadPlan_gated folderEntry baseFolderPath) [] w)
      as (_ & Hc & _).
    rewrite Hc. now rewrite map_map.
  - rewrite uploadFolder_plan.
    destruct (attemptAll_spec _ (uploadPlan_gated folderEntry baseFolderPath) [] w)
      as (Hr & _).
    eauto.
Qed.

(** * Further properties of the listing *)

Section ListingMore.

Lemma split_join_slash segs :
  segs <> [] -> Forall segment segs -> Js.split (Js.join segs +:+ "/") = segs ++ [""].
Proof.
  induction segs as [|a [|b rest] IH]; intros Hne Hall; [congruence | |].
  - inversion Hall as [|? ? [_ Ha] _]; subst.
    change (Js.join [a] +:+ "/") with (a +:+ "/" +:+ "").
    now rewrite split_app_slash.
  - inversion Hall as [|? ? [_ Ha] Hrest]; subst.
    change (Js.join (a :: b :: rest)) with (a +:+ "/" +:+ Js.join (b :: rest)).
    rewrite !append_assoc. rewrite split_app_slash by exact Ha.
    cbn [app]. f_equal. apply IH; [discriminate | exact Hrest].
Qed.

Lemma filterBoolean_app l k :
  Js.filterBoolean (l ++ k) = Js.filterBoolean l ++ Js.filterBoolean k.
Proof. unfold Js.filterBoolean. apply List.filter_app. Qed.

Lemma parts_of_folder_key segs :
  segs <> [] -> Forall segment segs ->
  Js.filterBoolean (Js.split (Js.join segs +:+ "/")) = segs.
Proof.
  intros Hne Hall. rewrite split_join_slash by assumption.
  rewrite filterBoolean_app, filterBoolean_segments by exact Hall.
  apply app_nil_r.
Qed.

Lemma parts_of_folder_path segs :
  segs <> [] -> Forall segment segs ->
  Js.filterBoolean (Js.split (renderPath segs +:+ "/")) = segs.
Proof.
  intros Hne Hall. unfold renderPath.
  change (("/" +:+ Js.join segs) +:+ "/") with (String Js.slash (Js.join segs +:+ "/")).
  cbn [Js.split]. rewrite Ascii.eqb_refl. unfold Js.filterBoolean. cbn [List.filter Js.truthy].
  now apply parts_of_folder_key.
Qed.

Lemma folderSegments_folder_path segs :
  segs <> [] -> Forall segment segs -> folderSegments (renderPath segs +:+ "/") = segs.
Proof.
  intros Hne Hall. unfold folderSegments, renderPath.
  change (("/" +:+ Js.join segs) +:+ "/") with (String Js.slash (Js.join segs +:+ "/")).
  cbn [Js.split]. rewrite Ascii.eqb_refl. rewrite split_join_slash by assumption.
  unfold Js.init. change ("" :: segs ++ [""]) with (("" :: segs) ++ [""]).
  rewrite removelast_last. unfold Js.filterBoolean. cbn [List.filter Js.truthy].
  now apply filterBoolean_segments.
Qed.

Lemma dropLastChar_snoc s c : dropLastChar (s +:+ String c "") = s.
Proof.
  induction s as [|a s IH]; [reflexivity |].
  cbn [String.append dropLastChar] in *. rewrite IH.
  destruct (s +:+ String c "") eqn:E; [destruct s; discriminate | reflexivity].
Qed.

Lemma last_snoc_default (l : list string) x : default "" (last (l ++ [x])) = x.
Proof. now rewrite last_snoc. Qed.

Lemma parentPaths_truthy parts :
  forall path, Forall (fun s => Js.truthy s = true) (parentPaths parts path).
Proof.
  induction parts as [|part rest IH]; intros path; cbn [parentPaths]; [constructor |].
  destruct (Js.truthy part) eqn:Hp; [| apply IH]. constructor; [| apply IH].
  destruct (Js.truthy path) eqn:Hq; [| exact Hp]. destruct path; [discriminate | reflexivity].
Qed.

Lemma setAdd_map (g : string -> string) x s :
  (forall a b, g a = g b -> a = b) -> setAdd (g x) (map g s) = map g (setAdd x s).
Proof.
  intros Hinj. unfold setAdd.
  destruct (decide (x ∈ s)) as [Hin | Hout].
  - rewrite decide_True; [reflexivity |]. apply list_elem_of_fmap. eauto.
  - rewrite decide_False.
    + now rewrite map_app.
    + intros Hin. apply list_elem_of_fmap in Hin as (y & Hy & Hin).
      apply Hinj in Hy. now subst.
Qed.

Lemma setAddAll_map (g : string -> string) xs :
  (forall a b, g a = g b -> a = b) ->
  forall s, setAddAll (map g xs) (map g s) = map g (setAddAll xs s).
Proof.
  intros Hinj. unfold setAddAll. induction xs as [|x xs IH]; intros s; [reflexivity |].
  cbn [map foldl]. rewrite setAdd_map by exact Hinj. apply IH.
Qed.

Lemma setAddAll_under_root (xs : list string) :
  Forall (fun x => Js.truthy x = true) xs ->
  forall s, setAddAll (map (fun p => "/" +:+ p) xs) ("/" :: map (fun p => "/" +:+ p) s)
            = "/" :: map (fun p => "/" +:+ p) (setAddAll xs s).
Proof.
  unfold setAddAll. induction 1 as [|x xs Hx _ IH]; intros s; [reflexivity |].
  cbn [map foldl]. rewrite <- IH. f_equal.
  unfold setAdd at 1. destruct (decide (x ∈ s)) as [Hin | Hout].
  - rewrite decide_True.
    + unfold setAdd. now rewrite decide_True.
    + apply elem_of_cons. right. apply list_elem_of_fmap. eauto.
  - rewrite decide_False.
    + unfold setAdd. rewrite decide_False by exact Hout. cbn [app]. now rewrite map_app.
    + intros Hin. apply elem_of_cons in Hin as [Hin | Hin].
      * destruct x; discriminate.
      * apply list_elem_of_fmap in Hin as (y & Hy & Hin). injection Hy as ->. contradiction.
Qed.

Lemma detectedFolders_raw items :
  detectedFolders items
  = map (fun p => "/" +:+ p +:+ "/") (rawFolders [] (map keyOr items)).
Proof.
  unfold detectedFolders, rawFolders.
  change (@nil string) with (map (fun p => "/" +:+ p +:+ "/") []) at 1.
  generalize (@nil string). induction items as [|item items IH]; intros acc; [reflexivity |].
  cbn [foldl map]. rewrite setAddAll_map.
  - apply IH.
  - intros a b E. cbn [String.append] in E. injection E as E.
    revert b E. induction a as [|c a IHa]; intros [|d b] E; cbn in E; try reflexivity.
    + injection E as <- E. destruct b; discriminate.
    + injection E as -> E. destruct a; discriminate.
    + injection E as -> E. f_equal. now apply IHa.
Qed.

Lemma allPaths_raw files :
  allPaths files
  = "/" :: map (fun p => "/" +:+ p) (rawFolders [] (map FileMetadata.fileKey files)).
Proof.
  unfold allPaths, rawFolders.
  change ["/"] with ("/" :: map (fun p => "/" +:+ p) []) at 1.
  generalize (@nil string). induction files as [|f files IH]; intros acc; [reflexivity |].
  cbn [foldl map]. rewrite setAddAll_under_root by apply parentPaths_truthy. apply IH.
Qed.

Lemma rawFolders_elem keys : forall acc y,
  y ∈ rawFolders acc keys
  <-> y ∈ acc \/ exists k, k ∈ keys /\ y ∈ parentPaths (Js.init (Js.split k)) "".
Proof.
  unfold rawFolders. induction keys as [|k keys IH]; intros acc y; cbn [foldl].
  - split; [now left | intros [H | (k & Hk & _)]; [exact H | now apply elem_of_nil in Hk]].
  - rewrite IH, setAddAll_elem. split.
    + intros [[H | H] | (k' & Hk & H)]; [now left | right | right].
      * exists k. split; [apply elem_of_cons; now left | exact H].
      * exists k'. split; [apply elem_of_cons; now right | exact H].
    + intros [H | (k' & Hk & H)]; [left; now left |].
      apply elem_of_cons in Hk as [-> | Hk]; [left; now right | right; eauto].
Qed.

Lemma directFiles_filter date cps items sel :
  directFiles date cps (Some items) sel
  = map (fileRecord date) (List.filter (shownIn sel) items).
Proof.
  unfold directFiles, listFilesRoot.
  destruct cps as [prefixes |]; rewrite !filteredFiles_app.
  - rewrite (filteredFiles_folders _ _ (folderPlaceholders_folders date prefixes)).
    rewrite (filteredFiles_folders _ _ (folderObjects_folders date _)).
    apply filteredFiles_processed.
  - rewrite (filteredFiles_folders _ _ (folderObjects_folders date _)).
    apply filteredFiles_processed.
Qed.

Lemma buildFolderStructure_counts files :
  exists root,
    buildFolderStructure files = Some [root]
    /\ forall p, countPath p root = if bool_decide (p ∈ allPaths files) then 1%nat else 0%nat.
Proof.
  destruct (buildFolderGraph_wellBuilt files) as [[_ _ _ _ (T & Hread & Hcount)] Hreg].
  exists T. split.
  - unfold buildFolderStructure. cbn [mapM]. rewrite Hread. reflexivity.
  - intros p. rewrite Hcount. destruct (registered (buildFolderGraph files) p) eqn:Hr.
    + apply Hreg in Hr. now rewrite bool_decide_eq_true_2.
    + rewrite bool_decide_eq_false_2; [reflexivity |]. intros Hin. apply Hreg in Hin. congruence.
Qed.

(** The folder object that [listFiles] makes for a detected folder brings
    the folder's path into the candidates of [buildFolderStructure]. *)
Lemma listed_chain_in_allPaths date cps items item p :
  In item items -> In p (keyChain (keyOr item)) ->
  p ∈ allPaths (listFilesRoot date cps (Some items)).
Proof.
  intros Hitem Hp. apply list_elem_of_In in Hp. rewrite keyChain_prefixes in Hp.
  apply list_elem_of_fmap in Hp as (pre & -> & Hpre).
  apply elem_of_cons in Hpre as [-> | Hpre].
  { apply allPaths_candidates. exists []. split; [now left | reflexivity]. }
  apply nonemptyPrefixes_elem in Hpre as [Hne Hprefix].
  assert (Hsegs : Forall segment pre).
  { destruct Hprefix as [rest Hrest].
    pose proof (folderSegments_segments (keyOr item)) as H. rewrite Hrest in H.
    now apply Forall_app in H as [H _]. }
  assert (Hdet : (renderPath pre +:+ "/") ∈ detectedFolders items).
  { rewrite detectedFolders_raw. apply list_elem_of_fmap. exists (Js.join pre).
    split; [unfold renderPath; now rewrite append_assoc |].
    apply rawFolders_elem. right. exists (keyOr item). split.
    - apply list_elem_of_fmap. exists item. split; [reflexivity | now apply list_elem_of_In].
    - rewrite (parentPaths_prefixes _ [] (List.Forall_nil _)).
      apply list_elem_of_fmap. exists pre. split; [reflexivity |].
      apply nonemptyPrefixes_elem. split; assumption. }
  apply allPaths_elem. exists (renderPath pre +:+ "/"). split.
  - right. exists (folderObject date (renderPath pre +:+ "/")). split; [| reflexivity].
    unfold listFilesRoot.
    assert (folderObject date (renderPath pre +:+ "/")
            ∈ map (folderObject date) (detectedFolders items) ++ omap (processItem date) items).
    { apply elem_of_app. left. apply list_elem_of_fmap. eauto. }
    destruct cps; [apply elem_of_app; now right | assumption].
  - rewrite keyChain_prefixes, folderSegments_folder_path by assumption.
    apply list_elem_of_fmap. exists pre. split; [reflexivity |].
    apply elem_of_cons. right. apply nonemptyPrefixes_elem. split; [exact Hne | reflexivity].
Qed.

End ListingMore.

(** X6. What [listFiles('/')] returns holds no marker: an entry that is not
    a folder is the record of a listed object whose base name is not
    [.keep], with the folder path its key implies; an entry that is a folder
    has size 0, no URL and a key that ends with a slash. *)
Theorem listFilesRoot_entries (date : string) (cps : option (list (option string)))
    (contents : option (list S3Object)) (f : FileMetadata.t) :
  In f (listFilesRoot date cps contents) ->
  (FileMetadata.isFolder f = false ->
   FileMetadata.name f <> MARKER
   /\ FileMetadata.folderPath f = folderPathOfKey (FileMetadata.fileKey f)
   /\ exists item, In item (default [] contents) /\ f = fileRecord date item)
  /\ (FileMetadata.isFolder f = true ->
      FileMetadata.size f = 0 /\ FileMetadata.url f = NoUrl
      /\ Js.endsWithSlash (FileMetadata.fileKey f) = true).
Proof.
  intros Hf. apply list_elem_of_In in Hf.
  assert (Hcases :
    (exists prefixes p, cps = Some prefixes /\ folderPlaceholder date p = Some f)
    \/ (exists q, f = folderObject date ("/" +:+ q +:+ "/"))
    \/ (exists item, In item (default [] contents) /\ processItem date item = Some f)).
  { unfold listFilesRoot in Hf.
    assert (Hall : f ∈ match contents with
                       | Some items => map (folderObject date) (detectedFolders items)
                                       ++ omap (processItem date) items
                       | None => []
                       end ->
                   (exists q, f = folderObject date ("/" +:+ q +:+ "/"))
                   \/ (exists item, In item (default [] contents)
                                    /\ processItem date item = Some f)).
    { destruct contents as [items |]; [| intros H; now apply elem_of_nil in H].
      intros H. apply elem_of_app in H as [H | H].
      - left. apply list_elem_of_fmap in H as (path & -> & Hpath).
        rewrite detectedFolders_raw in Hpath.
        apply list_elem_of_fmap in Hpath as (q & -> & _). eauto.
      - right. apply list_elem_of_omap in H as (item & Hitem & Hp).
        exists item. split; [now apply list_elem_of_In | exact Hp]. }
    destruct cps as [prefixes |]; [| right; now apply Hall].
    apply elem_of_app in Hf as [Hf | Hf]; [| right; now apply Hall].
    left. apply list_elem_of_omap in Hf as (p & _ & Hp). eauto. }
  destruct Hcases as [(prefixes & p & _ & Hp) | [(q & ->) | (item & Hitem & Hp)]].
  - unfold folderPlaceholder in Hp.
    destruct (Js.endsWithSlash (default "" p)) eqn:E; [| discriminate].
    injection Hp as <-. split; [discriminate |]. intros _. repeat split. exact E.
  - split; [discriminate |]. intros _. repeat split.
    cbn [folderObject FileMetadata.fileKey].
    change ("/" +:+ q +:+ "/") with (String Js.slash (q +:+ "/")).
    rewrite endsWithSlash_cons by (destruct q; discriminate). apply endsWithSlash_snoc.
  - unfold processItem in Hp.
    destruct (String.eqb (baseName (keyOr item)) MARKER) eqn:E; [discriminate |].
    injection Hp as <-. split; [| discriminate]. intros _.
    apply String.eqb_neq in E. split; [exact E |]. split; [reflexivity |]. eauto.
Qed.

Lemma listFilesRoot_entries_witness :
  let items := [mkS3Object (Some "a/.keep") (Some 0) None;
                mkS3Object (Some "a/x.png") (Some 5) None] in
  FileMetadata.name (fileRecord "d" (mkS3Object (Some "a/x.png") (Some 5) None)) <> MARKER.
Proof.
  intros items.
  destruct (listFilesRoot_entries "d" None (Some items)
              (fileRecord "d" (mkS3Object (Some "a/x.png") (Some 5) None))) as [H _].
  - right. left. reflexivity.
  - now apply H.
Defined.

(** X7. The folders [listFiles] detects are, path for path and in the same
    order, the candidate paths of [buildFolderStructure] on the same keys
    without the root, each with a slash added at the end. *)
Theorem detectedFolders_are_candidates (date : string) (items : list S3Object) :
  detectedFolders items
  = map (fun p => p +:+ "/") (tail (allPaths (map (fileRecord date) items))).
Proof.
  rewrite detectedFolders_raw, allPaths_raw. cbn [tail].
  rewrite !map_map. cbn [FileMetadata.fileKey fileRecord].
  apply map_ext. intros p. now rewrite append_assoc.
Qed.

(** X8. The tree built from what [listFiles('/')] returns has, exactly
    once, every folder of the parent chain of every listed key — also for a
    key that is a marker, whose record is not in the list. *)
Theorem listed_folders_are_nodes (date : string) (cps : option (list (option string)))
    (items : list S3Object) (item : S3Object) (p : string) :
  In item items ->
  In p (keyChain (keyOr item)) ->
  exists root,
    buildFolderStructure (listFilesRoot date cps (Some items)) = Some [root]
    /\ countPath p root = 1%nat.
Proof.
  intros Hitem Hp.
  destruct (buildFolderStructure_counts (listFilesRoot date cps (Some items)))
    as (root & Hb & Hc).
  exists root. split; [exact Hb |]. rewrite Hc.
  rewrite bool_decide_eq_true_2; [reflexivity |].
  eapply listed_chain_in_allPaths; eassumption.
Qed.

Lemma listed_folders_are_nodes_witness :
  exists root,
    buildFolderStructure
      (listFilesRoot "d" None (Some [mkS3Object (Some "empty/dir/.keep") (Some 0) None]))
    = Some [root]
    /\ countPath "/empty/dir" root = 1%nat.
Proof.
  apply (listed_folders_are_nodes "d" None _
           (mkS3Object (Some "empty/dir/.keep") (Some 0) None)).
  - left. reflexivity.
  - right. right. left. reflexivity.
Defined.

(** * Further properties: uploads seen through the listing *)

Section SeenThroughListing.

Lemma filter_all {A} (f : A -> bool) (l : list A) :
  (forall x, f x = true) -> List.filter f l = l.
Proof.
  intros H. induction l as [|x l IH]; [reflexivity |].
  cbn [List.filter]. now rewrite H, IH.
Qed.

Lemma page_whole_bucket w :
  (length (objects w) <= maxKeys w)%nat -> page "" w = objects w.
Proof.
  intros H. unfold page. rewrite filter_all by reflexivity. now apply take_ge.
Qed.

Lemma store_In o os : In o (store o os).
Proof.
  induction os as [|x r IH]; [now left |].
  cbn [store]. destruct (String.eqb (okey x) (okey o)); [now left | now right].
Qed.

Lemma store_length o os : (length (store o os) <= S (length os))%nat.
Proof.
  induction os as [|x r IH]; [cbn; lia |].
  cbn [store]. destruct (String.eqb (okey x) (okey o)); cbn [length]; lia.
Qed.

Lemma baseName_joined segs n :
  Forall segment segs -> segment n -> baseName (Js.join (segs ++ [n])) = n.
Proof.
  intros Hall Hn. unfold baseName. rewrite split_join.
  - rewrite last_snoc. simpl. destruct Hn as [-> _]. reflexivity.
  - destruct segs; discriminate.
  - apply Forall_app. split; [exact Hall | now constructor].
Qed.

Lemma dirKey_joined_segments segs n :
  segment n -> dirKey (Js.join (segs ++ [n])) = Js.join segs.
Proof.
  intros [_ Hn]. destruct segs as [|a rest]; [now apply dirKey_plain |].
  rewrite join_snoc by discriminate. now apply dirKey_joined.
Qed.

Lemma keyOr_some k size modified : keyOr (mkS3Object (Some k) size modified) = k.
Proof. reflexivity. Qed.

Lemma belongsTo_uploaded segs n size modified :
  Forall segment segs -> segment n ->
  belongsTo (renderPath segs)
    (mkS3Object (Some (Js.join (segs ++ [n]))) size modified) = true.
Proof.
  intros Hall Hn. unfold belongsTo. rewrite !keyOr_some.
  destruct segs as [|a rest].
  - cbn. destruct Hn as [_ ->]. reflexivity.
  - rewrite renderPath_not_root by (discriminate || exact Hall).
    rewrite dirKey_joined_segments by exact Hn. cbn. apply String.eqb_refl.
Qed.

Lemma segment_marker : segment MARKER.
Proof. split; reflexivity. Qed.

End SeenThroughListing.

(** X9. A file uploaded into a folder is shown in that folder at the next
    listing: when the put is accepted and the listing holds the whole
    bucket, the record of the new object is among the files of the folder,
    under the file's name, size and key, and with the folder as its folder
    path. *)
Theorem uploaded_file_is_shown (file : File.t) (segs : list string) (w : World)
    (date : string) (cps : option (list (option string))) :
  Forall segment segs ->
  segment (File.name file) ->
  File.name file <> MARKER ->
  File.size file <= FILE_SIZE_LIMIT ->
  rejected (putCall file (renderPath segs)) w = false ->
  (length (objects w) < maxKeys w)%nat ->
  let folder := renderPath segs in
  let w' := snd (uploadFile file folder w) in
  exists f,
    In f (directFiles date cps (Some (map describe (page "" w'))) folder)
    /\ FileMetadata.name f = File.name file
    /\ FileMetadata.size f = File.size file
    /\ FileMetadata.fileKey f = Js.join (segs ++ [File.name file])
    /\ FileMetadata.folderPath f = folder.
Proof.
  intros Hall Hn Hmark Hsize Hacc Hroom folder w'.
  assert (Hgate : passesGate file = true).
  { unfold passesGate. apply orb_true_iff. right. now apply Z.leb_le. }
  assert (Hobj : objects w'
                 = store (mkStored (Js.join (segs ++ [File.name file])) (File.size file) (today w))
                         (objects w)).
  { unfold w', folder. rewrite uploadFile_gated by exact Hgate. rewrite Hacc.
    cbn [snd objects withObjects]. now rewrite fileKeyOf_renderPath. }
  assert (Hmax : maxKeys w' = maxKeys w).
  { now destruct (uploadFile_gated_world file folder w Hgate) as (_ & _ & _ & H). }
  set (o := mkStored (Js.join (segs ++ [File.name file])) (File.size file) (today w)) in *.
  exists (fileRecord date (describe o)). split; [| split; [| split; [| split]]].
  - rewrite directFiles_filter. apply in_map. apply List.filter_In. split.
    + apply in_map. rewrite page_whole_bucket.
      * rewrite Hobj. apply store_In.
      * rewrite Hobj, Hmax. pose proof (store_length o (objects w)). lia.
    + unfold shownIn. apply andb_true_iff. split.
      * unfold describe, o. rewrite keyOr_some. cbn [okey].
        rewrite baseName_joined by assumption.
        apply negb_true_iff. now apply String.eqb_neq.
      * now apply belongsTo_uploaded.
  - cbn. now apply baseName_joined.
  - reflexivity.
  - reflexivity.
  - cbn [fileRecord FileMetadata.folderPath]. unfold describe, o. rewrite keyOr_some.
    cbn [okey]. unfold folderPathOfKey, toPath, folder, renderPath.
    now rewrite dirKey_joined_segments.
Qed.

Lemma uploaded_file_is_shown_witness :
  exists f,
    In f (directFiles "d" None
            (Some (map describe
                     (page "" (snd (uploadFile (File.mk "x.png" 5 "image/png") "/a/b"
                                      emptyBucket))))) "/a/b")
    /\ FileMetadata.name f = "x.png".
Proof.
  destruct (uploaded_file_is_shown (File.mk "x.png" 5 "image/png") ["a"; "b"] emptyBucket
              "d" None) as (f & H1 & H2 & _).
  - repeat constructor.
  - split; reflexivity.
  - discriminate.
  - vm_compute. discriminate.
  - reflexivity.
  - vm_compute. lia.
  - exists f. split; [exact H1 | exact H2].
Defined.

(** ** Creating a folder *)

Section CreateFolder.

Lemma hostile_underscore : hostile "_"%char = false.
Proof. reflexivity. Qed.

Lemma hostile_slash c : Ascii.eqb c Js.slash = true -> hostile c = true.
Proof. intros H. apply eqb_slash_true in H. now subst. Qed.

Lemma sanitize_length name :
  String.length (sanitizeFolderName name) = String.length name.
Proof. induction name as [|c r IH]; cbn; [reflexivity | now rewrite IH]. Qed.

Lemma sanitize_no_slash name : Js.includesSlash (sanitizeFolderName name) = false.
Proof.
  induction name as [|c r IH]; [reflexivity |].
  cbn [sanitizeFolderName Js.includesSlash]. rewrite IH, orb_false_r.
  destruct (hostile c) eqn:Hc; [reflexivity |].
  destruct (Ascii.eqb c Js.slash) eqn:E; [| reflexivity].
  apply hostile_slash in E. congruence.
Qed.

Lemma sanitize_segment name : name <> "" -> segment (sanitizeFolderName name).
Proof.
  intros Hne. split; [| apply sanitize_no_slash]. destruct name; [congruence | reflexivity].
Qed.

End CreateFolder.

(** X10. Sanitizing a folder name keeps its length, leaves none of the nine
    hostile characters (so no slash: a non-empty name becomes one path
    segment), changes nothing in a name that has none of them, and doing it
    twice is doing it once. *)
Theorem sanitizeFolderName_safe (name : string) :
  String.length (sanitizeFolderName name) = String.length name
  /\ forallb (fun c => negb (hostile c)) (String.list_ascii_of_string (sanitizeFolderName name)) = true
  /\ (name <> "" -> segment (sanitizeFolderName name))
  /\ (forallb (fun c => negb (hostile c)) (String.list_ascii_of_string name) = true ->
      sanitizeFolderName name = name)
  /\ sanitizeFolderName (sanitizeFolderName name) = sanitizeFolderName name.
Proof.
  assert (Hclean : forall s,
            forallb (fun c => negb (hostile c)) (String.list_ascii_of_string (sanitizeFolderName s))
            = true).
  { induction s as [|c r IH]; [reflexivity |].
    cbn [sanitizeFolderName String.list_ascii_of_string forallb]. rewrite IH, andb_true_r.
    destruct (hostile c) eqn:Hc; [reflexivity | now rewrite Hc]. }
  assert (Hid : forall s,
            forallb (fun c => negb (hostile c)) (String.list_ascii_of_string s) = true ->
            sanitizeFolderName s = s).
  { induction s as [|c r IH]; [reflexivity |].
    cbn [sanitizeFolderName String.list_ascii_of_string forallb]. intros H.
    apply andb_true_iff in H as [Hc Hr]. apply negb_true_iff in Hc.
    now rewrite Hc, IH. }
  split; [apply sanitize_length |]. split; [apply Hclean |].
  split; [apply sanitize_segment |]. split; [apply Hid |].
  apply Hid, Hclean.
Qed.

Lemma sanitizeFolderName_safe_witness :
  segment (sanitizeFolderName "a/b:c") /\ sanitizeFolderName "plain" = "plain".
Proof.
  destruct (sanitizeFolderName_safe "a/b:c") as (_ & _ & H & _).
  destruct (sanitizeFolderName_safe "plain") as (_ & _ & _ & H' & _).
  split; [apply H; discriminate | apply H'; reflexivity].
Defined.

(** X11. Creating a folder below a logical path sends exactly one put, of
    the marker [<folder>/<name>/.keep] with the sanitized name.  When the
    store accepts it the marker is stored and a refresh is asked for; when
    the store rejects it the page is unchanged.  Once a listing holds that
    key, the tree has the new folder exactly once and the marker is not
    shown as a file in any folder. *)
Theorem handleCreateFolder_marker (trimmed : string) (pg : Page) (w : World)
    (segs : list string) :
  selectedFolder pg = renderPath segs ->
  Forall segment segs ->
  trimmed <> "" ->
  let name := sanitizeFolderName trimmed in
  let newPath := renderPath (segs ++ [name]) in
  let key := Js.join (segs ++ [name; MARKER]) in
  let put := PutObject key "text/plain" 0 in
  let result := handleCreateFolder trimmed pg w in
  calls (snd result) = calls w ++ [put]
  /\ (rejected put w = false ->
      fst (fst result) = FolderCreated name
      /\ In (mkStored key 0 (today w)) (objects (snd result))
      /\ refreshTrigger (snd (fst result)) = S (refreshTrigger pg))
  /\ (rejected put w = true ->
      fst result = (FailedToCreateFolder, pg) /\ objects (snd result) = objects w)
  /\ (forall date cps items item,
        In item items -> keyOr item = key ->
        (exists root,
            buildFolderStructure (listFilesRoot date cps (Some items)) = Some [root]
            /\ countPath newPath root = 1%nat)
        /\ forall folder f, In f (directFiles date cps (Some items) folder) ->
                            FileMetadata.fileKey f <> key).
Proof.
  intros Hsel Hall Hne name newPath key put result.
  pose proof (sanitize_segment trimmed Hne) as Hname. fold name in Hname.
  assert (Hsegs : Forall segment (segs ++ [name])).
  { apply Forall_app. split; [exact Hall | now constructor]. }
  assert (Hkey : fileKeyOf newPath MARKER = key).
  { unfold newPath, key. rewrite fileKeyOf_renderPath by exact Hsegs.
    now rewrite <- app_assoc. }
  assert (Hput : putCall markerFile newPath = put).
  { unfold putCall, put. cbn [markerFile File.name File.type File.size]. now rewrite Hkey. }
  assert (Hres : result
    = match uploadFile markerFile newPath w with
      | (Ok _, w') =>
          (FolderCreated name,
           mkPage (files pg)
                  (map (addFolder (selectedFolder pg) (FolderNode name newPath [])) (folders pg))
                  (selectedFolder pg) (toasts pg) (S (refreshTrigger pg)), w')
      | (Err _, w') => (FailedToCreateFolder, pg, w')
      end).
  { unfold result, handleCreateFolder.
    rewrite (proj2 (String.eqb_neq trimmed "") Hne). fold name.
    rewrite Hsel, mainFolderPathOf_render by exact Hall. reflexivity. }
  rewrite Hres, uploadFile_gated by reflexivity. rewrite Hput.
  change (File.name markerFile) with MARKER. change (File.size markerFile) with 0.
  rewrite Hkey.
  split; [| split; [| split]].
  - destruct (rejected put w); reflexivity.
  - intros ->. cbn [fst snd objects withObjects]. repeat split. apply store_In.
  - intros ->. split; reflexivity.
  - intros date cps items item Hitem Hk.
    assert (Hall' : Forall segment (segs ++ [name; MARKER])).
    { apply Forall_app. split; [exact Hall |].
      constructor; [exact Hname |]. constructor; [apply segment_marker | constructor]. }
    split.
    + destruct (buildFolderStructure_counts (listFilesRoot date cps (Some items)))
        as (root & Hb & Hc).
      exists root. split; [exact Hb |]. rewrite Hc.
      rewrite bool_decide_eq_true_2; [reflexivity |].
      apply (listed_chain_in_allPaths date cps items item); [exact Hitem |].
      rewrite Hk. unfold key. rewrite keyChain_prefixes.
      rewrite folderSegments_join by (exact Hall' || (destruct segs; discriminate)).
      unfold Js.init. replace (segs ++ [name; MARKER]) with ((segs ++ [name]) ++ [MARKER])
        by now rewrite <- app_assoc.
      rewrite removelast_last. apply in_map.
      right. apply list_elem_of_In, nonemptyPrefixes_elem.
      split; [destruct segs; discriminate | reflexivity].
    + intros folder f Hf. rewrite directFiles_filter in Hf.
      apply in_map_iff in Hf as (item' & <- & Hshown).
      apply List.filter_In in Hshown as [_ Hshown]. unfold shownIn in Hshown.
      apply andb_true_iff in Hshown as [Hm _]. apply negb_true_iff, String.eqb_neq in Hm.
      cbn [fileRecord FileMetadata.fileKey]. intros E. apply Hm. rewrite E. unfold key.
      replace (segs ++ [name; MARKER]) with ((segs ++ [name]) ++ [MARKER])
        by now rewrite <- app_assoc.
      apply baseName_joined; [exact Hsegs | apply segment_marker].
Qed.

Lemma handleCreateFolder_marker_witness :
  let pg := mkPage [] [] "/photos" [] 0 in
  calls (snd (handleCreateFolder "a:b" pg emptyBucket))
  = [PutObject "photos/a_b/.keep" "text/plain" 0]
  /\ fst (fst (handleCreateFolder "a:b" pg emptyBucket)) = FolderCreated "a_b".
Proof.
  intros pg.
  destruct (handleCreateFolder_marker "a:b" pg emptyBucket ["photos"]) as (H1 & H2 & _).
  - reflexivity.
  - repeat constructor.
  - discriminate.
  - split; [exact H1 |]. apply H2. reflexivity.
Defined.

(** * Further properties of the folder tree *)

Section TreeShape.

Lemma linked_node n p cs :
  linked (FolderNode n p cs)
  <-> Forall (fun c => (parentPathOf (treePath c) = p
                        /\ treeName c = default "" (last (Js.filterBoolean (Js.split (treePath c)))))
                       /\ linked c) cs.
Proof.
  cbn [linked]. induction cs as [|c r IH]; [split; constructor |].
  rewrite Forall_cons, <- IH. tauto.
Qed.

Lemma graft_path q leaf t : treePath (graft q leaf t) = treePath t.
Proof. destruct t; reflexivity. Qed.

Lemma graft_name q leaf t : treeName (graft q leaf t) = treeName t.
Proof. destruct t; reflexivity. Qed.

Lemma linked_graft q ln lp t :
  parentPathOf lp = q ->
  ln = default "" (last (Js.filterBoolean (Js.split lp))) ->
  linked t -> linked (graft q (FolderNode ln lp []) t).
Proof.
  intros Hq Hn. induction t as [n p cs IH] using FolderTree_forall_ind. intros Hl.
  apply linked_node in Hl. cbn [graft]. apply linked_node. apply Forall_app. split.
  - apply Forall_map. rewrite Forall_forall in IH, Hl |- *. intros c Hc.
    destruct (Hl c Hc) as [[H1 H2] H3]. cbn beta.
    rewrite graft_path, graft_name. split; [split; assumption |]. now apply IH.
  - destruct (String.eqb_spec p q) as [-> | _]; [| constructor].
    constructor; [| constructor]. cbn [treePath treeName]. split; [split; assumption |].
    apply linked_node. constructor.
Qed.

Lemma createFolder_fresh b p pref parent :
  wellBuilt b ->
  p <> "/" ->
  folderMap b !! p = None ->
  folderMap b !! parentPathOf p = Some pref ->
  heap b !! pref = Some parent ->
  createFolder p b
  = mkBuilder
      (<[pref := pushChild (length (heap b)) parent]>
         (heap b ++ [Folder.mk (default "" (last (Js.filterBoolean (Js.split p)))) p []]))
      (<[p := length (heap b)]> (folderMap b)).
Proof.
  intros [_ _ Hheap Hkids _] Hp Hnew Hparent Hpref.
  assert (Hlt : (pref < length (heap b))%nat) by (eapply lookup_lt_Some; exact Hpref).
  assert (Hpq : p <> parentPathOf p) by (intros E; rewrite <- E in Hparent; congruence).
  unfold createFolder. rewrite (proj2 (String.eqb_neq _ _) Hp).
  fold (parentPathOf p). rewrite Hnew.
  rewrite lookup_insert_ne by exact Hpq. rewrite Hparent.
  rewrite lookup_app_l by exact Hlt. rewrite Hpref.
  match goal with
  | |- (if hasChildWithPath ?h parent p then _ else _) = _ =>
      assert (hasChildWithPath h parent p = false) as ->; [| reflexivity]
  end.
  unfold hasChildWithPath. apply not_true_iff_false. intros Hex.
  apply existsb_exists in Hex as (c & Hc & Hcp).
  assert (Hclt : (c < length (heap b))%nat).
  { eapply Hkids; [exact Hpref | now apply list_elem_of_In]. }
  rewrite lookup_app_l in Hcp by exact Hclt.
  destruct (heap b !! c) as [child |] eqn:Hchild; [| discriminate].
  apply String.eqb_eq in Hcp. apply Hheap in Hchild. congruence.
Qed.

Variable files : list FileMetadata.t.

(** Where the second pass stands when it reaches a path: the path is new
    and its parent is registered. *)
Lemma second_pass_next before p after :
  sortByDepth (allPaths files) = before ++ p :: after ->
  p <> "/" ->
  folderMap (foldl (fun b path => createFolder path b) initialBuilder before) !! p = None
  /\ exists pref,
       folderMap (foldl (fun b path => createFolder path b) initialBuilder before)
         !! parentPathOf p = Some pref.
Proof.
  intros E Hroot. destruct (second_pass files before (p :: after) E) as [Hwb Hreg].
  set (b := foldl (fun b path => createFolder path b) initialBuilder before) in *.
  assert (Hsorted : sortByDepth (allPaths files) ≡ₚ allPaths files) by apply sortByDepth_perm.
  assert (Hnodup : NoDup (before ++ p :: after)).
  { rewrite <- E, Hsorted. apply allPaths_NoDup. }
  split.
  - destruct (folderMap b !! p) as [l |] eqn:Hl; [| reflexivity]. exfalso.
    assert (Hr : registered b p = true) by (unfold registered; now rewrite Hl).
    apply Hreg in Hr as [-> | Hin]; [congruence |].
    apply NoDup_app in Hnodup as (_ & Hdisj & _). apply (Hdisj p Hin).
    apply elem_of_cons. now left.
  - assert (Hp : p ∈ allPaths files).
    { rewrite <- Hsorted, E. apply elem_of_app. right. apply elem_of_cons. now left. }
    apply allPaths_candidates in Hp as (segs & Hcand & ->).
    destruct segs as [|s0 segs0 _] using rev_ind; [now contradiction Hroot |].
    pose proof (candidate_segments _ _ Hcand) as Hsegs.
    pose proof (candidate_parent _ _ _ Hcand) as Hcand0.
    pose proof (candidate_segments _ _ Hcand0) as Hsegs0.
    rewrite parentPathOf_renderPath by exact Hsegs.
    apply registered_spec, Hreg.
    destruct segs0 as [|a rest]; [now left |]. right.
    assert (Hin : renderPath (a :: rest) ∈ before ++ renderPath ((a :: rest) ++ [s0]) :: after).
    { rewrite <- E, Hsorted. apply allPaths_candidates. eauto. }
    apply elem_of_app in Hin as [Hin | Hin]; [exact Hin |]. exfalso.
    apply elem_of_cons in Hin as [Hin | Hin].
    + apply renderPath_inj in Hin; [| assumption ..].
      apply (f_equal length) in Hin. rewrite length_app in Hin. cbn in Hin. lia.
    + pose proof (sortByDepth_later _ _ _ _ _ E Hin) as Hd.
      rewrite !depth_renderPath in Hd
        by (assumption || discriminate || (destruct rest; discriminate)).
      rewrite length_app in Hd. cbn in Hd. lia.
Qed.

Lemma second_pass_linked before after :
  sortByDepth (allPaths files) = before ++ after ->
  forall T,
    readFolder (length (heap (foldl (fun b path => createFolder path b) initialBuilder before)))
               (heap (foldl (fun b path => createFolder path b) initialBuilder before)) 0
    = Some T ->
    linked T.
Proof.
  revert after. induction before as [|p before IH] using rev_ind; intros after E T HT.
  - cbn in HT. injection HT as <-. apply linked_node. constructor.
  - rewrite <- app_assoc in E. cbn [app] in E. rewrite foldl_app in HT. cbn [foldl] in HT.
    destruct (second_pass files before (p :: after) E) as [Hwb Hreg].
    set (b := foldl (fun b path => createFolder path b) initialBuilder before) in *.
    destruct (decide (p = "/")) as [-> | Hroot].
    { rewrite createFolder_skip in HT by now left. eapply IH; eassumption. }
    destruct (second_pass_next before p after E Hroot) as [Hnew [pref Hparent]].
    fold b in Hnew, Hparent.
    pose proof Hwb as [_ Hmap Hheap _ (T0 & Hread & _)].
    destruct (Hmap _ _ Hparent) as (parent & Hpref & Hq).
    rewrite (createFolder_fresh b p pref parent Hwb Hroot Hnew Hparent Hpref) in HT.
    cbn [heap] in HT. rewrite length_insert, length_app in HT. cbn [length] in HT.
    rewrite Nat.add_1_r in HT.
    rewrite (read_graft (heap b) pref parent _ p Hpref) with (T := T0) in HT.
    + injection HT as <-. apply linked_graft; [now rewrite Hq | reflexivity |].
      eapply IH; eassumption.
    + intros l f Hl Ef. apply Hheap in Hl. rewrite Ef, Hq, Hparent in Hl. congruence.
    + exact Hread.
Qed.

End TreeShape.

Section TreeNodes.

Lemma nodeOf_node u n p cs :
  nodeOf u (FolderNode n p cs) <-> u = FolderNode n p cs \/ Exists (nodeOf u) cs.
Proof.
  cbn [nodeOf]. apply or_iff_compat_l.
  induction cs as [|c r IH]; [rewrite Exists_nil; tauto |].
  rewrite Exists_cons, IH. reflexivity.
Qed.

Lemma nodeOf_refl t : nodeOf t t.
Proof. destruct t. apply nodeOf_node. now left. Qed.

Lemma nodeOf_child u c t : In c (treeChildren t) -> nodeOf u c -> nodeOf u t.
Proof.
  destruct t as [n p cs]. cbn [treeChildren]. intros Hc Hu.
  apply nodeOf_node. right. apply Exists_exists. exists c.
  split; [now apply list_elem_of_In | exact Hu].
Qed.

Lemma count_node u t : nodeOf u t -> (1 <= countPath (treePath u) t)%nat.
Proof.
  induction t as [n p cs IH] using FolderTree_forall_ind. intros Hu.
  apply nodeOf_node in Hu as [-> | Hex]; [apply count_root |].
  apply Exists_exists in Hex as (c & Hc & Hu). rewrite Forall_forall in IH.
  specialize (IH c Hc Hu). cbn [countPath].
  pose proof (sum_list_with_in c (countPath (treePath u)) cs Hc). lia.
Qed.

Lemma count_pos_node p t : (1 <= countPath p t)%nat -> exists u, nodeOf u t /\ treePath u = p.
Proof.
  induction t as [n q cs IH] using FolderTree_forall_ind. intros H. cbn [countPath] in H.
  destruct (String.eqb_spec q p) as [-> | Hne].
  - exists (FolderNode n p cs). split; [apply nodeOf_refl | reflexivity].
  - assert (Hex : exists c, c ∈ cs /\ (1 <= countPath p c)%nat).
    { clear IH. induction cs as [|c r IHr]; cbn [sum_list_with] in H; [lia |].
      destruct (countPath p c) eqn:Ec.
      - destruct IHr as (c' & Hc' & Hp); [lia |]. exists c'. split; [now right | exact Hp].
      - exists c. split; [now left | lia]. }
    destruct Hex as (c & Hc & Hp). rewrite Forall_forall in IH.
    destruct (IH c Hc Hp) as (u & Hu & Hpath). exists u. split; [| exact Hpath].
    apply nodeOf_node. right. apply Exists_exists. eauto.
Qed.

Lemma nodeOf_parent u t :
  nodeOf u t -> u = t \/ exists v, nodeOf v t /\ In u (treeChildren v).
Proof.
  induction t as [n p cs IH] using FolderTree_forall_ind. intros Hu.
  apply nodeOf_node in Hu as [-> | Hex]; [now left |]. right.
  apply Exists_exists in Hex as (c & Hc & Hu). rewrite Forall_forall in IH.
  destruct (IH c Hc Hu) as [-> | (v & Hv & Hin)].
  - exists (FolderNode n p cs). split; [apply nodeOf_refl | now apply list_elem_of_In].
  - exists v. split; [| exact Hin].
    apply nodeOf_node. right. apply Exists_exists. eauto.
Qed.

End TreeNodes.

Section BuiltTree.

Lemma built_tree files :
  exists root,
    buildFolderStructure files = Some [root]
    /\ treePath root = "/"
    /\ (forall p, countPath p root = if bool_decide (p ∈ allPaths files) then 1%nat else 0%nat)
    /\ linked root.
Proof.
  destruct (buildFolderGraph_wellBuilt files) as [[Hroot Hmap _ _ (T & Hread & Hcount)] Hreg].
  exists T. split; [| split; [| split]].
  - unfold buildFolderStructure. cbn [mapM]. rewrite Hread. reflexivity.
  - destruct (Hmap _ _ Hroot) as (f & Hf & Hpath).
    destruct (length (heap (buildFolderGraph files))) as [|n]; [discriminate |].
    cbn [readFolder] in Hread. rewrite Hf in Hread.
    destruct (mapM _ _); [| discriminate]. injection Hread as <-. exact Hpath.
  - intros p. rewrite Hcount. destruct (registered (buildFolderGraph files) p) eqn:Hr.
    + apply Hreg in Hr. now rewrite bool_decide_eq_true_2.
    + rewrite bool_decide_eq_false_2; [reflexivity |]. intros Hin. apply Hreg in Hin. congruence.
  - apply (second_pass_linked files (sortByDepth (allPaths files)) []
             (eq_sym (app_nil_r _)) T Hread).
Qed.

Lemma linked_nodeOf u t : linked t -> nodeOf u t -> linked u.
Proof.
  induction t as [n p cs IH] using FolderTree_forall_ind. intros Hl Hu.
  apply nodeOf_node in Hu as [-> | Hex]; [exact Hl |].
  apply linked_node in Hl. apply Exists_exists in Hex as (c & Hc & Hu).
  rewrite Forall_forall in IH, Hl. apply (IH c Hc); [apply (Hl c Hc) | exact Hu].
Qed.

Lemma linked_child u c :
  linked u -> In c (treeChildren u) ->
  parentPathOf (treePath c) = treePath u
  /\ treeName c = default "" (last (Js.filterBoolean (Js.split (treePath c)))).
Proof.
  destruct u as [n p cs]. intros Hl Hc. apply linked_node in Hl.
  rewrite Forall_forall in Hl. apply Hl. now apply list_elem_of_In.
Qed.

Lemma findBelow_node path n p cs :
  findBelow path (FolderNode n p cs)
  = if String.eqb p path then Some (FolderNode n p cs) else findFolder cs path.
Proof.
  cbn [findBelow]. destruct (String.eqb p path); [reflexivity |].
  induction cs as [|c r IH]; [reflexivity |].
  cbn [findFolder]. destruct (findBelow path c); [reflexivity | exact IH].
Qed.

Lemma findBelow_sound path t u :
  findBelow path t = Some u -> nodeOf u t /\ treePath u = path.
Proof.
  induction t as [n p cs IH] using FolderTree_forall_ind. rewrite findBelow_node.
  destruct (String.eqb_spec p path) as [-> | Hne].
  - intros [= <-]. split; [apply nodeOf_refl | reflexivity].
  - intros Hf.
    assert (Hex : exists c, c ∈ cs /\ findBelow path c = Some u).
    { clear IH. induction cs as [|c r IHr]; [discriminate |]. cbn [findFolder] in Hf.
      destruct (findBelow path c) eqn:Ec.
      - injection Hf as ->. exists c. split; [now left | exact Ec].
      - destruct (IHr Hf) as (c' & Hc' & E). exists c'. split; [now right | exact E]. }
    destruct Hex as (c & Hc & E). rewrite Forall_forall in IH.
    destruct (IH c Hc E) as [Hu Hp]. split; [| exact Hp].
    apply nodeOf_node. right. apply Exists_exists. eauto.
Qed.

Lemma findBelow_none path t : findBelow path t = None <-> countPath path t = 0%nat.
Proof.
  induction t as [n p cs IH] using FolderTree_forall_ind. rewrite findBelow_node.
  cbn [countPath]. destruct (String.eqb p path); [split; [discriminate | lia] |].
  cbn [Nat.add]. induction cs as [|c r IHr]; [tauto |].
  apply Forall_cons in IH as [Hc Hr]. specialize (IHr Hr).
  cbn [findFolder sum_list_with]. destruct (findBelow path c) eqn:Ec.
  - split; [discriminate |]. intros H. assert (E0 : countPath path c = 0%nat) by lia.
    apply Hc in E0. discriminate.
  - rewrite IHr. assert (E0 : countPath path c = 0%nat) by now apply Hc. lia.
Qed.

Lemma findFolder_sound path fs u :
  findFolder fs path = Some u -> exists t, In t fs /\ nodeOf u t /\ treePath u = path.
Proof.
  induction fs as [|t r IH]; [discriminate |]. cbn [findFolder].
  destruct (findBelow path t) eqn:Et.
  - intros [= ->]. exists t. split; [now left | now apply findBelow_sound].
  - intros H. destruct (IH H) as (t' & Ht' & Hu). exists t'. split; [now right | exact Hu].
Qed.

Lemma findFolder_none path fs :
  findFolder fs path = None <-> sum_list_with (countPath path) fs = 0%nat.
Proof.
  induction fs as [|t r IH]; [tauto |]. cbn [findFolder sum_list_with].
  destruct (findBelow path t) eqn:Et.
  - split; [discriminate |]. intros H. assert (E0 : countPath path t = 0%nat) by lia.
    apply findBelow_none in E0. congruence.
  - apply findBelow_none in Et. rewrite IH. lia.
Qed.

(** In a tree where a path occurs once, the node that carries it is the
    one the search finds. *)
Lemma count_one_unique p t u v :
  (countPath p t <= 1)%nat -> nodeOf u t -> nodeOf v t ->
  treePath u = p -> treePath v = p -> u = v.
Proof.
  induction t as [n q cs IH] using FolderTree_forall_ind. intros Hle Hu Hv Pu Pv.
  cbn [countPath] in Hle.
  assert (Hsub : forall w c, c ∈ cs -> nodeOf w c -> treePath w = p ->
                             (1 <= sum_list_with (countPath p) cs)%nat).
  { intros w c Hc Hw Pw. pose proof (count_node w c Hw) as H1. rewrite Pw in H1.
    pose proof (sum_list_with_in c (countPath p) cs Hc). lia. }
  apply nodeOf_node in Hu as [-> | Hu]; apply nodeOf_node in Hv as [-> | Hv].
  - reflexivity.
  - exfalso. cbn [treePath] in Pu. subst q. rewrite String.eqb_refl in Hle.
    apply Exists_exists in Hv as (c & Hc & Hv). specialize (Hsub v c Hc Hv Pv). lia.
  - exfalso. cbn [treePath] in Pv. subst q. rewrite String.eqb_refl in Hle.
    apply Exists_exists in Hu as (c & Hc & Hu). specialize (Hsub u c Hc Hu Pu). lia.
  - apply Exists_exists in Hu as (c & Hc & Hu). apply Exists_exists in Hv as (c' & Hc' & Hv).
    assert (Hs : (sum_list_with (countPath p) cs <= 1)%nat) by lia.
    assert (c = c').
    { clear IH Hle Hsub. induction cs as [|x r IHr]; [now apply elem_of_nil in Hc |].
      cbn [sum_list_with] in Hs.
      pose proof (count_node u c Hu) as H1. rewrite Pu in H1.
      pose proof (count_node v c' Hv) as H2. rewrite Pv in H2.
      apply elem_of_cons in Hc as [-> | Hc]; apply elem_of_cons in Hc' as [-> | Hc'].
      - reflexivity.
      - pose proof (sum_list_with_in c' (countPath p) r Hc'). lia.
      - pose proof (sum_list_with_in c (countPath p) r Hc). lia.
      - apply IHr; [assumption | assumption | lia]. }
    subst c'. rewrite Forall_forall in IH. apply (IH c Hc); try assumption.
    pose proof (sum_list_with_in c (countPath p) cs Hc). lia.
Qed.

Lemma siblingsDistinct_nodeOf u t :
  siblingsDistinct t -> nodeOf u t -> NoDup (map treePath (treeChildren u)).
Proof.
  induction t as [n p cs IH] using FolderTree_forall_ind. intros Hd Hu.
  apply siblingsDistinct_node in Hd as [Hnd Hall].
  apply nodeOf_node in Hu as [-> | Hex]; [exact Hnd |].
  apply Exists_exists in Hex as (c & Hc & Hu). rewrite Forall_forall in IH, Hall.
  now apply (IH c Hc); [apply Hall |].
Qed.

Lemma count_proper p u c t :
  nodeOf u t -> In c (treeChildren u) ->
  ((if String.eqb (treePath t) p then 1 else 0) + countPath p c <= countPath p t)%nat.
Proof.
  induction t as [n q cs IH] using FolderTree_forall_ind. intros Hu Hc.
  cbn [treePath countPath]. apply nodeOf_node in Hu as [-> | Hex].
  - cbn [treeChildren] in Hc. apply list_elem_of_In in Hc.
    pose proof (sum_list_with_in c (countPath p) cs Hc). lia.
  - apply Exists_exists in Hex as (c0 & Hc0 & Hu). rewrite Forall_forall in IH.
    specialize (IH c0 Hc0 Hu Hc).
    pose proof (sum_list_with_in c0 (countPath p) cs Hc0). lia.
Qed.

End BuiltTree.

(** X12. In the tree that [buildFolderStructure] returns, every child
    hangs under its parent path: the path of a child without its last
    segment is the path of the node it is a child of, and the name of the
    child is that last segment.  The root has the path [/]. *)
Theorem buildFolderStructure_children_under_parent (files : list FileMetadata.t) :
  exists root,
    buildFolderStructure files = Some [root]
    /\ treePath root = "/"
    /\ forall u c, nodeOf u root -> In c (treeChildren u) ->
         parentPathOf (treePath c) = treePath u
         /\ treeName c = default "" (last (Js.filterBoolean (Js.split (treePath c))))
         /\ treePath c <> "/".
Proof.
  destruct (built_tree files) as (root & Hb & Hroot & Hcount & Hl).
  exists root. split; [exact Hb |]. split; [exact Hroot |]. intros u c Hu Hc.
  destruct (linked_child u c (linked_nodeOf u root Hl Hu) Hc) as [Hp Hn].
  split; [exact Hp |]. split; [exact Hn |]. intros Hslash.
  pose proof (count_proper "/" u c root Hu Hc) as H.
  rewrite Hroot in H. cbn in H. specialize (Hcount "/").
  pose proof (count_root c) as H1. rewrite Hslash in H1.
  destruct (bool_decide _); lia.
Qed.

Example subfolders_scenario :
  let mk k := FileMetadata.mk "" NoUrl "" 0 "" "" k false in
  exists root,
    buildFolderStructure [mk "a/b/x.png"; mk "d.png"] = Some [root]
    /\ map treePath (getSubFolders [root] "/a") = ["/a/b"].
Proof. intros mk. eexists. split; vm_compute; reflexivity. Qed.

(** X13. [findFolder] returns a node that carries the path it was asked
    for and that belongs to one of the given trees, and it returns nothing
    exactly when no node of the trees carries the path; [getSubFolders] is
    then empty. *)
Theorem findFolder_finds_path (fs : list FolderTree) (path : string) :
  (forall u, findFolder fs path = Some u ->
             treePath u = path /\ exists t, In t fs /\ nodeOf u t)
  /\ (findFolder fs path = None <-> sum_list_with (countPath path) fs = 0%nat)
  /\ (sum_list_with (countPath path) fs = 0%nat -> getSubFolders fs path = []).
Proof.
  split; [| split].
  - intros u Hu. destruct (findFolder_sound path fs u Hu) as (t & Ht & Hn & Hp).
    split; [exact Hp |]. exists t. split; assumption.
  - apply findFolder_none.
  - intros H. apply findFolder_none in H. unfold getSubFolders. now rewrite H.
Qed.

(** X14. The sub-folders that the page shows for a path, taken from the
    tree built from a listing, are the candidate paths whose parent is that
    path, each once: [getSubFolders] on the result of
    [buildFolderStructure] returns the children whose paths are the paths of
    [allPaths] other than the root that give the asked path when their last
    segment is removed. *)
Theorem getSubFolders_of_built_tree (files : list FileMetadata.t) (q : string) :
  exists root,
    buildFolderStructure files = Some [root]
    /\ (forall c, c ∈ map treePath (getSubFolders [root] q)
                  <-> c ∈ allPaths files /\ c <> "/" /\ parentPathOf c = q)
    /\ NoDup (map treePath (getSubFolders [root] q)).
Proof.
  destruct (built_tree files) as (root & Hb & Hroot & Hcount & Hl).
  assert (Hle : forall p, (countPath p root <= 1)%nat).
  { intros p. rewrite Hcount. destruct (bool_decide _); lia. }
  assert (Hin : forall p, (1 <= countPath p root)%nat -> p ∈ allPaths files).
  { intros p H. rewrite Hcount in H. destruct (bool_decide_reflect (p ∈ allPaths files)); [assumption | lia]. }
  assert (Hget : getSubFolders [root] q
                 = match findBelow q root with Some t => treeChildren t | None => [] end).
  { unfold getSubFolders. cbn [findFolder]. now destruct (findBelow q root). }
  exists root. split; [exact Hb |]. rewrite Hget. split.
  - intros c. split.
    + intros Hc. destruct (findBelow q root) as [t |] eqn:Et; [| now apply elem_of_nil in Hc].
      apply findBelow_sound in Et as [Ht Hq].
      apply list_elem_of_fmap in Hc as (s & -> & Hs). apply list_elem_of_In in Hs.
      destruct (linked_child t s (linked_nodeOf t root Hl Ht) Hs) as [Hp _].
      pose proof (count_root s) as H1.
      split; [| split].
      * apply Hin. pose proof (count_proper (treePath s) t s root Ht Hs). lia.
      * intros Hslash. pose proof (count_proper "/" t s root Ht Hs) as H.
        rewrite Hroot in H. cbn in H. rewrite Hslash in H1. specialize (Hle "/"). lia.
      * now rewrite Hp.
    + intros (Hc & Hne & Hp).
      assert (H1 : (1 <= countPath c root)%nat).
      { rewrite Hcount, bool_decide_eq_true_2 by exact Hc. lia. }
      apply count_pos_node in H1 as (s & Hs & Hpath).
      destruct (nodeOf_parent s root Hs) as [-> | (v & Hv & Hsv)]; [congruence |].
      destruct (linked_child v s (linked_nodeOf v root Hl Hv) Hsv) as [Hpv _].
      rewrite Hpath, Hp in Hpv.
      destruct (findBelow q root) as [t |] eqn:Et.
      * apply findBelow_sound in Et as [Ht Hq].
        assert (t = v) as ->.
        { apply (count_one_unique q root); auto. }
        apply list_elem_of_fmap. exists s. split; [now rewrite Hpath | now apply list_elem_of_In].
      * apply findBelow_none in Et. pose proof (count_node v root Hv) as H2.
        rewrite <- Hpv in H2. lia.
  - destruct (findBelow q root) as [t |] eqn:Et; [| constructor].
    apply findBelow_sound in Et as [Ht _].
    apply (siblingsDistinct_nodeOf t root); [| exact Ht].
    apply count_le_one_siblings. exact Hle.
Qed.

(** ** Deleting a folder from the page *)

Section DeleteFromPage.

Lemma dropFolder_node path n p cs :
  dropFolder path (FolderNode n p cs) = FolderNode n p (updateFolders path cs).
Proof.
  cbn [dropFolder]. f_equal. unfold updateFolders.
  induction cs as [|c r IH]; [reflexivity |]. cbn [List.filter].
  destruct (negb (String.eqb (treePath c) path)); [cbn [map]; now rewrite IH | exact IH].
Qed.

Lemma dropFolder_path path t : treePath (dropFolder path t) = treePath t.
Proof. destruct t. reflexivity. Qed.

Lemma dropFolder_count path q t :
  (countPath q (dropFolder path t) <= countPath q t)%nat
  /\ (treePath t <> path -> countPath path (dropFolder path t) = 0%nat).
Proof.
  induction t as [n p cs IH] using FolderTree_forall_ind.
  rewrite dropFolder_node. cbn [countPath treePath].
  assert (Hsum : (sum_list_with (countPath q) (updateFolders path cs)
                  <= sum_list_with (countPath q) cs)%nat
                 /\ sum_list_with (countPath path) (updateFolders path cs) = 0%nat).
  { unfold updateFolders. induction cs as [|c r IHr]; [split; reflexivity |].
    apply Forall_cons in IH as [[Hc1 Hc2] Hr]. destruct (IHr Hr) as [I1 I2].
    cbn [List.filter]. destruct (String.eqb_spec (treePath c) path) as [E | E]; cbn [negb].
    - split; [cbn [sum_list_with]; lia | exact I2].
    - cbn [map sum_list_with]. split; [lia |]. rewrite (Hc2 E), I2. reflexivity. }
  destruct Hsum as [S1 S2]. split; [lia |]. intros Hne.
  rewrite (proj2 (String.eqb_neq _ _) Hne), S2. reflexivity.
Qed.

Lemma updateFolders_count path q fs :
  (sum_list_with (countPath q) (updateFolders path fs) <= sum_list_with (countPath q) fs)%nat
  /\ sum_list_with (countPath path) (updateFolders path fs) = 0%nat.
Proof.
  unfold updateFolders. induction fs as [|c r [I1 I2]]; [split; reflexivity |].
  destruct (dropFolder_count path q c) as [Hc1 _].
  destruct (dropFolder_count path path c) as [_ Hc2].
  cbn [List.filter]. destruct (String.eqb_spec (treePath c) path) as [E | E]; cbn [negb].
  - split; [cbn [sum_list_with]; lia | exact I2].
  - cbn [map sum_list_with]. split; [lia |]. rewrite (Hc2 E), I2. reflexivity.
Qed.

End DeleteFromPage.

(** X15. [handleDeleteFolder] on a folder other than the root: without
    confirmation nothing is sent and the page is unchanged; otherwise the
    store is changed by [deleteFolder] alone.  When the deletion succeeds,
    no node of the page's trees carries the deleted path any more and no
    path gained a node, the selection moves to the parent folder if the
    deleted folder was selected and stays where it was otherwise, the list
    of files is left as it was, and a refresh is triggered.  When it fails,
    the trees, the selection and the refresh counter are unchanged. *)
Theorem handleDeleteFolder_updates_page
    (folderName : string) (segs : list string) (s : string) (pg : Page) (w : World) :
  Forall segment (segs ++ [s]) ->
  let path := renderPath (segs ++ [s]) in
  handleDeleteFolder false folderName path pg w = (pg, w)
  /\ snd (handleDeleteFolder true folderName path pg w) = snd (deleteFolder path w)
  /\ (fst (deleteFolder path w) = Ok tt ->
      let pg' := fst (handleDeleteFolder true folderName path pg w) in
      sum_list_with (countPath path) (folders pg') = 0%nat
      /\ (forall q, (sum_list_with (countPath q) (folders pg')
                     <= sum_list_with (countPath q) (folders pg))%nat)
      /\ selectedFolder pg'
         = (if String.eqb (selectedFolder pg) path then renderPath segs else selectedFolder pg)
      /\ files pg' = files pg
      /\ toasts pg' = toasts pg ++ [FolderDeleted folderName]
      /\ refreshTrigger pg' = S (refreshTrigger pg))
  /\ (forall e, fst (deleteFolder path w) = Err e ->
      fst (handleDeleteFolder true folderName path pg w) = toast FailedToDeleteFolder pg).
Proof.
  intros Hsegs path.
  assert (Hroot : String.eqb path "/" = false).
  { apply renderPath_not_root; [now destruct segs | exact Hsegs]. }
  unfold handleDeleteFolder. rewrite Hroot. cbn [negb].
  split; [reflexivity |].
  destruct (deleteFolder path w) as [[[] | e] w'] eqn:Ed; cbn [fst snd].
  - split; [reflexivity |]. split; [| intros e' H; discriminate H]. intros _.
    cbn [folders selectedFolder files toasts refreshTrigger].
    split; [apply (updateFolders_count path path) |].
    split; [intros q; apply (updateFolders_count path q) |].
    split; [| split; [reflexivity | split; reflexivity]].
    unfold path. now rewrite parentPathOf_renderPath.
  - split; [reflexivity |]. split; [intros H; discriminate H |]. intros e' _. reflexivity.
Qed.

Lemma handleDeleteFolder_updates_page_witness :
  let tree := FolderNode "Root" "/" [FolderNode "a" "/a" [FolderNode "b" "/a/b" []]] in
  let pg := mkPage [] [tree] "/a/b" [] 0 in
  selectedFolder (fst (handleDeleteFolder true "b" "/a/b" pg emptyBucket)) = "/a"
  /\ folders (fst (handleDeleteFolder true "b" "/a/b" pg emptyBucket))
     = [FolderNode "Root" "/" [FolderNode "a" "/a" []]].
Proof.
  intros tree pg.
  destruct (handleDeleteFolder_updates_page "b" ["a"] "b" pg emptyBucket) as (_ & _ & H & _).
  - repeat constructor.
  - destruct H as (_ & _ & Hsel & _); [reflexivity |].
    split; [exact Hsel | reflexivity].
Defined.

(** ** Breadcrumbs *)

Section Breadcrumbs.

Lemma imap_links (done rest : list string) :
  imap (fun index segment =>
          (segment, "/" +:+ Js.join (take (S (length done + index)) (done ++ rest)))) rest
  = map (fun pre => (default "" (last pre), renderPath (done ++ pre))) (nonemptyPrefixes rest).
Proof.
  revert done. induction rest as [|x rest IH]; intros done; [reflexivity |].
  cbn [imap nonemptyPrefixes map]. f_equal.
  - cbn [last default]. unfold renderPath. do 2 f_equal.
    rewrite Nat.add_0_r.
    replace (S (length done)) with (length (done ++ [x])) by (rewrite length_app; cbn; lia).
    rewrite (cons_middle x done rest), app_assoc. now rewrite take_app_length.
  - rewrite map_map.
    rewrite (imap_ext _ (fun index segment =>
               (segment, "/" +:+ Js.join (take (S (length (done ++ [x]) + index))
                                              ((done ++ [x]) ++ rest))))).
    + rewrite IH. apply map_ext_in. intros pre Hpre.
      apply list_elem_of_In, nonemptyPrefixes_elem in Hpre as [Hne _].
      rewrite <- app_assoc. cbn [app]. f_equal.
      destruct pre; [congruence | reflexivity].
    + intros index segment _. cbn [compose]. rewrite <- app_assoc. cbn [app].
      rewrite length_app. cbn [length]. do 4 f_equal. lia.
Qed.

Lemma last_prefix_elem (pre segs : list string) :
  pre <> [] -> pre `prefix_of` segs -> default "" (last pre) ∈ segs.
Proof.
  intros Hne [rest ->]. apply elem_of_app. left.
  destruct pre as [|a pre _] using rev_ind; [congruence |].
  rewrite last_snoc. apply elem_of_app. right. now left.
Qed.

End Breadcrumbs.

(** X16. The breadcrumb links of a selected folder made of segments are
    its ancestors on the way down, the folder itself last: one link per
    non-empty prefix of the segments, labelled with the last segment of the
    prefix and leading to the path of the prefix; at the root there is no
    link.  When the selected folder is a folder of the tree built from a
    listing, so is the target of every link. *)
Theorem breadcrumbs_are_ancestors (segs : list string) :
  Forall segment segs ->
  breadcrumbs (renderPath segs)
  = map (fun pre => (default "" (last pre), renderPath pre)) (nonemptyPrefixes segs)
  /\ length (breadcrumbs (renderPath segs)) = length segs
  /\ (segs <> [] -> last (map snd (breadcrumbs (renderPath segs))) = Some (renderPath segs))
  /\ (forall files, renderPath segs ∈ allPaths files ->
        forall link, In link (breadcrumbs (renderPath segs)) -> snd link ∈ allPaths files).
Proof.
  intros Hsegs.
  assert (E : breadcrumbs (renderPath segs)
              = map (fun pre => (default "" (last pre), renderPath pre)) (nonemptyPrefixes segs)).
  { unfold breadcrumbs. destruct segs as [|a segs]; [reflexivity |].
    rewrite renderPath_not_root by (discriminate || assumption).
    cbv zeta. rewrite parts_of_renderPath by exact Hsegs.
    exact (imap_links [] (a :: segs)). }
  rewrite E. split; [reflexivity |]. split; [| split].
  - rewrite length_map. clear. induction segs as [|a segs IH]; [reflexivity |].
    cbn [nonemptyPrefixes length]. now rewrite length_map, IH.
  - intros Hne. rewrite map_map. cbn [snd]. clear E Hsegs.
    induction segs as [|a segs IH] using rev_ind; [congruence |]. clear IH Hne.
    assert (H : nonemptyPrefixes (segs ++ [a])
                = nonemptyPrefixes segs ++ [segs ++ [a]]).
    { induction segs as [|b segs IH]; [reflexivity |].
      cbn [app nonemptyPrefixes]. rewrite IH, map_app. reflexivity. }
    rewrite H, map_app. cbn [map]. apply last_snoc.
  - intros files Hin link Hlink. apply in_map_iff in Hlink as (pre & <- & Hpre).
    cbn [snd]. apply list_elem_of_In, nonemptyPrefixes_elem in Hpre as [Hne [rest Hrest]].
    apply allPaths_candidates in Hin as (segs' & Hcand & Hrender).
    pose proof (candidate_segments _ _ Hcand) as Hsegs'.
    apply renderPath_inj in Hrender; [| assumption ..]. subst segs'.
    apply allPaths_candidates. exists pre. split; [| reflexivity].
    subst segs. clear E Hsegs Hsegs'.
    induction rest as [|r rest IH] using rev_ind.
    + rewrite app_nil_r in Hcand. exact Hcand.
    + apply IH. rewrite app_assoc in Hcand. now apply candidate_parent in Hcand.
Qed.

Lemma breadcrumbs_are_ancestors_witness :
  breadcrumbs "/a/b/c" = [("a", "/a"); ("b", "/a/b"); ("c", "/a/b/c")].
Proof.
  destruct (breadcrumbs_are_ancestors ["a"; "b"; "c"]) as [H _].
  - repeat constructor.
  - exact H.
Defined.

(** ** A deleted folder, listed again *)

Section DeletedFolder.

Lemma append_nil_r (a : string) : a +:+ "" = a.
Proof. induction a as [|c a IH]; [reflexivity |]. simpl. now rewrite IH. Qed.

Lemma hasPrefix_app p x : hasPrefix p (p +:+ x) = true.
Proof.
  induction p as [|c p IH]; [now destruct x |].
  simpl. now rewrite Ascii.eqb_refl, IH.
Qed.

Lemma key_under_dir k :
  Js.includesSlash k = true -> exists b, k = Js.beforeLastSlash k +:+ "/" +:+ b.
Proof.
  induction k as [|c r IH]; [discriminate |]. simpl.
  destruct (Js.includesSlash r) eqn:Hr.
  - intros _. destruct (IH eq_refl) as [b Hb]. exists b. simpl. f_equal. exact Hb.
  - rewrite orb_false_r. intros Hc. apply Ascii.eqb_eq in Hc. subst c. now exists r.
Qed.

Lemma join_app segs more :
  segs <> [] -> more <> [] ->
  Js.join (segs ++ more) = Js.join segs +:+ "/" +:+ Js.join more.
Proof.
  intros Hs Hm. induction segs as [|a segs IH]; [congruence |].
  destruct segs as [|b segs].
  - destruct more; [congruence | reflexivity].
  - change (Js.join ((a :: b :: segs) ++ more))
      with (a +:+ "/" +:+ Js.join ((b :: segs) ++ more)).
    rewrite IH by discriminate.
    change (Js.join (a :: b :: segs)) with (a +:+ "/" +:+ Js.join (b :: segs)).
    now rewrite <- !append_assoc.
Qed.

Lemma join_nonempty segs : segs <> [] -> Forall segment segs -> Js.join segs <> "".
Proof.
  intros Hne Hall. destruct segs as [|a segs]; [congruence |].
  apply Forall_cons in Hall as [[Ha _] _]. destruct a; [discriminate |].
  destruct segs; discriminate.
Qed.

Lemma endsWithSlash_app x y : y <> "" -> Js.endsWithSlash (x +:+ y) = Js.endsWithSlash y.
Proof.
  intros Hy. induction x as [|c x IH]; [reflexivity |].
  change (String c x +:+ y) with (String c (x +:+ y)).
  rewrite endsWithSlash_cons; [exact IH |]. destruct x; [exact Hy | discriminate].
Qed.

Lemma endsWithSlash_segment a : Js.includesSlash a = false -> Js.endsWithSlash a = false.
Proof.
  induction a as [|c a IH]; [reflexivity |]. simpl.
  intros H. apply orb_false_iff in H as [Hc Ha]. destruct a; [exact Hc | now apply IH].
Qed.

Lemma join_not_trailing segs :
  segs <> [] -> Forall segment segs -> Js.endsWithSlash (Js.join segs) = false.
Proof.
  intros Hne Hall. destruct segs as [|a segs _] using rev_ind; [congruence |].
  apply Forall_app in Hall as [_ Ha]. apply Forall_cons in Ha as [[Ht Hs] _].
  destruct segs as [|b segs].
  - now apply endsWithSlash_segment.
  - rewrite join_snoc by discriminate. rewrite <- append_assoc.
    rewrite endsWithSlash_app by (now destruct a). now apply endsWithSlash_segment.
Qed.

Lemma filter_none {A} (f : A -> bool) (l : list A) :
  (forall x, In x l -> f x = false) -> List.filter f l = [].
Proof.
  intros H. induction l as [|a l IH]; [reflexivity |]. cbn [List.filter].
  rewrite (H a) by now left. apply IH. intros x Hx. apply H. now right.
Qed.

End DeletedFolder.

(** X17. Deleting a folder that fits one page of the listing makes it
    empty for the page: with an adapter that rejects nothing and a bucket
    without empty keys, after [deleteFolder] on a folder made of segments
    whose objects are no more than the store lists at once, the objects left
    are exactly those whose key does not start with the folder's prefix,
    listing the prefix again returns nothing, and in a listing of the
    bucket taken afterwards no file is shown in the folder or in any folder
    below it. *)
Theorem deleted_folder_lists_empty (segs : list string) (w : World) :
  segs <> [] ->
  Forall segment segs ->
  (forall n c, fails w n c = false) ->
  Forall (fun o => okey o <> "") (objects w) ->
  (length (List.filter (fun o => hasPrefix (Js.join segs +:+ "/") (okey o)) (objects w))
   <= maxKeys w)%nat ->
  let w' := snd (deleteFolder (renderPath segs) w) in
  fst (deleteFolder (renderPath segs) w) = Ok tt
  /\ objects w'
     = List.filter (fun o => negb (hasPrefix (Js.join segs +:+ "/") (okey o))) (objects w)
  /\ page (Js.join segs +:+ "/") w' = []
  /\ forall date cps more,
       directFiles date cps (Some (map describe (page "" w'))) (renderPath (segs ++ more)) = [].
Proof.
  intros Hne Hsegs Hok Hkeys Hfit w'.
  assert (Hprefix : deletePrefix (renderPath segs) = Js.join segs +:+ "/").
  { unfold renderPath. apply deletePrefix_slashed; [now apply join_nonempty |].
    now apply join_not_trailing. }
  assert (Hroot : renderPath segs <> "/").
  { apply String.eqb_neq. now apply renderPath_not_root. }
  destruct (deleteFolder_deletes_listed_page (renderPath segs) w Hroot Hok Hkeys)
    as (Hr & _ & Hobj & _ & Hgone & _).
  rewrite Hprefix in Hobj, Hgone. specialize (Hgone Hfit). fold w' in Hobj, Hgone.
  assert (Hleft : objects w'
                  = List.filter (fun o => negb (hasPrefix (Js.join segs +:+ "/") (okey o)))
                      (objects w)).
  { rewrite Hobj. apply filter_ext_in. intros o Ho. f_equal.
    destruct (hasPrefix (Js.join segs +:+ "/") (okey o)) eqn:Hp.
    - apply bool_decide_eq_true. apply list_elem_of_fmap. exists o. split; [reflexivity |].
      unfold page. rewrite take_ge by exact Hfit. apply list_elem_of_In, List.filter_In.
      now split.
    - apply bool_decide_eq_false. intros Hin. apply list_elem_of_fmap in Hin as (o' & Hk & Ho').
      apply list_elem_of_In, page_under_prefix in Ho' as [Hp' _]. congruence. }
  split; [exact Hr |]. split; [exact Hleft |]. split.
  - unfold page.
    assert (List.filter (fun o => hasPrefix (Js.join segs +:+ "/") (okey o)) (objects w') = [])
      as ->; [| now destruct (maxKeys w')].
    apply filter_none. exact Hgone.
  - intros date cps more. rewrite directFiles_filter.
    assert (List.filter (shownIn (renderPath (segs ++ more))) (map describe (page "" w')) = [])
      as ->; [| reflexivity].
    apply filter_none. intros item Hitem.
    destruct (shownIn (renderPath (segs ++ more)) item) eqn:Hshown; [exfalso | reflexivity].
    apply in_map_iff in Hitem as (o & <- & Ho).
    apply page_under_prefix in Ho as [_ Ho]. specialize (Hgone o Ho).
    unfold shownIn in Hshown. apply andb_true_iff in Hshown as [_ Hb].
    unfold belongsTo in Hb. change (keyOr (describe o)) with (okey o) in Hb.
    assert (Hnonempty : Js.join (segs ++ more) <> "").
    { destruct segs as [|a segs]; [congruence |].
      apply Forall_cons in Hsegs as [[Ha _] _]. destruct a; [discriminate |].
      cbn [app]. destruct (segs ++ more); discriminate. }
    assert (Hj : exists y, Js.join (segs ++ more) +:+ "/" = (Js.join segs +:+ "/") +:+ y).
    { destruct more as [|m more].
      - rewrite app_nil_r. exists "". now rewrite append_nil_r.
      - rewrite join_app by (assumption || discriminate).
        exists (Js.join (m :: more) +:+ "/"). now rewrite !append_assoc. }
    destruct Hj as (y & Hy).
    assert (Hnr : String.eqb (renderPath (segs ++ more)) "/" = false).
    { apply String.eqb_neq. unfold renderPath. intros H. injection H as H. congruence. }
    rewrite Hnr in Hb. change (Js.startsWithSlash (renderPath (segs ++ more))) with true in Hb.
    cbv iota in Hb.
    change (Js.slice1 (renderPath (segs ++ more))) with (Js.join (segs ++ more)) in Hb.
    apply String.eqb_eq in Hb. unfold dirKey in Hb.
    destruct (Js.includesSlash (okey o)) eqn:Hs; [| congruence].
    destruct (key_under_dir (okey o) Hs) as [b Hkey].
    rewrite Hb, <- append_assoc, Hy, append_assoc in Hkey.
    rewrite Hkey, hasPrefix_app in Hgone. discriminate.
Qed.

Lemma deleted_folder_lists_empty_witness :
  let w := mkWorld [mkStored "a/b/x.png" 9 "2024-01-01"; mkStored "a/.keep" 0 "2024-01-01";
                    mkStored "ab.png" 3 "2024-01-01"]
                   [] (fun _ _ => false) 1000 "2024-01-02" in
  objects (snd (deleteFolder "/a" w)) = [mkStored "ab.png" 3 "2024-01-01"]
  /\ directFiles "2024-01-03" None
       (Some (map describe (page "" (snd (deleteFolder "/a" w))))) "/a/b" = [].
Proof.
  intros w.
  destruct (deleted_folder_lists_empty ["a"] w) as (_ & H2 & _ & H4).
  - discriminate.
  - repeat constructor.
  - reflexivity.
  - repeat constructor; discriminate.
  - vm_compute. lia.
  - split; [exact H2 | exact (H4 "2024-01-03" None ["b"])].
Defined.


(** ** Dropping plain files: what is skipped and what is reported *)

Section DropAccounting.




End DropAccounting.



(** ** Folder entries of the two branches of [listFiles] *)

Section FolderEntries.

Lemma init_snoc {A} (l : list A) x : Js.init (l ++ [x]) = l.
Proof. unfold Js.init. apply removelast_last. Qed.

Lemma parent_of_parts segs :
  "/" +:+ (if (0 <? length segs)%nat then Js.join segs else "") = renderPath segs.
Proof. now destruct segs. Qed.

End FolderEntries.

(** X19. Both branches of [listFiles] describe a folder in the same way.
    For a folder whose key is made of segments, the entry made from a
    common prefix in the branch for a folder (with or without the trailing
    slash in the prefix), and the entry made in the root branch for a
    folder detected in a key, are folder entries named by the last segment,
    placed in the folder of the segments before it, of size 0 and without a
    signed URL; they differ only in the leading slash of the key, and the
    folder segments read from either key are the same. *)
Theorem listFiles_folder_entry (date : string) (segs : list string) (n : string) :
  Forall segment (segs ++ [n]) ->
  let key := Js.join (segs ++ [n]) in
  let entry fileKey :=
    {| FileMetadata.name := n;
       FileMetadata.url := NoUrl;
       FileMetadata.publicUrl := PUBLIC_HOST +:+ "/" +:+ key +:+ "/";
       FileMetadata.size := 0;
       FileMetadata.uploadDate := date;
       FileMetadata.folderPath := renderPath segs;
       FileMetadata.fileKey := fileKey;
       FileMetadata.isFolder := true |} in
  prefixPlaceholder date (Some (key +:+ "/")) = entry (key +:+ "/")
  /\ prefixPlaceholder date (Some key) = entry (key +:+ "/")
  /\ folderObject date ("/" +:+ key +:+ "/") = entry ("/" +:+ key +:+ "/")
  /\ (segs = [] -> folderPlaceholder date (Some (key +:+ "/")) = Some (entry (key +:+ "/")))
  /\ folderSegments (key +:+ "/") = segs ++ [n]
  /\ folderSegments ("/" +:+ key +:+ "/") = segs ++ [n].
Proof.
  intros Hall key entry.
  assert (Hne : segs ++ [n] <> []) by (now destruct segs).
  assert (Hslash : Js.endsWithSlash (key +:+ "/") = true) by apply endsWithSlash_app_slash.
  assert (Hplain : Js.endsWithSlash key = false) by (now apply join_not_trailing).
  assert (Hparts : Js.filterBoolean (Js.split key) = segs ++ [n]).
  { unfold key. rewrite split_join by assumption. now apply filterBoolean_segments. }
  assert (Hpk : Js.filterBoolean (Js.split (key +:+ "/")) = segs ++ [n])
    by (now apply parts_of_folder_key).
  assert (Hpp : Js.filterBoolean (Js.split ("/" +:+ key +:+ "/")) = segs ++ [n])
    by (now apply (parts_of_folder_path (segs ++ [n]))).
  assert (Hfk : folderSegments (key +:+ "/") = segs ++ [n]).
  { unfold folderSegments, key. rewrite split_join_slash by assumption.
    rewrite init_snoc. now apply filterBoolean_segments. }
  assert (Hfp : folderSegments ("/" +:+ key +:+ "/") = segs ++ [n])
    by (now apply (folderSegments_folder_path (segs ++ [n]))).
  assert (Hdrop : dropLastChar (key +:+ "/") = key) by apply dropLastChar_snoc.
  subst entry. clearbody key. cbv beta.
  split; [| split; [| split; [| split; [| split]]]].
  - unfold prefixPlaceholder. simpl default. rewrite Hslash, Hdrop.
    rewrite Hparts, last_snoc_default, init_snoc, parent_of_parts. reflexivity.
  - unfold prefixPlaceholder. simpl default. rewrite Hplain.
    rewrite Hparts, last_snoc_default, init_snoc, parent_of_parts. reflexivity.
  - unfold folderObject. rewrite Hpp, last_snoc_default, init_snoc. reflexivity.
  - intros ->. unfold folderPlaceholder. simpl default. rewrite Hslash, Hpk.
    rewrite last_snoc_default. reflexivity.
  - exact Hfk.
  - exact Hfp.
Qed.

Lemma listFiles_folder_entry_witness :
  FileMetadata.name (prefixPlaceholder "2024-01-02" (Some "a/b/")) = "b"
  /\ FileMetadata.folderPath (prefixPlaceholder "2024-01-02" (Some "a/b/")) = "/a"
  /\ FileMetadata.folderPath (folderObject "2024-01-02" "/a/b/") = "/a".
Proof.
  destruct (listFiles_folder_entry "2024-01-02" ["a"] "b") as (H1 & _ & H3 & _).
  - repeat constructor.
  - split; [| split].
    + exact (f_equal FileMetadata.name H1).
    + exact (f_equal FileMetadata.folderPath H1).
    + exact (f_equal FileMetadata.folderPath H3).
Defined.

(** X20. What [listFiles] returns for a folder other than the root, from
    the response to its listing: first one folder entry for each common
    prefix, in order, of size 0, without a signed URL and with a key that
    ends with a slash; then the records of the listed objects whose base
    name is not [.keep], in order, each with the folder path its key
    implies.  A marker is never returned as a file, and without contents
    only the folder entries are returned. *)
Theorem listFilesFolder_entries (date : string)
    (commonPrefixes : option (list (option string)))
    (contents : option (list S3Object)) :
  let folderEntries := map (prefixPlaceholder date) (default [] commonPrefixes) in
  let fileEntries :=
    map (fileRecord date)
      (List.filter (fun item => negb (String.eqb (baseName (keyOr item)) MARKER))
         (default [] contents)) in
  listFilesFolder date commonPrefixes contents = folderEntries ++ fileEntries
  /\ (contents = None -> listFilesFolder date commonPrefixes contents = folderEntries)
  /\ (forall f, In f folderEntries ->
        FileMetadata.isFolder f = true /\ FileMetadata.size f = 0
        /\ FileMetadata.url f = NoUrl
        /\ Js.endsWithSlash (FileMetadata.fileKey f) = true)
  /\ (forall f, In f fileEntries ->
        FileMetadata.isFolder f = false /\ FileMetadata.name f <> MARKER
        /\ FileMetadata.folderPath f = folderPathOfKey (FileMetadata.fileKey f)).
Proof.
  intros folderEntries fileEntries.
  assert (Hfiles : forall items,
            omap (processItem date) items
            = map (fileRecord date)
                (List.filter (fun item => negb (String.eqb (baseName (keyOr item)) MARKER))
                   items)).
  { induction items as [|item items IH]; [reflexivity |].
    change (omap (processItem date) (item :: items))
      with (match processItem date item with
            | Some y => y :: omap (processItem date) items
            | None => omap (processItem date) items
            end).
    unfold processItem at 1. cbn [List.filter].
    destruct (String.eqb (baseName (keyOr item)) MARKER); cbn [negb]; [exact IH |].
    cbn [map]. rewrite IH. reflexivity. }
  assert (Hplace : match commonPrefixes with
                   | Some prefixes => map (prefixPlaceholder date) prefixes
                   | None => []
                   end = folderEntries).
  { unfold folderEntries. now destruct commonPrefixes. }
  split; [| split; [| split]].
  - unfold listFilesFolder. rewrite Hplace. unfold fileEntries.
    destruct contents as [items |]; [now rewrite Hfiles | now rewrite app_nil_r].
  - intros ->. unfold listFilesFolder. exact Hplace.
  - intros f Hf. apply in_map_iff in Hf as (prefix & <- & _).
    unfold prefixPlaceholder.
    cbn [FileMetadata.isFolder FileMetadata.size FileMetadata.url FileMetadata.fileKey].
    repeat split.
    destruct (Js.endsWithSlash (default "" prefix)) eqn:E;
      [exact E | apply endsWithSlash_app_slash].
  - intros f Hf. apply in_map_iff in Hf as (item & <- & Hitem).
    apply List.filter_In in Hitem as [_ Hm].
    apply negb_true_iff, String.eqb_neq in Hm.
    cbn [fileRecord FileMetadata.isFolder FileMetadata.name FileMetadata.folderPath
         FileMetadata.fileKey].
    repeat split. exact Hm.
Qed.

(** ** Deleting a file; the folder added to the page's tree *)

Section PageUpdates.

Lemma filter_store (o : Stored) (os : list Stored) :
  List.filter (fun x => negb (String.eqb (okey x) (okey o))) (store o os)
  = List.filter (fun x => negb (String.eqb (okey x) (okey o))) os.
Proof.
  induction os as [|x os IH]; cbn [store List.filter].
  - now rewrite String.eqb_refl.
  - destruct (String.eqb (okey x) (okey o)) eqn:E; cbn [List.filter negb].
    + now rewrite String.eqb_refl.
    + rewrite E. cbn [negb]. now rewrite IH.
Qed.

Lemma filter_keeps_all {A} (f : A -> bool) (l : list A) :
  (forall x, In x l -> f x = true) -> List.filter f l = l.
Proof.
  intros H. induction l as [|a l IH]; [reflexivity |]. cbn [List.filter].
  rewrite (H a) by now left. f_equal. apply IH. intros x Hx. apply H. now right.
Qed.

Lemma addFolder_count sel n np q t :
  (countPath sel t <= 1)%nat ->
  countPath q (addFolder sel (FolderNode n np []) t)
  = (countPath q t + (if String.eqb np q then countPath sel t else 0))%nat.
Proof.
  induction t as [m p cs IH] using FolderTree_forall_ind. intros Hle.
  cbn [addFolder]. cbn [countPath] in Hle |- *.
  destruct (String.eqb_spec p sel) as [-> | Hne].
  - cbn [countPath]. rewrite sum_list_with_app. cbn [sum_list_with countPath].
    destruct (String.eqb np q); lia.
  - cbn [countPath]. cbn [Nat.add] in Hle.
    assert (Hsum : sum_list_with (countPath q) (map (addFolder sel (FolderNode n np [])) cs)
                   = (sum_list_with (countPath q) cs
                      + (if String.eqb np q then sum_list_with (countPath sel) cs else 0))%nat).
    { induction cs as [|c cs IHcs]; [cbn; now destruct (String.eqb np q) |].
      apply Forall_cons in IH as [Hc Hcs]. cbn [sum_list_with] in Hle.
      cbn [map sum_list_with]. rewrite Hc by lia. rewrite (IHcs Hcs) by lia.
      destruct (String.eqb np q); lia. }
    rewrite Hsum. destruct (String.eqb np q); lia.
Qed.

End PageUpdates.

(** X21. [handleDeleteFile]: without confirmation nothing is sent and the
    page is unchanged.  With it, exactly one delete is sent, for the key of
    the file.  When the store accepts it, no object of the bucket and no
    record of the page has that key any more, every other object and record
    is kept in order, so the file is no longer shown in any folder, and the
    folder tree and the selection are untouched.  When the store rejects
    it, the page and the bucket are as before. *)
Theorem handleDeleteFile_removes_file (file : FileMetadata.t) (pg : Page) (w : World) :
  let key := FileMetadata.fileKey file in
  let result := handleDeleteFile true file pg w in
  let pg' := snd (fst result) in
  let w' := snd result in
  handleDeleteFile false file pg w = (None, pg, w)
  /\ calls w' = calls w ++ [DeleteObject key]
  /\ (rejected (DeleteObject key) w = false ->
      fst (fst result) = Some (FileDeleted (FileMetadata.name file))
      /\ objects w' = List.filter (fun o => negb (String.eqb (okey o) key)) (objects w)
      /\ (forall o, In o (objects w') -> okey o <> key)
      /\ files pg'
         = List.filter (fun f => negb (String.eqb (FileMetadata.fileKey f) key)) (files pg)
      /\ (forall folder f, In f (filteredFiles (files pg') folder) ->
            FileMetadata.fileKey f <> key /\ In f (filteredFiles (files pg) folder))
      /\ folders pg' = folders pg
      /\ selectedFolder pg' = selectedFolder pg)
  /\ (rejected (DeleteObject key) w = true ->
      fst result = (Some FailedToDeleteFile, pg) /\ objects w' = objects w).
Proof.
  intros key result pg' w'. subst pg' w' result.
  unfold handleDeleteFile, deleteFile, sendDelete. cbn [negb]. fold key.
  split; [reflexivity |].
  destruct (rejected (DeleteObject key) w); cbn [fst snd].
  - split; [reflexivity |]. split; [intros H; discriminate H |]. intros _. split; reflexivity.
  - split; [reflexivity |]. split; [| intros H; discriminate H]. intros _.
    cbn [files folders selectedFolder].
    split; [reflexivity |]. split; [reflexivity |]. split; [| split; [reflexivity | split]].
    + intros o Ho. apply List.filter_In in Ho as [_ Ho].
      apply negb_true_iff, String.eqb_neq in Ho. exact Ho.
    + intros folder f Hf. unfold filteredFiles in *.
      apply List.filter_In in Hf as [Hf Hin]. apply List.filter_In in Hf as [Hf Hk].
      split; [now apply negb_true_iff, String.eqb_neq in Hk |].
      apply List.filter_In. now split.
    + split; reflexivity.
Qed.

Lemma handleDeleteFile_removes_file_witness :
  let w := mkWorld [mkStored "a/x.png" 9 "2024-01-01"; mkStored "a/y.png" 7 "2024-01-01"]
                   [] (fun _ _ => false) 1000 "2024-01-02" in
  let x := fileRecord "2024-01-02" (describe (mkStored "a/x.png" 9 "2024-01-01")) in
  let y := fileRecord "2024-01-02" (describe (mkStored "a/y.png" 7 "2024-01-01")) in
  objects (snd (handleDeleteFile true x (mkPage [x; y] [] "/a" [] 0) w))
  = [mkStored "a/y.png" 7 "2024-01-01"]
  /\ files (snd (fst (handleDeleteFile true x (mkPage [x; y] [] "/a" [] 0) w))) = [y].
Proof.
  intros w x y.
  destruct (handleDeleteFile_removes_file x (mkPage [x; y] [] "/a" [] 0) w)
    as (_ & _ & H & _).
  destruct H as (_ & Hobj & _ & Hfiles & _); [reflexivity |].
  split; [exact Hobj | exact Hfiles].
Defined.

(** X22. The folder that [handleCreateFolder] adds to the page's tree
    before the next listing: when the selected folder is in the tree at
    most once per tree, the new path gains one node for each tree that
    holds the selected folder, and the number of nodes of every other path
    is unchanged.  So a new folder under a folder of the tree appears once,
    and a folder that was already there appears twice until the tree is
    rebuilt. *)
Theorem handleCreateFolder_adds_node (trimmed : string) (pg : Page) (w : World)
    (segs : list string) :
  selectedFolder pg = renderPath segs ->
  Forall segment segs ->
  Forall (fun t => (countPath (renderPath segs) t <= 1)%nat) (folders pg) ->
  let name := sanitizeFolderName trimmed in
  let newPath := renderPath (segs ++ [name]) in
  fst (fst (handleCreateFolder trimmed pg w)) = FolderCreated name ->
  forall q,
    sum_list_with (countPath q) (folders (snd (fst (handleCreateFolder trimmed pg w))))
    = (sum_list_with (countPath q) (folders pg)
       + (if String.eqb newPath q
          then sum_list_with (countPath (renderPath segs)) (folders pg) else 0))%nat.
Proof.
  intros Hsel Hsegs Hle name newPath Hcreated q. revert Hcreated.
  unfold handleCreateFolder. destruct (String.eqb trimmed ""); [discriminate |].
  fold name. rewrite Hsel, mainFolderPathOf_render by exact Hsegs. fold newPath.
  destruct (uploadFile markerFile newPath w) as [[meta | e] w']; [| discriminate].
  intros _. cbn [fst snd folders]. revert Hle. generalize (folders pg). intros l Hle.
  induction l as [|t ts IH];
    [cbn [map sum_list_with]; destruct (String.eqb newPath q); reflexivity |].
  apply Forall_cons in Hle as [Ht Hts]. cbn [map sum_list_with].
  rewrite (addFolder_count _ _ _ _ _ Ht), (IH Hts).
  destruct (String.eqb newPath q); lia.
Qed.

Lemma handleCreateFolder_adds_node_witness :
  let tree := FolderNode "Root" "/" [FolderNode "a" "/a" []] in
  let pg := mkPage [] [tree] "/a" [] 0 in
  sum_list_with (countPath "/a/new_dir")
    (folders (snd (fst (handleCreateFolder "new?dir" pg emptyBucket)))) = 1%nat.
Proof.
  intros tree pg.
  rewrite (handleCreateFolder_adds_node "new?dir" pg emptyBucket ["a"]).
  - reflexivity.
  - reflexivity.
  - repeat constructor.
  - repeat constructor.
  - reflexivity.
Defined.

(** X23. Uploading a file and deleting it again by the key that
    [uploadFile] returned leaves the bucket without that key and with
    every other object as it was, in order; when the key was not in the
    bucket before, the bucket is back to what it was.  An object that was
    under the key before the upload is gone too: the upload replaced it. *)
Theorem upload_then_delete (file : File.t) (folderPath : string) (w : World) :
  passesGate file = true ->
  rejected (putCall file folderPath) w = false ->
  let key := fileKeyOf folderPath (File.name file) in
  let w1 := snd (uploadFile file folderPath w) in
  rejected (DeleteObject key) w1 = false ->
  exists f,
    fst (uploadFile file folderPath w) = Ok f
    /\ FileMetadata.fileKey f = key
    /\ fst (deleteFile (FileMetadata.fileKey f) w1) = Ok tt
    /\ objects (snd (deleteFile (FileMetadata.fileKey f) w1))
       = List.filter (fun o => negb (String.eqb (okey o) key)) (objects w)
    /\ ((forall o, In o (objects w) -> okey o <> key) ->
        objects (snd (deleteFile (FileMetadata.fileKey f) w1)) = objects w)
    /\ calls (snd (deleteFile (FileMetadata.fileKey f) w1))
       = calls w ++ [putCall file folderPath; DeleteObject key].
Proof.
  intros Hgate Hput key w1 Hdel. subst w1. revert Hdel.
  rewrite (uploadFile_gated file folderPath w Hgate), Hput. cbn [fst snd]. fold key.
  intros Hdel. eexists. split; [reflexivity |]. split; [reflexivity |].
  unfold uploaded. cbn [FileMetadata.fileKey]. fold key.
  unfold deleteFile, sendDelete. rewrite Hdel. cbn [fst snd objects withObjects].
  assert (Hleft : List.filter (fun o => negb (String.eqb (okey o) key))
                    (store (mkStored key (File.size file) (today w)) (objects w))
                  = List.filter (fun o => negb (String.eqb (okey o) key)) (objects w))
    by apply (filter_store (mkStored key (File.size file) (today w))).
  split; [reflexivity |]. split; [exact Hleft |]. split.
  - intros Hfresh. rewrite Hleft. apply filter_keeps_all. intros o Ho.
    apply negb_true_iff, String.eqb_neq. now apply Hfresh.
  - cbn. now rewrite <- app_assoc.
Qed.

Lemma upload_then_delete_witness :
  let w := mkWorld [mkStored "a/y.png" 7 "2024-01-01"] [] (fun _ _ => false) 1000 "2024-01-02" in
  let file := File.mk "x.png" 9 "image/png" in
  objects (snd (deleteFile "a/x.png" (snd (uploadFile file "/a" w)))) = objects w.
Proof.
  intros w file.
  destruct (upload_then_delete file "/a" w) as (f & Hf & Hk & _ & _ & Hback & _).
  - reflexivity.
  - reflexivity.
  - reflexivity.
  - rewrite Hk in Hback. apply Hback. intros o [<- | []]. discriminate.
Defined.

(** ** A folder upload, seen through the next listing *)

Section UploadedFolder.

Lemma planFiles_paths entries p :
  segmentPath p -> Forall (fun u => segmentPath (unitPath u)) (planFiles entries p).
Proof.
  intros Hp. induction entries as [|[file | n es] rest IH]; cbn [planFiles];
    [constructor | | exact IH].
  destruct (_ || _); [| exact IH]. constructor; [exact Hp | exact IH].
Qed.

Lemma planMarkers_paths done rest buildPath :
  (done = [] /\ buildPath = "" \/ done <> [] /\ buildPath = renderPath done) ->
  Forall segment (done ++ rest) ->
  Forall (fun u => segmentPath (unitPath u)) (planMarkers rest buildPath).
Proof.
  revert done buildPath. induction rest as [|part rest IH]; intros done buildPath Hb Hall;
    cbn [planMarkers]; [constructor |].
  assert (Hstep : (if Js.truthy buildPath then buildPath +:+ "/" +:+ part else "/" +:+ part)
                  = renderPath (done ++ [part])).
  { destruct Hb as [[-> ->] | [Hd ->]]; [reflexivity |].
    rewrite renderPath_truthy. symmetry. now apply renderPath_snoc. }
  rewrite Hstep.
  replace (done ++ part :: rest) with ((done ++ [part]) ++ rest) in Hall
    by now rewrite <- app_assoc.
  constructor.
  - exists (done ++ [part]). split; [now destruct done |]. split; [| reflexivity].
    now apply Forall_app in Hall as [H _].
  - apply (IH (done ++ [part])); [| exact Hall]. right. split; [now destruct done | reflexivity].
Qed.

Lemma planDirectory_paths (e : Entry) :
  forall segs,
    segs <> [] -> Forall segment segs -> wellNamed e ->
    Forall (fun u => segmentPath (unitPath u)) (planDirectory e (renderPath segs)).
Proof.
  induction e as [file | name entries IH] using Entry_forall_ind; intros segs Hne Hsegs Hwell.
  - constructor.
  - cbn [planDirectory]. apply Forall_app. split.
    { apply planFiles_paths. exists segs. auto. }
    cbn [wellNamed] in Hwell.
    induction IH as [|x rest Hx _ IHrest]; [constructor |].
    destruct Hwell as (Hname & Hwx & Hwrest).
    destruct x as [file | n es]; [now apply IHrest |].
    assert (Hsub : renderPath segs +:+ "/" +:+ n = renderPath (segs ++ [n]))
      by (symmetry; now apply renderPath_snoc).
    assert (Hsegs' : Forall segment (segs ++ [n])).
    { apply Forall_app. split; [exact Hsegs | now constructor]. }
    rewrite Hsub, parts_of_renderPath by exact Hsegs'.
    apply Forall_app. split; [| apply Forall_app; split].
    + apply (planMarkers_paths [] (segs ++ [n]) ""); [now left | exact Hsegs'].
    + apply (Hx (segs ++ [n])); [now destruct segs | exact Hsegs' | exact Hwx].
    + now apply IHrest.
Qed.

Lemma store_keys o os k : k ∈ map okey os -> k ∈ map okey (store o os).
Proof.
  induction os as [|x os IH]; cbn [store map]; [intros H; now apply elem_of_nil in H |].
  destruct (String.eqb_spec (okey x) (okey o)) as [E | E]; cbn [map].
  - rewrite E. tauto.
  - rewrite !elem_of_cons. intros [-> | H]; [now left | right; now apply IH].
Qed.

Lemma attemptAll_objects (units : list (File.t * string)) :
  Forall (fun u => passesGate (fst u) = true) units ->
  forall results w,
    (forall n c, fails w n c = false) ->
    maxKeys (snd (attemptAll units results w)) = maxKeys w
    /\ (length (objects (snd (attemptAll units results w)))
        <= length (objects w) + length units)%nat
    /\ (forall k, k ∈ map okey (objects w) ->
                  k ∈ map okey (objects (snd (attemptAll units results w))))
    /\ (forall u, In u units ->
          fileKeyOf (snd u) (File.name (fst u))
          ∈ map okey (objects (snd (attemptAll units results w)))).
Proof.
  induction 1 as [|[file path] units Hg _ IH]; intros results w Hok.
  - cbn. repeat split; [lia | auto | intros u []].
  - cbn [attemptAll]. unfold bind. cbn [fst] in Hg.
    rewrite tryUpload_gated by exact Hg.
    destruct (uploadFile_gated_world file path w Hg) as (_ & Hf & _ & Hm).
    assert (Hobj : objects (snd (uploadFile file path w))
                   = store (mkStored (fileKeyOf path (File.name file)) (File.size file) (today w))
                       (objects w)).
    { rewrite uploadFile_gated by exact Hg. unfold rejected. now rewrite Hok. }
    set (w1 := snd (uploadFile file path w)) in *.
    assert (Hok1 : forall n c, fails w1 n c = false) by (intros n c; now rewrite Hf).
    destruct (IH (results ++ fulfilled (outcomes (fails w) (length (calls w)) (today w)
                                          [(file, path)])) w1 Hok1)
      as (Hmax & Hlen & Hkeep & Hin).
    split; [now rewrite Hmax |]. split; [| split].
    + rewrite Hobj in Hlen. cbn [length].
      pose proof (store_length (mkStored (fileKeyOf path (File.name file)) (File.size file)
                                 (today w)) (objects w)). lia.
    + intros k Hk. apply Hkeep. rewrite Hobj. now apply store_keys.
    + intros u [<- | Hu]; [| now apply Hin]. cbn [fst snd]. apply Hkeep. rewrite Hobj.
      apply list_elem_of_fmap.
      exists (mkStored (fileKeyOf path (File.name file)) (File.size file) (today w)).
      split; [reflexivity | apply list_elem_of_In, store_In].
Qed.

End UploadedFolder.

(** X24. A folder upload, seen through the next listing.  With a store
    that rejects nothing and lists the whole bucket at once, after
    [uploadFolder] of a directory with well-named sub-directories into a
    folder made of segments, the tree built from a listing of the bucket has
    exactly one node for the folder of every marker and every file that was
    put, when the file's name is a segment; and every such file that is not
    a marker is shown among the files of its folder, under its name and the
    key of its put. *)
Theorem uploaded_folder_is_listed (folderEntry : Entry) (bsegs : list string) (w : World)
    (date : string) (cps : option (list (option string))) :
  Forall segment bsegs ->
  segment (entryName folderEntry) ->
  wellNamed folderEntry ->
  (forall n c, fails w n c = false) ->
  let base := renderPath bsegs in
  let plan := uploadPlan folderEntry base in
  (length (objects w) + length plan <= maxKeys w)%nat ->
  let w' := snd (uploadFolder folderEntry base w) in
  let listing := Some (map describe (page "" w')) in
  exists root,
    buildFolderStructure (listFilesRoot date cps listing) = Some [root]
    /\ forall u, In u plan -> segment (File.name (unitFile u)) ->
         countPath (unitPath u) root = 1%nat
         /\ (File.name (unitFile u) <> MARKER ->
             exists f, In f (directFiles date cps listing (unitPath u))
                       /\ FileMetadata.name f = File.name (unitFile u)
                       /\ FileMetadata.fileKey f
                          = fileKeyOf (unitPath u) (File.name (unitFile u))).
Proof.
  intros Hbsegs Hname Hwell Hok base plan Hfit w' listing.
  assert (Htop : Forall segment (bsegs ++ [entryName folderEntry])).
  { apply Forall_app. split; [exact Hbsegs | now constructor]. }
  assert (Hpaths : Forall (fun u => segmentPath (unitPath u)) plan).
  { unfold plan, uploadPlan, base. rewrite mainFolderPathOf_render by exact Hbsegs.
    constructor.
    - exists (bsegs ++ [entryName folderEntry]). split; [now destruct bsegs | auto].
    - apply planDirectory_paths; [now destruct bsegs | exact Htop | exact Hwell]. }
  destruct (attemptAll_objects (map unitPair plan) (uploadPlan_gated _ _) [] w Hok)
    as (Hmax & Hlen & _ & Hin).
  assert (Hw : snd (attemptAll (map unitPair plan) [] w) = w').
  { unfold w', plan. now rewrite uploadFolder_plan. }
  rewrite Hw in Hmax, Hlen, Hin. rewrite length_map in Hlen.
  assert (Hpage : page "" w' = objects w').
  { apply page_whole_bucket. rewrite Hmax. lia. }
  destruct (buildFolderStructure_counts (listFilesRoot date cps listing)) as (root & Hb & Hc).
  exists root. split; [exact Hb |]. intros u Hu Hseg.
  rewrite Forall_forall in Hpaths.
  destruct (Hpaths u (proj2 (list_elem_of_In _ _) Hu)) as (ss & Hne & Hss & Hpath).
  specialize (Hin (unitPair u) (in_map unitPair _ _ Hu)). cbn [unitPair fst snd] in Hin.
  rewrite Hpath in Hin |- *. rewrite fileKeyOf_renderPath in Hin |- * by exact Hss.
  apply list_elem_of_fmap in Hin as (o & Hkey & Ho). apply list_elem_of_In in Ho.
  assert (Hitem : In (describe o) (map describe (page "" w'))).
  { rewrite Hpage. now apply in_map. }
  assert (Hall : Forall segment (ss ++ [File.name (unitFile u)])).
  { apply Forall_app. split; [exact Hss | now constructor]. }
  split.
  - rewrite Hc. rewrite bool_decide_eq_true_2; [reflexivity |].
    apply (listed_chain_in_allPaths date cps _ (describe o)); [exact Hitem |].
    change (keyOr (describe o)) with (okey o). rewrite <- Hkey.
    rewrite keyChain_prefixes. rewrite folderSegments_join by (exact Hall || now destruct ss).
    rewrite init_snoc. apply in_map. right. apply list_elem_of_In, nonemptyPrefixes_elem.
    split; [exact Hne | reflexivity].
  - intros Hmark. exists (fileRecord date (describe o)). split; [| split].
    + unfold listing. rewrite directFiles_filter. apply in_map. apply List.filter_In.
      split; [exact Hitem |]. unfold shownIn. apply andb_true_iff.
      change (keyOr (describe o)) with (okey o). rewrite <- Hkey. split.
      * rewrite baseName_joined by assumption. apply negb_true_iff. now apply String.eqb_neq.
      * unfold describe. rewrite <- Hkey. now apply belongsTo_uploaded.
    + cbn [fileRecord FileMetadata.name]. change (keyOr (describe o)) with (okey o).
      rewrite <- Hkey. now apply baseName_joined.
    + cbn [fileRecord FileMetadata.fileKey]. change (keyOr (describe o)) with (okey o).
      now rewrite <- Hkey.
Qed.

Lemma uploaded_folder_is_listed_witness :
  exists root,
    buildFolderStructure
      (listFilesRoot "2024-01-03" None
         (Some (map describe (page "" (snd (uploadFolder twoLevels "/" emptyBucket))))))
    = Some [root]
    /\ countPath "/top/sub" root = 1%nat.
Proof.
  destruct (uploaded_folder_is_listed twoLevels [] emptyBucket "2024-01-03" None)
    as (root & Hb & Hu).
  - constructor.
  - split; reflexivity.
  - cbn. repeat split.
  - reflexivity.
  - vm_compute. lia.
  - exists root. split; [exact Hb |].
    apply (Hu (MarkerAt "/top/sub")).
    + vm_compute. tauto.
    + split; reflexivity.
Defined.
